(** * vscode-conventional-commits: prompt handlers, repository resolution
      and commit-message serialization

    A shallow embedding of

    - [src/lib/localize.ts]             (module [Localize]),
    - [src/lib/prompts/prompt-types.ts] (module [PromptTypes]),
    - [src/lib/conventional-commits.ts] (module [ConventionalCommits]),

    together with the collaborators whose sources are not available (the
    settings store, the simple quick pick, the prompt sequencer and the
    message serializer), which are modelled from the specification and
    marked as such.

    Asynchronous code is embedded in a state-and-outcome monad over the
    editor host: a promise either resolves, rejects, or never settles. *)

From Stdlib Require Import String Ascii List Arith Lia Bool.
From stdpp Require Import base option list strings gmap.

Local Open Scope string_scope.
Local Open Scope list_scope.

(** ** JavaScript values *)

Module Js.

(** A string is falsy exactly when it is empty. *)
Definition truthy (s : string) : bool := negb (String.eqb s "").

(** [undefined] is [None]; a [string | undefined] is truthy when it is a
    non-empty string. *)
Definition truthy_opt (s : option string) : bool :=
  match s with
  | Some s => truthy s
  | None => false
  end.

(** [a || b] on [string | undefined]. *)
Definition or (a b : option string) : option string :=
  if truthy_opt a then a else b.

(** [a || b] on numbers. *)
Definition or_num (a b : nat) : nat :=
  if Nat.eqb a 0 then b else a.

(** The text a template literal or [+] gives a [string | undefined]. *)
Definition to_string (s : option string) : string :=
  match s with
  | Some s => s
  | None => "undefined"
  end.

(** [s.slice(0, n)]. *)
Definition slice0 (n : nat) (s : string) : string := substring 0 n s.

(** [xs.join(sep)]. *)
Definition join (sep : string) (xs : list string) : string :=
  String.concat sep xs.

End Js.

(** ** src/lib/localize.ts *)

Module Localize.

(** The two tables [initialize] loads from the package's [nls] files. *)
Record NLS := {
  localeNLS : gmap string string;
  defaultNLS : gmap string string
}.

(** [localeNLS[key] || defaultNLS[key]], for a key that is no member of
    [Object.prototype]: the keys of the code are literals that start with
    ["extension."].  [LocalizeModule.localize] below is the lookup for
    every key. *)
Definition localize (nls : NLS) (key : string) : option string :=
  Js.or (localeNLS nls !! key) (defaultNLS nls !! key).

End Localize.

(** ** Errors, promises and the editor host *)

(** What the code throws.  The two [new Error(...)] of [getRepository]
    are kept apart by their localization key; [message] below renders the
    text: [localize(key) + fsPath] (where [undefined] reads "undefined")
    and [localize(key)] (where [new Error(undefined)] has the empty
    message). *)
Inductive Error : Type :=
| RepositoryNotFoundError (fsPath : string)
| NoRepositoryError
| TypeError (property : string)
| Thrown (what : string).

Definition message (nls : Localize.NLS) (e : Error) : string :=
  match e with
  | RepositoryNotFoundError fsPath =>
      Js.to_string
        (Localize.localize nls "extension.sources.repositoryNotFoundInPath")
      +:+ fsPath
  | NoRepositoryError =>
      default "" (Localize.localize nls "extension.sources.repositoriesEmpty")
  | TypeError property =>
      "Cannot read property '" +:+ property +:+ "' of undefined"
  | Thrown what => what
  end.

(** The result of calling a callback: it returns or it throws. *)
Inductive Completion (A : Type) : Type :=
| Normal (a : A)
| Throw (e : Error).
Arguments Normal {A} a.
Arguments Throw {A} e.

(** The state of a promise once the user has stopped interacting. *)
Inductive Outcome (A : Type) : Type :=
| Resolved (a : A)
| Rejected (e : Error)
| Pending.
Arguments Resolved {A} a.
Arguments Rejected {A} e.
Arguments Pending {A}.

(** [Item] of prompt-types.ts; [index] is the extra field of the items
    [getRepository] builds. *)
Module Item.
Record t := {
  label : string;
  detail : option string;
  description : option string;
  alwaysShow : option bool;
  placeholder : option string;
  index : option nat
}.
End Item.

(** The argument of [createSimpleQuickPick]. *)
Module SimpleQuickPickOptions.
Record t := {
  placeholder : option string;
  matchOnDescription : option bool;
  matchOnDetail : option bool;
  ignoreFocusOut : option bool;
  items : list Item.t;
  step : option nat;
  totalSteps : option nat
}.
End SimpleQuickPickOptions.

(** What the host user does to an input box. *)
Inductive InputEvent : Type :=
| DidChangeValue (value : string)
| DidAccept
| DidHide.

(** What the host user does to a choice list: the promise of
    [createSimpleQuickPick] resolves with the selected items, rejects with
    whatever the host threw, or is left unsettled. *)
Inductive PickAnswer : Type :=
| Selected (items : list Item.t)
| Failed (what : string)
| Unsettled.

(** A widget the program has put on screen. *)
Inductive Widget : Type :=
| QuickPickShown (options : SimpleQuickPickOptions.t)
| InputBoxShown (step totalSteps : nat) (placeholder prompt : option string).

(** The editor host: the scripted user ([picks], [boxes]), the settings
    store behind [configuration.get]/[configuration.update], the widgets
    shown so far and the output channel. *)
Module Host.
Record t := {
  picks : list PickAnswer;
  boxes : list (list InputEvent);
  settings : gmap string (list string);
  shown : list Widget;
  output : list string
}.

Definition with_picks (ps : list PickAnswer) (h : t) : t :=
  {| picks := ps; boxes := boxes h; settings := settings h;
     shown := shown h; output := output h |}.

Definition with_boxes (bs : list (list InputEvent)) (h : t) : t :=
  {| picks := picks h; boxes := bs; settings := settings h;
     shown := shown h; output := output h |}.

Definition with_settings (s : gmap string (list string)) (h : t) : t :=
  {| picks := picks h; boxes := boxes h; settings := s;
     shown := shown h; output := output h |}.

Definition show (w : Widget) (h : t) : t :=
  {| picks := picks h; boxes := boxes h; settings := settings h;
     shown := shown h ++ [w]; output := output h |}.

Definition print (line : string) (h : t) : t :=
  {| picks := picks h; boxes := boxes h; settings := settings h;
     shown := shown h; output := output h ++ [line] |}.
End Host.

(** An asynchronous computation: run against the host, it leaves a promise
    in one of the three states. *)
Definition Async (A : Type) : Type := Host.t → Outcome A * Host.t.

#[global] Instance Async_ret : MRet Async := λ A a h, (Resolved a, h).

(** [await]: the rest runs only after the promise has resolved. *)
#[global] Instance Async_bind : MBind Async := λ A B k m h,
  match m h with
  | (Resolved a, h') => k a h'
  | (Rejected e, h') => (Rejected e, h')
  | (Pending, h') => (Pending, h')
  end.

Definition throw {A : Type} (e : Error) : Async A := λ h, (Rejected e, h).

(** The promise of an [async] function whose last statement completes
    with [c]. *)
Definition settle {A : Type} (c : Completion A) : Outcome A :=
  match c with
  | Normal a => Resolved a
  | Throw e => Rejected e
  end.

Definition complete {A : Type} (c : Completion A) : Async A :=
  match c with
  | Normal a => mret a
  | Throw e => throw e
  end.

(** The two halves of a run. *)
Definition outcome {A : Type} (run : Outcome A * Host.t) : Outcome A := fst run.
Definition host {A : Type} (run : Outcome A * Host.t) : Host.t := snd run.

(** [output.appendLine(line)] *)
Definition appendLine (line : string) : Async () :=
  λ h, (Resolved (), Host.print line h).

(** Modelled from the spec: [configuration.get] of src/lib/configuration.ts
    (not among the sources), "a user-settings store providing/accepting
    string-list values per named key"; a key never written reads as the
    empty list. *)
Definition configuration_get (key : string) : Async (list string) :=
  λ h, (Resolved (default [] (Host.settings h !! key)), h).

(** Modelled from the spec: [configuration.update] of
    src/lib/configuration.ts (not among the sources): the value is stored
    under the key, for this and every later run. *)
Definition configuration_update (key : string) (value : list string) : Async () :=
  λ h, (Resolved (), Host.with_settings (<[key := value]> (Host.settings h)) h).

(** Modelled from the spec: [createSimpleQuickPick] of
    src/lib/prompts/quick-pick.ts (not among the sources): the options are
    shown as a choice list and the promise settles the way the user settles
    it. *)
Definition createSimpleQuickPick (options : SimpleQuickPickOptions.t)
  : Async (list Item.t) :=
  λ h,
    let h := Host.show (QuickPickShown options) h in
    match Host.picks h with
    | [] => (Pending, h)
    | Selected items :: rest => (Resolved items, Host.with_picks rest h)
    | Failed what :: rest => (Rejected (Thrown what), Host.with_picks rest h)
    | Unsettled :: rest => (Pending, Host.with_picks rest h)
    end.

(** ** src/lib/prompts/prompt-types.ts *)

Module PromptTypes.

Module QuickPickOptions.
Record t := {
  placeholder : option string;
  items : option (list Item.t);
  format : option (string → Completion string);
  step : nat;
  totalSteps : nat;
  noneItem : option Item.t
}.
End QuickPickOptions.

Module InputBoxOptions.
Record t := {
  placeholder : option string;
  format : option (string → Completion string);
  step : nat;
  totalSteps : nat;
  validate : option (string → Completion (option string))
}.
End InputBoxOptions.

Module ConfigurableQuickPickOptions.
Record t := {
  placeholder : option string;
  format : option (string → Completion string);
  step : nat;
  totalSteps : nat;
  configurationKey : string;
  newItem : Item.t;
  noneItem : option Item.t;
  newItemWithoutSetting : Item.t;
  addNoneOption : bool;
  validate : option (string → Completion (option string))
}.
End ConfigurableQuickPickOptions.

(** The defaults of the destructured parameters:
    [format = (i) => i] and [validate = () => undefined]. *)
Definition format_or_default (format : option (string → Completion string))
  : string → Completion string :=
  default (λ i, Normal i) format.

Definition validate_or_default
  (validate : option (string → Completion (option string)))
  : string → Completion (option string) :=
  default (λ _, Normal None) validate.

(** *** createQuickPick *)

(** [pickerItems] aliases [items]: the [unshift] puts the none item in
    front of the very list handed to the picker.  (The caller's array keeps
    the extra item; step descriptors are built afresh for every run, so
    nothing reads it again.) *)
Definition pickerItems (o : QuickPickOptions.t) : list Item.t :=
  let items := default [] (QuickPickOptions.items o) in
  match QuickPickOptions.noneItem o with
  | Some noneItem => noneItem :: items
  | None => items
  end.

(** Lines 64-67: the selected label, or [''] for the none item's. *)
Definition selectedValue (noneItem : option Item.t) (label : string) : string :=
  match noneItem with
  | Some noneItem =>
      if String.eqb label (Item.label noneItem) then "" else label
  | None => label
  end.

(** The argument of the call to [createSimpleQuickPick]. *)
Definition simpleQuickPickOptions (o : QuickPickOptions.t)
  : SimpleQuickPickOptions.t :=
  {| SimpleQuickPickOptions.placeholder := QuickPickOptions.placeholder o;
     SimpleQuickPickOptions.matchOnDescription := Some true;
     SimpleQuickPickOptions.matchOnDetail := Some true;
     SimpleQuickPickOptions.ignoreFocusOut := Some true;
     SimpleQuickPickOptions.items := pickerItems o;
     SimpleQuickPickOptions.step := Some (QuickPickOptions.step o);
     SimpleQuickPickOptions.totalSteps := Some (QuickPickOptions.totalSteps o) |}.

Definition createQuickPick (o : QuickPickOptions.t) : Async string :=
  selectedItems ← createSimpleQuickPick (simpleQuickPickOptions o);
  match selectedItems with
  | [] => throw (TypeError "label")
  | first :: _ =>
      complete
        (format_or_default (QuickPickOptions.format o)
           (selectedValue (QuickPickOptions.noneItem o) (Item.label first)))
  end.

(** The widget [createInputBox] puts on screen. *)
Definition inputBoxWidget (o : InputBoxOptions.t) : Widget :=
  InputBoxShown (InputBoxOptions.step o) (InputBoxOptions.totalSteps o)
    (InputBoxOptions.placeholder o) (InputBoxOptions.placeholder o).

(** *** createInputBox *)

(** The [vscode.InputBox] fields the handlers read and write. *)
Module InputBox.
Record t := {
  value : string;
  validationMessage : option string;
  disposed : bool
}.

Definition initial : t :=
  {| value := ""; validationMessage := None; disposed := false |}.

Definition with_value (v : string) (input : t) : t :=
  {| value := v; validationMessage := validationMessage input;
     disposed := disposed input |}.

Definition with_validationMessage (m : option string) (input : t) : t :=
  {| value := value input; validationMessage := m;
     disposed := disposed input |}.

Definition dispose (input : t) : t :=
  {| value := value input; validationMessage := validationMessage input;
     disposed := true |}.
End InputBox.

(** Each handler returns the box and what it did to the promise
    ([Pending]: neither [resolve] nor [reject] was called). *)
Definition onDidChangeValue (o : InputBoxOptions.t) (input : InputBox.t)
  : InputBox.t * Outcome string :=
  match validate_or_default (InputBoxOptions.validate o) (InputBox.value input) with
  | Normal m => (InputBox.with_validationMessage m input, Pending)
  | Throw e => (input, Rejected e)
  end.

Definition onDidAccept (o : InputBoxOptions.t) (input : InputBox.t)
  : InputBox.t * Outcome string :=
  match validate_or_default (InputBoxOptions.validate o) (InputBox.value input) with
  | Throw e => (input, Rejected e)
  | Normal m =>
      let input := InputBox.with_validationMessage m input in
      if Js.truthy_opt (InputBox.validationMessage input) then (input, Pending)
      else
        match format_or_default (InputBoxOptions.format o) (InputBox.value input) with
        | Throw e => (input, Rejected e)
        | Normal result => (InputBox.dispose input, Resolved result)
        end
  end.

(** The host delivers the user's events to the registered handlers.  No
    handler is registered for a dismissal: the box is gone and the
    promise is left as it is. *)
Fixpoint deliver (o : InputBoxOptions.t) (input : InputBox.t)
  (events : list InputEvent) : InputBox.t * Outcome string :=
  match events with
  | [] => (input, Pending)
  | DidHide :: _ => (input, Pending)
  | DidChangeValue v :: events =>
      match onDidChangeValue o (InputBox.with_value v input) with
      | (input, Pending) => deliver o input events
      | settled => settled
      end
  | DidAccept :: events =>
      match onDidAccept o input with
      | (input, Pending) => deliver o input events
      | settled => settled
      end
  end.

Definition createInputBox (o : InputBoxOptions.t) : Async string :=
  λ h,
    let h := Host.show (inputBoxWidget o) h in
    match Host.boxes h with
    | [] => (Pending, h)
    | events :: rest =>
        (snd (deliver o InputBox.initial events), Host.with_boxes rest h)
    end.

(** *** createConfigurableQuickPick *)

Section Configurable.
Variable nls : Localize.NLS.

(** The item a persisted value is listed as. *)
Definition configurationItem (value : string) : Item.t :=
  {| Item.label := value;
     Item.description := Some "";
     Item.detail :=
       Localize.localize nls
         "extension.sources.prompt.fromWorkspaceConfiguration";
     Item.alwaysShow := None;
     Item.placeholder := None;
     Item.index := None |}.

Definition items (currentValus : list string)
  (o : ConfigurableQuickPickOptions.t) : list Item.t :=
  map configurationItem currentValus
  ++ [ConfigurableQuickPickOptions.newItem o]
  ++ [ConfigurableQuickPickOptions.newItemWithoutSetting o].

(** The argument of the call to [createQuickPick]. *)
Definition quickPickOptions (currentValus : list string)
  (o : ConfigurableQuickPickOptions.t) : QuickPickOptions.t :=
  {| QuickPickOptions.placeholder := ConfigurableQuickPickOptions.placeholder o;
     QuickPickOptions.items := Some (items currentValus o);
     QuickPickOptions.format := None;
     QuickPickOptions.step := ConfigurableQuickPickOptions.step o;
     QuickPickOptions.totalSteps := ConfigurableQuickPickOptions.totalSteps o;
     QuickPickOptions.noneItem := ConfigurableQuickPickOptions.noneItem o |}.

(** The arguments of the two calls to [createInputBox]. *)
Definition nestedInputBox (o : ConfigurableQuickPickOptions.t)
  (item : Item.t) : InputBoxOptions.t :=
  {| InputBoxOptions.placeholder := Item.placeholder item;
     InputBoxOptions.format := None;
     InputBoxOptions.step := ConfigurableQuickPickOptions.step o;
     InputBoxOptions.totalSteps := ConfigurableQuickPickOptions.totalSteps o;
     InputBoxOptions.validate := ConfigurableQuickPickOptions.validate o |}.

(** Lines 149-159: the "create and remember" item. *)
Definition createAndRemember (o : ConfigurableQuickPickOptions.t)
  (currentValus : list string) (selectedValue : string) : Async string :=
  let configurationKey := ConfigurableQuickPickOptions.configurationKey o in
  let newItem := ConfigurableQuickPickOptions.newItem o in
  if String.eqb selectedValue (Item.label newItem) then
    selectedValue ← createInputBox (nestedInputBox o newItem);
    _ ← (if Js.truthy selectedValue then
           configuration_update configurationKey
             (currentValus ++ [selectedValue])
         else mret ());
    mret selectedValue
  else mret selectedValue.

(** Lines 160-167: the "create without remembering" item. *)
Definition createWithoutSetting (o : ConfigurableQuickPickOptions.t)
  (selectedValue : string) : Async string :=
  let newItemWithoutSetting :=
    ConfigurableQuickPickOptions.newItemWithoutSetting o in
  if String.eqb selectedValue (Item.label newItemWithoutSetting) then
    createInputBox (nestedInputBox o newItemWithoutSetting)
  else mret selectedValue.

Definition createConfigurableQuickPick (o : ConfigurableQuickPickOptions.t)
  : Async string :=
  currentValus ← configuration_get (ConfigurableQuickPickOptions.configurationKey o);
  selectedValue ← createQuickPick (quickPickOptions currentValus o);
  selectedValue ← createAndRemember o currentValus selectedValue;
  selectedValue ← createWithoutSetting o selectedValue;
  complete (format_or_default (ConfigurableQuickPickOptions.format o) selectedValue).

(** *** The hosts a run goes through *)

(** The persisted list [configuration.get] returns. *)
Definition currentValus (o : ConfigurableQuickPickOptions.t) (h : Host.t)
  : list string :=
  default [] (Host.settings h !! ConfigurableQuickPickOptions.configurationKey o).

(** The host once the choice list has been answered. *)
Definition picked (o : ConfigurableQuickPickOptions.t) (picks : list PickAnswer)
  (h : Host.t) : Host.t :=
  Host.with_picks picks
    (Host.show
       (QuickPickShown (simpleQuickPickOptions (quickPickOptions (currentValus o h) o)))
       h).

(** The host once the value [v] has been entered in the "create and
    remember" input. *)
Definition remembered (o : ConfigurableQuickPickOptions.t) (v : string)
  (boxes : list (list InputEvent)) (h : Host.t) : Host.t :=
  let h' := Host.with_boxes boxes
              (Host.show
                 (inputBoxWidget
                    (nestedInputBox o (ConfigurableQuickPickOptions.newItem o))) h) in
  if Js.truthy v
  then Host.with_settings
         (<[ConfigurableQuickPickOptions.configurationKey o := currentValus o h ++ [v]]>
            (Host.settings h')) h'
  else h'.

End Configurable.

(** *** The dispatch table (the default export) *)

Inductive Prompt : Type :=
| QUICK_PICK (name : string) (options : QuickPickOptions.t)
| INPUT_BOX (name : string) (options : InputBoxOptions.t)
| CONFIGURABLE_QUICK_PICK (name : string) (options : ConfigurableQuickPickOptions.t).

Definition name (p : Prompt) : string :=
  match p with
  | QUICK_PICK name _ | INPUT_BOX name _ | CONFIGURABLE_QUICK_PICK name _ => name
  end.

Definition promptTypes (nls : Localize.NLS) (p : Prompt) : Async string :=
  match p with
  | QUICK_PICK _ o => createQuickPick o
  | INPUT_BOX _ o => createInputBox o
  | CONFIGURABLE_QUICK_PICK _ o => createConfigurableQuickPick nls o
  end.

End PromptTypes.

(** ** The prompt sequencer *)

Module Prompts.
Import PromptTypes.

(** Modelled from the spec: the sequencer of src/lib/prompts/index.ts
    (not among the sources), which "executes an ordered list of step
    descriptors, one at a time, waiting for user input at each before
    proceeding, and assembles results into the answer record", "a
    mapping from field name to final formatted string; built
    incrementally, one field at a time, in descriptor order". *)
Fixpoint promptSequence (nls : Localize.NLS) (prompts : list Prompt)
  (answers : gmap string string) : Async (gmap string string) :=
  match prompts with
  | [] => mret answers
  | prompt :: prompts =>
      answer ← promptTypes nls prompt;
      promptSequence nls prompts (<[name prompt := answer]> answers)
  end.

End Prompts.

(** ** The message serializer *)

Module CommitMessage.

Definition LF : string := String (ascii_of_nat 10) "".

(** Modelled from the spec: the "whitespace" that is trimmed, here space,
    tab, line feed, vertical tab, form feed and carriage return. *)
Definition is_whitespace (c : ascii) : bool :=
  let n := nat_of_ascii c in
  Nat.eqb n 32 || (Nat.leb 9 n && Nat.leb n 13).

(** Modelled from the spec: "leading/trailing whitespace is trimmed from
    the final result". *)
Fixpoint trimStart (s : string) : string :=
  match s with
  | EmptyString => EmptyString
  | String c s' => if is_whitespace c then trimStart s' else s
  end.

Fixpoint trimEnd (s : string) : string :=
  match s with
  | EmptyString => EmptyString
  | String c s' =>
      match trimEnd s' with
      | EmptyString => if is_whitespace c then EmptyString else String c EmptyString
      | rest => String c rest
      end
  end.

Definition trim (s : string) : string := trimEnd (trimStart s).

(** Modelled from the spec: the answer record is "a mapping from field
    name to final formatted string"; a field that was never asked reads as
    empty. *)
Definition field (answers : gmap string string) (name : string) : string :=
  default "" (answers !! name).

(** Modelled from the spec: the first line of the shape,
    [<type>(<scope>): <subject>], where "the scope segment and its
    parentheses are omitted entirely when scope is empty". *)
Definition serializeHeader (answers : gmap string string) : string :=
  field answers "type"
  +:+ (if Js.truthy (field answers "scope")
       then "(" +:+ field answers "scope" +:+ ")"
       else "")
  +:+ ": "
  +:+ field answers "subject".

(** Modelled from the spec: "the body and footer blocks (and their
    separating blank lines) are omitted when empty". *)
Definition block (text : string) : string :=
  if Js.truthy text then LF +:+ LF +:+ text else "".

(** Modelled from the spec: [serialize] of src/lib/commit-message.ts
    (not among the sources), a "pure function mapping a complete answer
    record to one formatted string" of the shape
    [<type>(<scope>): <subject>], blank line, [<body>], blank line,
    [<footer>]; "leading/trailing whitespace is trimmed from the final
    result".  The line-break marker is not an input of [serialize]
    (the command calls [serialize(commitMessage)]); it is the upstream
    formatter's business. *)
Definition serialize (answers : gmap string string) : string :=
  trim (serializeHeader answers
        +:+ block (field answers "body")
        +:+ block (field answers "footer")).

(** The answer record of the specification's example. *)
Definition feat_api : gmap string string :=
  <["type" := "feat"]> (<["scope" := "api"]> (<["subject" := "add auth"]>
    (<["body" := ""]> (<["footer" := ""]> ∅)))).

(** A text with a parenthesis in it. *)
Fixpoint has_parenthesis (s : string) : bool :=
  match s with
  | EmptyString => false
  | String c s' =>
      Ascii.eqb c "(" || Ascii.eqb c ")" || has_parenthesis s'
  end.

End CommitMessage.

(** ** src/lib/conventional-commits.ts *)

Module ConventionalCommits.

(** The parts of the git extension's object model that are read. *)
Module Ref.
Record t := {
  name : option string;
  commit : option string
}.
End Ref.

Section Git.
(** [Change] of vendors/git: only the lengths of the lists are read. *)
Context {Change : Type}.

Record RepositoryState := {
  HEAD : option Ref.t;
  workingTreeChanges : list Change;
  mergeChanges : list Change;
  indexChanges : list Change
}.

Record Repository := {
  rootUri : string;          (* rootUri.fsPath *)
  state : RepositoryState
}.
End Git.
Arguments RepositoryState : clear implicits.
Arguments Repository : clear implicits.

Module WorkspaceFolder.
Record t := {
  uri : string;              (* uri.fsPath *)
  name : string;
  index : nat
}.
End WorkspaceFolder.

(** [Arg]: [_rootUri.fsPath]. *)
Module Arg.
Record t := { _rootUri : string }.
End Arg.

Section GetRepository.
Context {Change : Type}.
Variable nls : Localize.NLS.
(** [path.basename] of the Node library. *)
Variable basename : string → string.

Definition hasChanges (repo : Repository Change) : nat :=
  Js.or_num (length (workingTreeChanges (state repo)))
    (Js.or_num (length (mergeChanges (state repo)))
       (length (indexChanges (state repo)))).

(** A repository with pending working-tree, merge or index changes. *)
Definition pendingChanges (repo : Repository Change) : Prop :=
  workingTreeChanges (state repo) ≠ []
  ∨ mergeChanges (state repo) ≠ []
  ∨ indexChanges (state repo) ≠ [].

(** [arg && arg._rootUri.fsPath]: the explicit target, if there is one. *)
Definition explicitTarget (arg : option Arg.t) : option string :=
  match arg with
  | Some arg =>
      if Js.truthy (Arg._rootUri arg) then Some (Arg._rootUri arg) else None
  | None => None
  end.

(** [folder?.name || path.basename(repo.rootUri.fsPath)] *)
Definition itemLabel (workspaceFolders : option (list WorkspaceFolder.t))
  (repo : Repository Change) : string :=
  let folder :=
    workspaceFolders ≫=
      find (λ f, String.eqb (WorkspaceFolder.uri f) (rootUri repo)) in
  match Js.or (WorkspaceFolder.name <$> folder) (Some (basename (rootUri repo))) with
  | Some label => label
  | None => ""
  end.

(** [repo.state.HEAD?.name || repo.state.HEAD?.commit?.slice(0, 8) || ''] *)
Definition headLabel (repo : Repository Change) : string :=
  let HEAD := HEAD (state repo) in
  Js.to_string
    (Js.or (Js.or (HEAD ≫= Ref.name)
              (Js.slice0 8 <$> (HEAD ≫= Ref.commit)))
       (Some "")).

(** The template literal; the trailing [|| ''] leaves it as it is. *)
Definition itemDescription (repo : Repository Change) : string :=
  let text :=
    headLabel repo +:+ (if Nat.eqb (hasChanges repo) 0 then "" else "*") in
  Js.to_string (Js.or (Some text) (Some "")).

Definition repositoryItems (repositories : list (Repository Change))
  (workspaceFolders : option (list WorkspaceFolder.t)) : list Item.t :=
  imap (λ index repo,
          {| Item.index := Some index;
             Item.label := itemLabel workspaceFolders repo;
             Item.description := Some (itemDescription repo);
             Item.detail := None;
             Item.alwaysShow := None;
             Item.placeholder := None |}) repositories.

Definition repositoryPrompt (repositories : list (Repository Change))
  (workspaceFolders : option (list WorkspaceFolder.t))
  : SimpleQuickPickOptions.t :=
  {| SimpleQuickPickOptions.placeholder :=
       Localize.localize nls "extension.sources.promptRepositoryPlaceholder";
     SimpleQuickPickOptions.items := repositoryItems repositories workspaceFolders;
     SimpleQuickPickOptions.matchOnDescription := None;
     SimpleQuickPickOptions.matchOnDetail := None;
     SimpleQuickPickOptions.ignoreFocusOut := None;
     SimpleQuickPickOptions.step := None;
     SimpleQuickPickOptions.totalSteps := None |}.

(** The host after the three diagnostic lines of lines 63-77. *)
Definition logged (repositories : list (Repository Change))
  (arg : option Arg.t) (workspaceFolders : option (list WorkspaceFolder.t))
  (h : Host.t) : Host.t :=
  Host.print
    ("workspaceFolders: "
     +:+ Js.to_string
           (Js.join ", " <$> (map WorkspaceFolder.uri <$> workspaceFolders)))
    (Host.print
       ("git.repositories: " +:+ Js.join ", " (map rootUri repositories))
       (Host.print ("arg: " +:+ Js.to_string (Arg._rootUri <$> arg)) h)).

(** [git.repositories] is the only part of the API that is read.  The
    result is [undefined] ([None]) when the chosen item's index names
    no repository. *)
Definition getRepository (repositories : list (Repository Change))
  (arg : option Arg.t) (workspaceFolders : option (list WorkspaceFolder.t))
  : Async (option (Repository Change)) :=
  _ ← appendLine ("arg: " +:+ Js.to_string (Arg._rootUri <$> arg));
  _ ← appendLine ("git.repositories: "
                  +:+ Js.join ", " (map rootUri repositories));
  _ ← appendLine ("workspaceFolders: "
                  +:+ Js.to_string
                        (Js.join ", " <$> (map WorkspaceFolder.uri <$> workspaceFolders)));
  match explicitTarget arg with
  | Some fsPath =>
      match find (λ r, String.eqb (rootUri r) fsPath) repositories with
      | Some repo => mret (Some repo)
      | None => throw (RepositoryNotFoundError fsPath)
      end
  | None =>
      if Nat.eqb (length repositories) 0 then throw NoRepositoryError
      else if Nat.eqb (length repositories) 1 then mret (repositories !! 0)
      else
        selected ← createSimpleQuickPick
                     (repositoryPrompt repositories workspaceFolders);
        match selected with
        | [] => throw (TypeError "index")
        | item :: _ => mret (Item.index item ≫= λ index, repositories !! index)
        end
  end.

End GetRepository.

End ConventionalCommits.

(** ** Sample data *)

Module Sample.
Import PromptTypes ConventionalCommits.

Definition nls : Localize.NLS :=
  {| Localize.localeNLS := ∅;
     Localize.defaultNLS :=
       <["extension.sources.repositoryNotFoundInPath" := "Repository not found in path: "]>
       (<["extension.sources.repositoriesEmpty" := "Please open a repository."]>
       (<["extension.sources.promptRepositoryPlaceholder" := "Choose a repository."]>
       (<["extension.sources.prompt.fromWorkspaceConfiguration" :=
            "From workspace configuration."]> ∅))) |}.

(** [path.basename] for POSIX paths without a suffix argument: the last
    segment of the path, trailing slashes dropped. *)
Fixpoint lastSegment (found current fsPath : string) : string :=
  match fsPath with
  | EmptyString => if Js.truthy current then current else found
  | String c rest =>
      if Ascii.eqb c "/"
      then lastSegment (if Js.truthy current then current else found) "" rest
      else lastSegment found (current +:+ String c "") rest
  end.

Definition basename (fsPath : string) : string := lastSegment "" "" fsPath.

(** A host whose user answers the choice lists with [picks] and the input
    boxes with [boxes]. *)
Definition user (picks : list PickAnswer) (boxes : list (list InputEvent))
  (settings : gmap string (list string)) : Host.t :=
  {| Host.picks := picks; Host.boxes := boxes; Host.settings := settings;
     Host.shown := []; Host.output := [] |}.

Definition app : Repository () :=
  {| rootUri := "/work/app";
     state := {| HEAD := Some {| Ref.name := Some "main"; Ref.commit := Some "89abcdef01234567" |};
                 workingTreeChanges := [()];
                 mergeChanges := [];
                 indexChanges := [] |} |}.

Definition lib : Repository () :=
  {| rootUri := "/work/lib";
     state := {| HEAD := Some {| Ref.name := None; Ref.commit := Some "0123456789abcdef" |};
                 workingTreeChanges := [];
                 mergeChanges := [];
                 indexChanges := [] |} |}.

Definition folders : list WorkspaceFolder.t :=
  [{| WorkspaceFolder.uri := "/work/app"; WorkspaceFolder.name := "application";
      WorkspaceFolder.index := 0 |}].

Definition target (fsPath : string) : option Arg.t :=
  Some {| Arg._rootUri := fsPath |}.

Definition item (label : string) (placeholder : option string) : Item.t :=
  {| Item.label := label; Item.detail := None; Item.description := None;
     Item.alwaysShow := None; Item.placeholder := placeholder; Item.index := None |}.

Definition newScope : Item.t := item "New scope" (Some "Create a new scope.").
Definition newScopeOnce : Item.t :=
  item "New scope (only use once)" (Some "Create a new scope (only use once).").
Definition none : Item.t := item "None" None.

(** Validation of a subject: it is there. *)
Definition required (value : string) : Completion (option string) :=
  if Js.truthy value then Normal None else Normal (Some "A subject is required.").

Definition scope : ConfigurableQuickPickOptions.t :=
  {| ConfigurableQuickPickOptions.placeholder := Some "Select the scope of this change.";
     ConfigurableQuickPickOptions.format := None;
     ConfigurableQuickPickOptions.step := 2;
     ConfigurableQuickPickOptions.totalSteps := 3;
     ConfigurableQuickPickOptions.configurationKey := "scopes";
     ConfigurableQuickPickOptions.newItem := newScope;
     ConfigurableQuickPickOptions.noneItem := Some none;
     ConfigurableQuickPickOptions.newItemWithoutSetting := newScopeOnce;
     ConfigurableQuickPickOptions.addNoneOption := true;
     ConfigurableQuickPickOptions.validate := None |}.

Definition subject : InputBoxOptions.t :=
  {| InputBoxOptions.placeholder := Some "Write a short description of the change.";
     InputBoxOptions.format := None;
     InputBoxOptions.step := 3;
     InputBoxOptions.totalSteps := 3;
     InputBoxOptions.validate := Some required |}.

Definition type_fix : Item.t := item "fix" None.

Definition type : QuickPickOptions.t :=
  {| QuickPickOptions.placeholder := Some "Select the type of change.";
     QuickPickOptions.items := Some [item "feat" None; item "fix" None];
     QuickPickOptions.format := None;
     QuickPickOptions.step := 1;
     QuickPickOptions.totalSteps := 3;
     QuickPickOptions.noneItem := Some none |}.

(** The second example record of the specification, built footer last and
    built type last. *)
Definition fix_typo : gmap string string :=
  <["footer" := "BREAKING CHANGE: none"]> (<["body" := ""]>
    (<["subject" := "typo"]> (<["scope" := ""]> (<["type" := "fix"]> ∅)))).

(** The example record with a space before the type, and without
    subject. *)
Definition padded_type : gmap string string :=
  <["type" := " feat"]> CommitMessage.feat_api.

Definition no_subject : gmap string string :=
  <["subject" := ""]> CommitMessage.feat_api.

(** A user who does nothing. *)
Definition idle : Host.t := user [] [] ∅.

(** The choice list for two repositories, one of them a workspace folder. *)
Definition prompt : SimpleQuickPickOptions.t :=
  repositoryPrompt nls basename [app; lib] (Some folders).

(** The user picks "New scope" and does [events] in the input. *)
Definition remember (events : list InputEvent) : Outcome string * Host.t :=
  createConfigurableQuickPick nls scope
    (user [Selected [newScope]] [events] {["scopes" := ["core"]]}).

(** The user picks "New scope (only use once)" and enters a scope. *)
Definition once : Outcome string * Host.t :=
  createConfigurableQuickPick nls scope
    (user [Selected [newScopeOnce]] [[DidChangeValue "api"; DidAccept]]
       {["scopes" := ["core"]]}).

(** The user picks "New scope" and enters the label of the other item. *)
Definition twice : Host.t :=
  user [Selected [newScope]]
    [[DidChangeValue "New scope (only use once)"; DidAccept];
     [DidChangeValue "api"; DidAccept]] ∅.

(** A scope called "New scope" is in the settings, and the user picks it. *)
Definition listed : Host.t :=
  user [Selected [configurationItem nls "New scope"]] []
    {["scopes" := ["New scope"]]}.

(** The user types a subject and dismisses the input. *)
Definition dismissedBox : Outcome string * Host.t :=
  createInputBox subject (user [] [[DidChangeValue "fix typo"; DidHide]] ∅).

(** The user remembers a new scope, then dismisses the subject. *)
Definition dismissedSequence : Outcome (gmap string string) * Host.t :=
  Prompts.promptSequence nls
    [CONFIGURABLE_QUICK_PICK "scope" scope; INPUT_BOX "subject" subject] ∅
    (user [Selected [newScope]]
       [[DidChangeValue "api"; DidAccept]; [DidChangeValue "fix typo"; DidHide]] ∅).

(** What the command does with the answers. *)
Definition handOff (answers : gmap string string) : Async string :=
  mret (CommitMessage.serialize answers).

(** The user picks a type, possibly the once-only scope item, and dismisses
    the input that follows. *)
Definition dismissing : Host.t :=
  user [Selected [type_fix]; Selected [newScopeOnce]]
    [[DidChangeValue "fix typo"; DidHide]] {["scopes" := ["core"]]}.

Definition abandoned : Outcome string * Host.t :=
  (Prompts.promptSequence nls
     [QUICK_PICK "type" type; INPUT_BOX "subject" subject] ∅
   ≫= handOff) dismissing.

Definition abandonedNested : Outcome string * Host.t :=
  (Prompts.promptSequence nls
     [QUICK_PICK "type" type; CONFIGURABLE_QUICK_PICK "scope" scope;
      INPUT_BOX "subject" subject] ∅
   ≫= handOff) dismissing.

End Sample.


(** ** Observations on the prompts *)

Module Observations.
Import PromptTypes ConventionalCommits.

(** The value in the box after the user has typed [values] one after the
    other. *)
Definition typed (input : InputBox.t) (values : list string) : string :=
  default (InputBox.value input) (last values).

(** The three diagnostic lines of [getRepository], lines 63-77. *)
Definition diagnostics {Change : Type} (repositories : list (Repository Change))
  (arg : option Arg.t) (workspaceFolders : option (list WorkspaceFolder.t))
  : list string :=
  ["arg: " +:+ Js.to_string (Arg._rootUri <$> arg);
   "git.repositories: " +:+ Js.join ", " (map rootUri repositories);
   "workspaceFolders: "
   +:+ Js.to_string (Js.join ", " <$> (map WorkspaceFolder.uri <$> workspaceFolders))].

End Observations.

(** ** src/lib/localize.ts: initialization *)

Module LocalizeModule.

Definition DEFAULT_LOCALE : string := "en".

(** The two files [getNLS] requires: [package.nls.json] and
    [package.nls.zh-cn.json]. *)
Record Package := {
  package_nls : gmap string string;
  package_nls_zh_cn : gmap string string
}.

(** The variables of the module: [locale] and the two tables. *)
Record t := {
  locale : string;
  tables : Localize.NLS
}.

(** The variables as they are declared, before [initialize]. *)
Definition declared : t :=
  {| locale := DEFAULT_LOCALE;
     tables := {| Localize.localeNLS := ∅; Localize.defaultNLS := ∅ |} |}.

(** [getNLS(locale = '')] *)
Definition getNLS (package : Package) (locale : string) : gmap string string :=
  if String.eqb locale "zh-cn" then package_nls_zh_cn package
  else package_nls package.

(** [getLocale()], with [vscode.env.language] as argument. *)
Definition getLocale (language : string) : Async string :=
  _ ← appendLine ("vscode.env.language: " +:+ language);
  mret (if Js.truthy language then language else DEFAULT_LOCALE).

Definition initialize (package : Package) (language : string) : Async t :=
  let defaultNLS := getNLS package "" in
  locale ← getLocale language;
  let localeNLS := getNLS package locale in
  mret {| locale := locale;
          tables := {| Localize.localeNLS := localeNLS;
                       Localize.defaultNLS := defaultNLS |} |}.

(** The members every table inherits from [Object.prototype]: the tables
    are plain objects (parsed JSON, or [{}] before [initialize]), so
    [table[key]] for one of these keys, when the table has no text of its
    own under it, is the inherited member. *)
Definition Object_prototype : list string :=
  ["constructor"; "hasOwnProperty"; "isPrototypeOf"; "propertyIsEnumerable";
   "toLocaleString"; "toString"; "valueOf"; "__proto__"; "__defineGetter__";
   "__defineSetter__"; "__lookupGetter__"; "__lookupSetter__"].

(** What [table[key]] evaluates to: a text of the table, a member of the
    prototype, or [undefined]. *)
Inductive Member : Type :=
| Text (text : string)
| Inherited (key : string)
| Undefined.

(** [table[key]]: the table's own text first, then the prototype. *)
Definition get (table : gmap string string) (key : string) : Member :=
  match table !! key with
  | Some text => Text text
  | None =>
      if bool_decide (key ∈ Object_prototype) then Inherited key else Undefined
  end.

(** Truthiness: a text when it is non-empty; an inherited member always
    (a function, or the prototype object for [__proto__]). *)
Definition truthy (member : Member) : bool :=
  match member with
  | Text text => Js.truthy text
  | Inherited _ => true
  | Undefined => false
  end.

(** [localize(key)]: [localeNLS[key] || defaultNLS[key]], for every key. *)
Definition localize (tables : Localize.NLS) (key : string) : Member :=
  let text := get (Localize.localeNLS tables) key in
  if truthy text then text else get (Localize.defaultNLS tables) key.

(** A [string | undefined] as a member. *)
Definition of_text (text : option string) : Member :=
  match text with
  | Some text => Text text
  | None => Undefined
  end.

End LocalizeModule.

(** ** src/unnamed/part_000: the earlier prompt types *)

Module Legacy.

Module Item.
Record t := {
  label : string;
  detail : string;
  description : string
}.
End Item.

Inductive PROMPT_TYPES : Type :=
| QUICK_PICK
| INPUT_BOX.

Module Prompt.
Record t := {
  type : PROMPT_TYPES;
  name : string;
  placeholder : string;
  items : option (list Item.t);
  format : option (string → Completion string)
}.
End Prompt.

(** What the host user does to a quick pick: accept with the items then
    selected, or dismiss it. *)
Inductive PickerEvent : Type :=
| PickerDidAccept (selectedItems : list Item.t)
| PickerDidHide.

Definition format_or_default (p : Prompt.t) : string → Completion string :=
  default (λ i, Normal i) (Prompt.format p).

(** The [onDidAccept] handler of [createQuickPick], up to [resolve]:
    [format(picker.selectedItems[0].label)]. *)
Definition pickerDidAccept (p : Prompt.t) (selectedItems : list Item.t)
  : Completion string :=
  match selectedItems with
  | [] => Throw (TypeError "label")
  | first :: _ => format_or_default p (Item.label first)
  end.

(** The promise of [createQuickPick] after the user's events.  No handler
    has a [try], and [reject] is never called: a handler that throws
    leaves the promise and the picker as they are. *)
Fixpoint createQuickPick (p : Prompt.t) (events : list PickerEvent)
  : Outcome string :=
  match events with
  | [] => Pending
  | PickerDidHide :: _ => Pending
  | PickerDidAccept selectedItems :: events =>
      match pickerDidAccept p selectedItems with
      | Normal result => Resolved result
      | Throw _ => createQuickPick p events
      end
  end.

(** The promise of [createInputBox] after the user's events on a box that
    holds [value]. *)
Fixpoint inputBoxEvents (p : Prompt.t) (value : string)
  (events : list InputEvent) : Outcome string :=
  match events with
  | [] => Pending
  | DidHide :: _ => Pending
  | DidChangeValue value :: events => inputBoxEvents p value events
  | DidAccept :: events =>
      match format_or_default p value with
      | Normal result => Resolved result
      | Throw _ => inputBoxEvents p value events
      end
  end.

Definition createInputBox (p : Prompt.t) (events : list InputEvent)
  : Outcome string :=
  inputBoxEvents p "" events.

End Legacy.

(** ** src/lib/conventional-commits.ts: the command *)

Module Command.
Import ConventionalCommits.

(** How an awaited [vscode.commands.executeCommand] settles. *)
Inductive CommandAnswer : Type :=
| Done
| CommandFailed (what : string)
| NotDone.

(** What the command does to the window beside its prompts: the error
    messages shown, the commands executed (with the root of the repository
    passed, if any), the value of each repository's input box (by root) and
    the repositories whose message was opened in a tab. *)
Module Window.
Record t := {
  ui : Host.t;
  errorMessages : list string;
  commands : list (string * option string);
  inputBox : gmap string string;
  tabs : list string
}.

Definition with_ui (h : Host.t) (w : t) : t :=
  {| ui := h; errorMessages := errorMessages w; commands := commands w;
     inputBox := inputBox w; tabs := tabs w |}.

Definition showErrorMessage (text : string) (w : t) : t :=
  {| ui := ui w; errorMessages := errorMessages w ++ [text];
     commands := commands w; inputBox := inputBox w; tabs := tabs w |}.

Definition executeCommand (id : string) (repository : option string) (w : t) : t :=
  {| ui := ui w; errorMessages := errorMessages w;
     commands := commands w ++ [(id, repository)];
     inputBox := inputBox w; tabs := tabs w |}.

Definition setInputBox (repository : string) (value : string) (w : t) : t :=
  {| ui := ui w; errorMessages := errorMessages w; commands := commands w;
     inputBox := <[repository := value]> (inputBox w); tabs := tabs w |}.

Definition openTab (repository : string) (w : t) : t :=
  {| ui := ui w; errorMessages := errorMessages w; commands := commands w;
     inputBox := inputBox w; tabs := tabs w ++ [repository] |}.
End Window.

(** A computation of the command. *)
Definition Run (A : Type) : Type := Window.t → Outcome A * Window.t.

#[global] Instance Run_ret : MRet Run := λ A a w, (Resolved a, w).

#[global] Instance Run_bind : MBind Run := λ A B k m w,
  match m w with
  | (Resolved a, w') => k a w'
  | (Rejected e, w') => (Rejected e, w')
  | (Pending, w') => (Pending, w')
  end.

Definition raise {A : Type} (e : Error) : Run A := λ w, (Rejected e, w).

(** A prompt-level computation run in the window. *)
Definition lift {A : Type} (m : Async A) : Run A :=
  λ w, let (result, h) := m (Window.ui w) in (result, Window.with_ui h w).

(** [try { body } catch (e) { handler }] *)
Definition tryCatch {A : Type} (body : Run A) (handler : Error → Run A) : Run A :=
  λ w,
    match body w with
    | (Rejected e, w') => handler e w'
    | settled => settled
    end.

(** [vscode.window.showErrorMessage(text)], not awaited. *)
Definition showErrorMessage (text : string) : Run () :=
  λ w, (Resolved (), Window.showErrorMessage text w).

(** [vscode.commands.executeCommand(id, repository)], not awaited. *)
Definition executeCommand (id : string) (repository : option string) : Run () :=
  λ w, (Resolved (), Window.executeCommand id repository w).

(** [await vscode.commands.executeCommand(id, repository)] *)
Definition awaitCommand (id : string) (repository : option string)
  (answer : CommandAnswer) : Run () :=
  λ w,
    let w := Window.executeCommand id repository w in
    match answer with
    | Done => (Resolved (), w)
    | CommandFailed what => (Rejected (Thrown what), w)
    | NotDone => (Pending, w)
    end.

(** [repository.inputBox.value = value] *)
Definition setInputBox (repository : string) (value : string) : Run () :=
  λ w, (Resolved (), Window.setInputBox repository value w).

(** [repository.inputBox.value] *)
Definition getInputBox (repository : string) : Run (option string) :=
  λ w, (Resolved (Window.inputBox w !! repository), w).

(** Modelled from the spec: [openMessageInTab] of src/lib/editor (not among
    the sources), which shows the message "in a dedicated read-only view";
    the call is recorded. *)
Definition openMessageInTab (repository : string) : Run () :=
  λ w, (Resolved (), Window.openTab repository w).

(** The text of a boolean in a template literal. *)
Definition of_bool (b : bool) : string := if b then "true" else "false".

(** The argument of [prompts]. *)
Module PromptsOptions.
Record t := {
  gitmoji : bool;
  showEditor : bool;
  emojiFormat : string;
  lineBreak : string;
  promptScopes : bool
}.
End PromptsOptions.

Section Command.
Context {Change Rules CommitMessage : Type}.
Variable nls : Localize.NLS.
(** [path.basename] of the Node library. *)
Variable basename : string → string.
(** [commitlint.loadRuleConfigs], [prompts] and [serialize], whose modules
    are not among the sources, and the texts of [JSON.stringify(_, null, 2)]
    and of [e.stack]. *)
Variable loadRuleConfigs : string → Async Rules.
Variable prompts : PromptsOptions.t → Async CommitMessage.
Variable serialize : CommitMessage → string.
Variable stringifyRules : Rules → string.
Variable stringifyMessage : CommitMessage → string.
Variable stack : Error → string.
(** The engine's wording of "cannot read property ... of undefined". *)
Variable typeErrorText : string → string.

(** What the command reads of the editor: its version, the installed
    extensions with their [packageJSON.version], the repositories of the
    git extension's API, the workspace folders, the extension's settings
    (the string lists are in the host), the settings of other extensions,
    and how the [git.commit] command settles. *)
Record Environment := {
  version : string;
  extensions : gmap string (option string);
  repositories : list (Repository Change);
  workspaceFolders : option (list WorkspaceFolder.t);
  autoCommit : bool;
  gitmoji : bool;
  emojiFormat : string;
  lineBreak : string;
  promptScopes : bool;
  showEditor : bool;
  related : gmap string string;
  commit : CommandAnswer
}.

Variable env : Environment.

(** [e.message].  An [Error] made of [undefined] has the empty message. *)
Definition messageOf (e : Error) : string :=
  match e with
  | RepositoryNotFoundError fsPath =>
      Js.to_string
        (Localize.localize nls "extension.sources.repositoryNotFoundInPath")
      +:+ fsPath
  | NoRepositoryError =>
      default "" (Localize.localize nls "extension.sources.repositoriesEmpty")
  | TypeError property => typeErrorText property
  | Thrown what => what
  end.

(** [new Error(localize('extension.sources.vscodeGitNotFound'))] *)
Definition vscodeGitNotFound : Error :=
  Thrown (default "" (Localize.localize nls "extension.sources.vscodeGitNotFound")).

(** [getGitAPI()]: the repositories of the API, when the git extension is
    there. *)
Definition getGitAPI : option (list (Repository Change)) :=
  match extensions env !! "vscode.git" with
  | Some _ => Some (repositories env)
  | None => None
  end.

Definition outputExtensionVersion (name key : string) : Run () :=
  lift (appendLine (name +:+ " version: "
                    +:+ Js.to_string (mjoin (extensions env !! key)))).

(** [outputConfiguration(key)], by the type of the setting. *)
Definition outputConfiguration_bool (key : string) (value : bool) : Run () :=
  lift (appendLine (key +:+ ": " +:+ of_bool value)).

Definition outputConfiguration_string (key : string) (value : string) : Run () :=
  lift (appendLine (key +:+ ": " +:+ value)).

Definition outputConfiguration_list (key : string) : Run () :=
  lift (value ← configuration_get key;
        appendLine (key +:+ ": " +:+ Js.join "," value)).

Definition outputRelatedExtensionConfiguration (key : string) : Run () :=
  lift (appendLine (key +:+ ": " +:+ Js.to_string (related env !! key))).

(** Step 1, lines 125-145. *)
Definition outputBasicInformation : Run () :=
  _ ← lift (appendLine "Started");
  _ ← lift (appendLine ("VSCode version: " +:+ version env));
  _ ← outputExtensionVersion "VSCode Conventional Commits"
        "vivaxy.vscode-conventional-commits";
  _ ← outputExtensionVersion "Git" "vscode.git";
  _ ← outputConfiguration_bool "autoCommit" (autoCommit env);
  _ ← outputConfiguration_bool "gitmoji" (gitmoji env);
  _ ← outputConfiguration_string "emojiFormat" (emojiFormat env);
  _ ← outputConfiguration_list "scopes";
  _ ← outputConfiguration_string "lineBreak" (lineBreak env);
  _ ← outputConfiguration_bool "promptScopes" (promptScopes env);
  _ ← outputRelatedExtensionConfiguration "git.enableSmartCommit";
  _ ← outputRelatedExtensionConfiguration "git.smartCommitChanges";
  outputRelatedExtensionConfiguration "git.postCommitCommand".

(** Step 6, lines 189-199. *)
Definition handOff (repository : Repository Change) (message : string) : Run () :=
  if showEditor env then
    _ ← setInputBox (rootUri repository) message;
    _ ← openMessageInTab (rootUri repository);
    lift (appendLine "show full commit message in a separate tab")
  else
    _ ← executeCommand "workbench.view.scm" None;
    _ ← setInputBox (rootUri repository) message;
    value ← getInputBox (rootUri repository);
    lift (appendLine ("inputBox.value: " +:+ Js.to_string value)).

(** Step 7, lines 202-206. *)
Definition autoCommitStep (repository : Repository Change) : Run () :=
  if autoCommit env && negb (showEditor env) then
    _ ← awaitCommand "git.commit" (Some (rootUri repository)) (commit env);
    lift (appendLine "Finished successfully.")
  else mret ().

(** The rest of step 5 and steps 6 and 7, on the answers of [prompts]. *)
Definition finish (repository : Repository Change) (commitMessage : CommitMessage)
  : Run () :=
  _ ← lift (appendLine ("commitMessage: " +:+ stringifyMessage commitMessage));
  let message := serialize commitMessage in
  _ ← lift (appendLine ("message: " +:+ message));
  _ ← handOff repository message;
  autoCommitStep repository.

(** Steps 4 to 7, on the repository of step 3. *)
Definition commitTo (repository : option (Repository Change)) : Run () :=
  match repository with
  | None => raise (TypeError "rootUri")
  | Some repository =>
      commitlintRuleConfigs ← lift (loadRuleConfigs (rootUri repository));
      _ ← lift (appendLine ("commitlintRuleConfigs: "
                            +:+ stringifyRules commitlintRuleConfigs));
      commitMessage ← lift (prompts
        {| PromptsOptions.gitmoji := gitmoji env;
           PromptsOptions.showEditor := showEditor env;
           PromptsOptions.emojiFormat := emojiFormat env;
           PromptsOptions.lineBreak := lineBreak env;
           PromptsOptions.promptScopes := promptScopes env |});
      finish repository commitMessage
  end.

(** The prompt host after step 1. *)
Definition informed (w : Window.t) : Host.t :=
  Window.ui (snd (outputBasicInformation w)).

(** The body of the [try], lines 125-206. *)
Definition body (arg : option Arg.t) : Run () :=
  _ ← outputBasicInformation;
  match getGitAPI with
  | None => raise vscodeGitNotFound
  | Some git =>
      repository ← lift (getRepository nls basename git arg (workspaceFolders env));
      commitTo repository
  end.

(** The [catch], lines 207-212. *)
Definition report (e : Error) : Run () :=
  _ ← lift (appendLine ("Finished with an error: " +:+ stack e));
  showErrorMessage
    (Js.to_string (Localize.localize nls "extension.name") +:+ ": " +:+ messageOf e).

Definition conventionalCommits (arg : option Arg.t) : Run () :=
  tryCatch (body arg) report.

(** The window apart from the prompt host is as it was: nothing was shown
    as an error, executed, handed off or opened. *)
Definition untouched (w w' : Window.t) : Prop :=
  Window.inputBox w' = Window.inputBox w
  ∧ Window.tabs w' = Window.tabs w
  ∧ Window.commands w' = Window.commands w
  ∧ Window.errorMessages w' = Window.errorMessages w.

(** The message of [commitMessage] was handed to [repo]. *)
Definition handedOff (repo : Repository Change) (commitMessage : CommitMessage)
  (w w' : Window.t) : Prop :=
  Window.inputBox w' = <[rootUri repo := serialize commitMessage]> (Window.inputBox w)
  ∧ Window.tabs w' = Window.tabs w ++ (if showEditor env then [rootUri repo] else [])
  ∧ Window.commands w'
    = Window.commands w
      ++ (if showEditor env then []
          else ("workbench.view.scm", None)
               :: (if autoCommit env then [("git.commit", Some (rootUri repo))] else []))
  ∧ Window.errorMessages w' = Window.errorMessages w.

End Command.

End Command.

(** ** Further sample data *)

Module Demo.
Import PromptTypes ConventionalCommits Command.

(** Two tables; the second has no text for the empty-repositories
    message. *)
Definition package : LocalizeModule.Package :=
  {| LocalizeModule.package_nls :=
       <["extension.name" := "Conventional Commits"]>
       (<["extension.sources.repositoriesEmpty" := "Please open a repository."]>
       (<["extension.sources.vscodeGitNotFound" := "vscode.git is not enabled."]> ∅));
     LocalizeModule.package_nls_zh_cn :=
       <["extension.name" := "Conventional Commits (zh-cn)"]>
       (<["extension.sources.repositoriesEmpty" := ""]> ∅) |}.

Definition tablesOf (locale : string) : LocalizeModule.t :=
  {| LocalizeModule.locale := locale;
     LocalizeModule.tables :=
       {| Localize.localeNLS := LocalizeModule.getNLS package locale;
          Localize.defaultNLS := LocalizeModule.package_nls package |} |}.

Definition nls : Localize.NLS := LocalizeModule.tables (tablesOf "en").

(** A validation that throws on one value, and a formatter that always
    throws. *)
Definition fragile (value : string) : Completion (option string) :=
  if String.eqb value "boom" then Throw (Thrown "validation failed")
  else Normal None.

Definition refuse (value : string) : Completion string :=
  Throw (Thrown "format failed").

Definition bracket (value : string) : Completion string :=
  Normal ("[" +:+ value +:+ "]").

Definition input (format : option (string → Completion string))
  (validate : option (string → Completion (option string))) : InputBoxOptions.t :=
  {| InputBoxOptions.placeholder := Some "Write a short description of the change.";
     InputBoxOptions.format := format;
     InputBoxOptions.step := 3;
     InputBoxOptions.totalSteps := 3;
     InputBoxOptions.validate := validate |}.

Definition legacy (format : option (string → Completion string)) : Legacy.Prompt.t :=
  {| Legacy.Prompt.type := Legacy.INPUT_BOX;
     Legacy.Prompt.name := "subject";
     Legacy.Prompt.placeholder := "Write a short description of the change.";
     Legacy.Prompt.items := None;
     Legacy.Prompt.format := format |}.

(** The sample scope step with a formatter. *)
Definition scope : ConfigurableQuickPickOptions.t :=
  {| ConfigurableQuickPickOptions.placeholder := Some "Select the scope of this change.";
     ConfigurableQuickPickOptions.format := Some bracket;
     ConfigurableQuickPickOptions.step := 2;
     ConfigurableQuickPickOptions.totalSteps := 3;
     ConfigurableQuickPickOptions.configurationKey := "scopes";
     ConfigurableQuickPickOptions.newItem := Sample.newScope;
     ConfigurableQuickPickOptions.noneItem := Some Sample.none;
     ConfigurableQuickPickOptions.newItemWithoutSetting := Sample.newScopeOnce;
     ConfigurableQuickPickOptions.addNoneOption := true;
     ConfigurableQuickPickOptions.validate := None |}.

(** The second item of the sample choice of repositories. *)
Definition libItem : Item.t :=
  {| Item.label := "lib"; Item.detail := None; Item.description := Some "01234567";
     Item.alwaysShow := None; Item.placeholder := None; Item.index := Some 1 |}.

(** An editor with or without the git extension, one repository, and the
    given settings. *)
Definition editor (git : bool) (repositories : list (Repository ()))
  (autoCommit showEditor : bool) (commit : CommandAnswer) : @Environment () :=
  {| version := "1.50.0";
     extensions :=
       if git then <["vscode.git" := Some "1.0.0"]> ∅ else ∅;
     repositories := repositories;
     workspaceFolders := None;
     autoCommit := autoCommit;
     gitmoji := false;
     emojiFormat := "code";
     lineBreak := "\n";
     promptScopes := false;
     showEditor := showEditor;
     related := ∅;
     commit := commit |}.

(** The collaborators of the command: no lint rules, a type and a subject
    asked, the serializer of the specification. *)
Definition loadRuleConfigs (fsPath : string) : Async () := mret ().

Definition prompts (options : PromptsOptions.t) : Async (gmap string string) :=
  Prompts.promptSequence nls
    [QUICK_PICK "type" Sample.type; INPUT_BOX "subject" Sample.subject] ∅.

Definition run (env : @Environment ()) (arg : option Arg.t) : Run () :=
  conventionalCommits nls Sample.basename loadRuleConfigs prompts
    CommitMessage.serialize (λ _, "{}") (λ _, "{}") (λ _, "Error")
    (λ property, "Cannot read property '" +:+ property +:+ "' of undefined")
    env arg.

(** A window whose user picks "fix" and writes "typo". *)
Definition window : Window.t :=
  {| Window.ui :=
       Sample.user [Selected [Sample.type_fix]] [[DidChangeValue "typo"; DidAccept]] ∅;
     Window.errorMessages := [];
     Window.commands := [];
     Window.inputBox := ∅;
     Window.tabs := [] |}.

(** The prompt host once the repository is chosen, the answers of the
    user, and the prompt host once they are given. *)
Definition resolved : Host.t :=
  snd (getRepository nls Sample.basename [Sample.app] None None
         (informed (editor true [Sample.app] true false Done) window)).

Definition answers : gmap string string :=
  <["subject" := "typo"]> (<["type" := "fix"]> ∅).

Definition prompted : Host.t :=
  snd (prompts
         {| PromptsOptions.gitmoji := false;
            PromptsOptions.showEditor := false;
            PromptsOptions.emojiFormat := "code";
            PromptsOptions.lineBreak := "\n";
            PromptsOptions.promptScopes := false |}
         (Host.print "commitlintRuleConfigs: {}" resolved)).

End Demo.


(** * Properties *)

(** ** JavaScript strings *)

Lemma truthy_true (s : string) : Js.truthy s = true ↔ s ≠ "".
Proof.
  unfold Js.truthy. destruct (String.eqb_spec s ""); simpl; split; done.
Qed.

Lemma truthy_false (s : string) : Js.truthy s = false ↔ s = "".
Proof.
  unfold Js.truthy. destruct (String.eqb_spec s ""); simpl; split; done.
Qed.

Lemma append_empty_r (s : string) : s +:+ "" = s.
Proof.
  induction s as [|c s IH]; [done|].
  change (String c (s +:+ "") = String c s). by rewrite IH.
Qed.

(** ** Repository resolution *)

Module Resolution.
Import ConventionalCommits.
Section Resolution.
Context {Change : Type}.
Variable nls : Localize.NLS.
Variable basename : string → string.
Implicit Types (repositories : list (Repository Change)) (repo : Repository Change)
  (arg : option Arg.t) (workspaceFolders : option (list WorkspaceFolder.t)) (h : Host.t).

Lemma find_none_iff (p : string) repositories :
  find (λ r, String.eqb (rootUri r) p) repositories = None
  ↔ ∀ repo, repo ∈ repositories → rootUri repo ≠ p.
Proof.
  induction repositories as [|r rs IH]; simpl.
  - split; [intros _ repo Hin; inversion Hin | done].
  - destruct (String.eqb_spec (rootUri r) p) as [Heq|Hne].
    + split; [done|]. intros H. exfalso. apply (H r); [left | done].
    + rewrite IH. split.
      * intros H repo Hin. inversion Hin; subst; auto.
      * intros H repo Hin. apply H. by right.
Qed.

Lemma find_some_first (p : string) repositories repo :
  find (λ r, String.eqb (rootUri r) p) repositories = Some repo →
  repo ∈ repositories ∧ rootUri repo = p.
Proof.
  intros H. apply find_some in H as [Hin Heq].
  split; [by apply list_elem_of_In | by apply String.eqb_eq].
Qed.

Lemma getRepository_explicit repositories arg workspaceFolders h fsPath :
  explicitTarget arg = Some fsPath →
  getRepository nls basename repositories arg workspaceFolders h
  = match find (λ r, String.eqb (rootUri r) fsPath) repositories with
    | Some repo => (Resolved (Some repo), logged repositories arg workspaceFolders h)
    | None => (Rejected (RepositoryNotFoundError fsPath),
               logged repositories arg workspaceFolders h)
    end.
Proof.
  intros H. unfold getRepository, mbind, Async_bind, appendLine. simpl.
  rewrite H. fold (logged repositories arg workspaceFolders h).
  by destruct (find _ repositories).
Qed.

Lemma getRepository_implicit repositories arg workspaceFolders h :
  explicitTarget arg = None →
  getRepository nls basename repositories arg workspaceFolders h
  = match repositories with
    | [] => (Rejected NoRepositoryError, logged repositories arg workspaceFolders h)
    | [repo] => (Resolved (Some repo), logged repositories arg workspaceFolders h)
    | _ =>
        (selected ← createSimpleQuickPick
                      (repositoryPrompt nls basename repositories workspaceFolders);
         match selected with
         | [] => throw (TypeError "index")
         | item :: _ => mret (Item.index item ≫= λ index, repositories !! index)
         end) (logged repositories arg workspaceFolders h)
    end.
Proof.
  intros H. unfold getRepository, mbind at 1 2 3, Async_bind at 1 2 3, appendLine. simpl.
  rewrite H. fold (logged repositories arg workspaceFolders h).
  by destruct repositories as [|r [|r' rs]].
Qed.

Lemma hasChanges_pending repo : hasChanges repo ≠ 0 ↔ pendingChanges repo.
Proof.
  unfold hasChanges, pendingChanges, Js.or_num.
  destruct (workingTreeChanges (state repo)), (mergeChanges (state repo)),
    (indexChanges (state repo)); simpl; split; intros H; try done;
    try (by left); try (by right; left); try (by right; right);
    by destruct H as [?|[?|?]].
Qed.

Lemma explicitTarget_truthy arg fsPath :
  explicitTarget arg = Some fsPath → fsPath ≠ "".
Proof.
  destruct arg as [a|]; simpl; [|done].
  destruct (Js.truthy (Arg._rootUri a)) eqn:E; [|done].
  intros [= <-]. by apply truthy_true.
Qed.

(** C1 (amended): repository resolution.  With no explicit target and no
    candidate the call fails with [NoRepositoryError]; with an explicit
    target that a candidate matches it resolves with the first candidate
    at that path; with an explicit target that no candidate matches it
    fails with [RepositoryNotFoundError]; with exactly one candidate and
    no explicit target it resolves with that candidate and shows no
    widget. *)
Theorem getRepository_policy repositories arg workspaceFolders h :
  let run := getRepository nls basename repositories arg workspaceFolders h in
  (explicitTarget arg = None → repositories = [] →
     outcome run = Rejected NoRepositoryError)
  ∧ (∀ fsPath repo,
       explicitTarget arg = Some fsPath →
       repo ∈ repositories → rootUri repo = fsPath →
       ∃ found, find (λ r, String.eqb (rootUri r) fsPath) repositories = Some found
                ∧ found ∈ repositories ∧ rootUri found = fsPath
                ∧ outcome run = Resolved (Some found))
  ∧ (∀ fsPath,
       explicitTarget arg = Some fsPath →
       (∀ repo, repo ∈ repositories → rootUri repo ≠ fsPath) →
       outcome run = Rejected (RepositoryNotFoundError fsPath))
  ∧ (∀ repo,
       explicitTarget arg = None → repositories = [repo] →
       outcome run = Resolved (Some repo)
       ∧ Host.shown (host run) = Host.shown h
       ∧ Host.picks (host run) = Host.picks h).
Proof.
  intros run. subst run. repeat split.
  - intros Harg ->. by rewrite getRepository_implicit.
  - intros fsPath repo Harg Hin Hpath.
    rewrite (getRepository_explicit _ _ _ _ fsPath Harg).
    destruct (find _ repositories) as [found|] eqn:Hfind.
    + exists found. destruct (find_some_first _ _ _ Hfind). done.
    + exfalso. by eapply find_none_iff.
  - intros fsPath Harg Hnone.
    rewrite (getRepository_explicit _ _ _ _ fsPath Harg).
    apply find_none_iff in Hnone. by rewrite Hnone.
  - subst. by rewrite getRepository_implicit.
  - subst. by rewrite getRepository_implicit.
  - subst. by rewrite getRepository_implicit.
Qed.

(** C9: the explicit-target check comes before the candidate-count
    checks.  With an explicit target that no candidate matches the
    failure is [RepositoryNotFoundError], also when the candidate list is
    empty; a failure with [NoRepositoryError] only happens without an
    explicit target (and with no candidate). *)
Theorem explicit_target_precedes_count repositories arg workspaceFolders h :
  (∀ fsPath,
     explicitTarget arg = Some fsPath →
     (∀ repo, repo ∈ repositories → rootUri repo ≠ fsPath) →
     outcome (getRepository nls basename repositories arg workspaceFolders h)
     = Rejected (RepositoryNotFoundError fsPath))
  ∧ (∀ fsPath,
       explicitTarget arg = Some fsPath →
       outcome (getRepository nls basename (@nil (Repository Change)) arg
                  workspaceFolders h)
       = Rejected (RepositoryNotFoundError fsPath))
  ∧ (outcome (getRepository nls basename repositories arg workspaceFolders h)
     = Rejected NoRepositoryError →
     explicitTarget arg = None ∧ repositories = []).
Proof.
  split; [|split].
  - intros fsPath Harg Hnone.
    rewrite (getRepository_explicit _ _ _ _ fsPath Harg).
    apply find_none_iff in Hnone. by rewrite Hnone.
  - intros fsPath Harg. by rewrite (getRepository_explicit _ _ _ _ fsPath Harg).
  - unfold outcome.
    destruct (explicitTarget arg) as [fsPath|] eqn:Harg.
    + rewrite (getRepository_explicit _ _ _ _ fsPath Harg).
      by destruct (find _ repositories).
    + rewrite (getRepository_implicit _ _ _ _ Harg).
      destruct repositories as [|r [|r' rs]]; [done|done|].
      unfold mbind, Async_bind, createSimpleQuickPick. simpl.
      by destruct (Host.picks h) as [|[[|item items]|what|] rest].
Qed.

Lemma headLabel_name repo ref name :
  HEAD (state repo) = Some ref → Ref.name ref = Some name → name ≠ "" →
  headLabel repo = name.
Proof.
  intros HH Hn Hne. unfold headLabel. rewrite HH. simpl. rewrite Hn.
  unfold Js.or at 2. simpl. apply truthy_true in Hne. rewrite Hne.
  unfold Js.or. simpl. by rewrite Hne.
Qed.

Lemma slice0_empty n (s : string) : s ≠ "" → Js.slice0 (S n) s ≠ "".
Proof. destruct s; [done|]. intros _. done. Qed.

Lemma headLabel_commit repo ref commit :
  HEAD (state repo) = Some ref →
  Ref.name ref = None ∨ Ref.name ref = Some "" →
  Ref.commit ref = Some commit →
  headLabel repo = Js.slice0 8 commit.
Proof.
  intros HH Hn Hc. unfold headLabel. rewrite HH. simpl. rewrite Hc.
  destruct commit as [|c cs].
  - by destruct Hn as [-> | ->].
  - by destruct Hn as [-> | ->].
Qed.

Lemma headLabel_none repo :
  (HEAD (state repo) = None
   ∨ ∃ ref, HEAD (state repo) = Some ref
            ∧ (Ref.name ref = None ∨ Ref.name ref = Some "")
            ∧ Ref.commit ref = None) →
  headLabel repo = "".
Proof.
  unfold headLabel. intros [-> | (ref & -> & Hn & Hc)]; [done|].
  simpl. rewrite Hc. by destruct Hn as [-> | ->].
Qed.

Lemma itemDescription_eq repo :
  itemDescription repo
  = headLabel repo +:+ (if Nat.eqb (hasChanges repo) 0 then "" else "*").
Proof.
  unfold itemDescription, Js.or. simpl.
  destruct (Js.truthy _) eqn:E; [done|].
  apply truthy_false in E. by rewrite E.
Qed.

Lemma itemLabel_folder workspaceFolders repo folder :
  workspaceFolders
    ≫= find (λ f, String.eqb (WorkspaceFolder.uri f) (rootUri repo)) = Some folder →
  WorkspaceFolder.name folder ≠ "" →
  itemLabel basename workspaceFolders repo = WorkspaceFolder.name folder.
Proof.
  intros Hf Hne. unfold itemLabel. rewrite Hf. simpl.
  unfold Js.or. simpl. apply truthy_true in Hne. by rewrite Hne.
Qed.

Lemma itemLabel_basename workspaceFolders repo :
  (workspaceFolders
     ≫= find (λ f, String.eqb (WorkspaceFolder.uri f) (rootUri repo)) = None
   ∨ ∃ folder,
       workspaceFolders
         ≫= find (λ f, String.eqb (WorkspaceFolder.uri f) (rootUri repo)) = Some folder
       ∧ WorkspaceFolder.name folder = "") →
  itemLabel basename workspaceFolders repo = basename (rootUri repo).
Proof.
  unfold itemLabel. intros [-> | (folder & -> & Hn)]; [done|].
  simpl. by rewrite Hn.
Qed.

(** C7: with more than one candidate and no explicit target a choice
    list is shown with exactly one item per candidate, in order.  Item
    [i] carries index [i]; its label is the name of the workspace folder
    at the repository's root, or the basename of the root when no folder
    matches (or the folder has no name); its description is the HEAD branch name, or else the first
    eight characters of the HEAD commit, followed by a star exactly when
    the repository has pending working-tree, merge or index changes. *)
Theorem repository_prompt_items repositories arg workspaceFolders h :
  explicitTarget arg = None →
  1 < length repositories →
  let prompt := repositoryPrompt nls basename repositories workspaceFolders in
  Host.shown (host (getRepository nls basename repositories arg workspaceFolders h))
  = Host.shown h ++ [QuickPickShown prompt]
  ∧ length (SimpleQuickPickOptions.items prompt) = length repositories
  ∧ ∀ i repo,
      repositories !! i = Some repo →
      ∃ item,
        SimpleQuickPickOptions.items prompt !! i = Some item
        ∧ Item.index item = Some i
        ∧ (∀ folder,
             workspaceFolders
               ≫= find (λ f, String.eqb (WorkspaceFolder.uri f) (rootUri repo))
             = Some folder →
             WorkspaceFolder.name folder ≠ "" →
             Item.label item = WorkspaceFolder.name folder)
        ∧ (workspaceFolders
             ≫= find (λ f, String.eqb (WorkspaceFolder.uri f) (rootUri repo))
           = None →
           Item.label item = basename (rootUri repo))
        ∧ (∀ folder,
             workspaceFolders
               ≫= find (λ f, String.eqb (WorkspaceFolder.uri f) (rootUri repo))
             = Some folder →
             WorkspaceFolder.name folder = "" →
             Item.label item = basename (rootUri repo))
        ∧ ∃ head,
            (pendingChanges repo → Item.description item = Some (head +:+ "*"))
            ∧ (¬ pendingChanges repo → Item.description item = Some head)
            ∧ (∀ ref name,
                 HEAD (state repo) = Some ref → Ref.name ref = Some name →
                 name ≠ "" → head = name)
            ∧ (∀ ref commit,
                 HEAD (state repo) = Some ref →
                 Ref.name ref = None ∨ Ref.name ref = Some "" →
                 Ref.commit ref = Some commit →
                 head = Js.slice0 8 commit).
Proof.
  intros Harg Hlen prompt. split; [|split].
  - rewrite (getRepository_implicit _ _ _ _ Harg).
    destruct repositories as [|r [|r' rs]]; simpl in Hlen; [lia|lia|].
    unfold mbind, Async_bind, createSimpleQuickPick. simpl.
    by destruct (Host.picks h) as [|[[|item items]|what|] rest].
  - simpl. unfold repositoryItems. by rewrite length_imap.
  - intros i repo Hi. eexists. split.
    { simpl. unfold repositoryItems. rewrite list_lookup_imap, Hi. done. }
    simpl. split; [done|]. split; [|split; [|split]].
    + intros folder Hf Hne. by apply itemLabel_folder.
    + intros Hf. apply itemLabel_basename. by left.
    + intros folder Hf Hn. apply itemLabel_basename. right. by exists folder.
    + exists (headLabel repo). rewrite itemDescription_eq.
      split; [|split; [|split]].
      * intros Hp. apply hasChanges_pending in Hp.
        by destruct (Nat.eqb_spec (hasChanges repo) 0).
      * intros Hp. destruct (Nat.eqb_spec (hasChanges repo) 0) as [_|Hne].
        -- by rewrite append_empty_r.
        -- by apply hasChanges_pending in Hne.
      * intros. by eapply headLabel_name.
      * intros. by eapply headLabel_commit.
Qed.
End Resolution.
End Resolution.

(** ** Promises *)

Lemma bind_resolved {A B : Type} (m : Async A) (k : A → Async B) h a h' :
  m h = (Resolved a, h') → (m ≫= k) h = k a h'.
Proof. intros H. unfold mbind, Async_bind. by rewrite H. Qed.

Lemma bind_rejected {A B : Type} (m : Async A) (k : A → Async B) h e h' :
  m h = (Rejected e, h') → (m ≫= k) h = (Rejected e, h').
Proof. intros H. unfold mbind, Async_bind. by rewrite H. Qed.

Lemma bind_pending {A B : Type} (m : Async A) (k : A → Async B) h h' :
  m h = (Pending, h') → (m ≫= k) h = (Pending, h').
Proof. intros H. unfold mbind, Async_bind. by rewrite H. Qed.

Lemma complete_run {A : Type} (c : Completion A) h :
  complete c h = (settle c, h).
Proof. by destruct c. Qed.

(** ** Prompt handlers *)

Module Handlers.
Import PromptTypes.

Lemma createQuickPick_selected o h first rest picks :
  Host.picks h = Selected (first :: rest) :: picks →
  createQuickPick o h
  = (settle (format_or_default (QuickPickOptions.format o)
               (selectedValue (QuickPickOptions.noneItem o) (Item.label first))),
     Host.with_picks picks (Host.show (QuickPickShown (simpleQuickPickOptions o)) h)).
Proof.
  intros Hp. unfold createQuickPick, mbind, Async_bind, createSimpleQuickPick.
  simpl. rewrite Hp. apply complete_run.
Qed.

(** C5: a choice step resolves with the formatter applied to the selected
    label, except that the label of the none item is first replaced by the
    empty string (a throwing formatter rejects the step instead). *)
Theorem createQuickPick_none_coercion o h first rest picks :
  Host.picks h = Selected (first :: rest) :: picks →
  let format := format_or_default (QuickPickOptions.format o) in
  (∀ noneItem,
     QuickPickOptions.noneItem o = Some noneItem →
     Item.label first = Item.label noneItem →
     outcome (createQuickPick o h) = settle (format ""))
  ∧ (∀ noneItem,
       QuickPickOptions.noneItem o = Some noneItem →
       Item.label first ≠ Item.label noneItem →
       outcome (createQuickPick o h) = settle (format (Item.label first)))
  ∧ (QuickPickOptions.noneItem o = None →
     outcome (createQuickPick o h) = settle (format (Item.label first))).
Proof.
  intros Hp format. rewrite (createQuickPick_selected _ _ _ _ _ Hp). simpl.
  split; [|split].
  - intros noneItem -> Hl. simpl. rewrite Hl, String.eqb_refl. done.
  - intros noneItem -> Hl. simpl.
    by destruct (String.eqb_spec (Item.label first) (Item.label noneItem)).
  - by intros ->.
Qed.

(** Input box *)

Lemma deliver_resolved o input events r :
  snd (deliver o input events) = Resolved r →
  ∃ v m,
    (v = InputBox.value input ∨ DidChangeValue v ∈ events)
    ∧ validate_or_default (InputBoxOptions.validate o) v = Normal m
    ∧ Js.truthy_opt m = false
    ∧ format_or_default (InputBoxOptions.format o) v = Normal r.
Proof.
  revert input. induction events as [|ev events IH]; intros input; simpl; [done|].
  destruct ev as [v| |]; [| |done].
  - unfold onDidChangeValue. simpl.
    destruct (validate_or_default _ v) as [m|e] eqn:Hv; [|done].
    intros H. apply IH in H as (v' & m' & Hin & Hm & Ht & Hf). simpl in Hin.
    exists v', m'. split; [|done].
    destruct Hin as [->|Hin]; right; [left | by right].
  - unfold onDidAccept.
    destruct (validate_or_default _ (InputBox.value input)) as [m|e] eqn:Hv; [|done].
    simpl. destruct (Js.truthy_opt m) eqn:Ht.
    + intros H. apply IH in H as (v' & m' & Hin & Hm & Ht' & Hf). simpl in Hin.
      exists v', m'. split; [|done]. destruct Hin as [->|Hin]; [by left | by right; right].
    + destruct (format_or_default _ (InputBox.value input)) as [r'|e] eqn:Hf; [|done].
      simpl. intros [= <-]. exists (InputBox.value input), m. split; [by left | done].
Qed.

Lemma createInputBox_run o h events rest :
  Host.boxes h = events :: rest →
  createInputBox o h
  = (snd (deliver o InputBox.initial events),
     Host.with_boxes rest (Host.show (inputBoxWidget o) h)).
Proof. intros Hb. unfold createInputBox. simpl. by rewrite Hb. Qed.

Lemma createInputBox_waiting o h :
  Host.boxes h = [] →
  createInputBox o h = (Pending, Host.show (inputBoxWidget o) h).
Proof. intros Hb. unfold createInputBox. simpl. by rewrite Hb. Qed.

Lemma createInputBox_settings o h :
  Host.settings (host (createInputBox o h)) = Host.settings h.
Proof. unfold createInputBox. simpl. by destruct (Host.boxes h). Qed.

Lemma createQuickPick_settings o h :
  Host.settings (host (createQuickPick o h)) = Host.settings h.
Proof.
  unfold createQuickPick, mbind, Async_bind, createSimpleQuickPick. simpl.
  destruct (Host.picks h) as [|[[|first rest]|what|] picks]; simpl; try done.
  by rewrite complete_run.
Qed.

Lemma deliver_open o input before input' events :
  DidHide ∉ before →
  deliver o input before = (input', Pending) →
  deliver o input (before ++ events) = deliver o input' events.
Proof.
  revert input. induction before as [|ev before IH]; intros input Hh; simpl.
  - by intros [= <-].
  - assert (Hb : DidHide ∉ before) by (intros Hin; apply Hh; by right).
    destruct ev as [v| |]; [| |exfalso; apply Hh; by left].
    + destruct (onDidChangeValue o (InputBox.with_value v input)) as [i [r|e|]];
        [done|done|]. by apply IH.
    + destruct (onDidAccept o input) as [i [r|e|]]; [done|done|]. by apply IH.
Qed.

Lemma deliver_resolved_submit o input events r :
  snd (deliver o input events) = Resolved r →
  ∃ before after input' m,
    events = before ++ DidAccept :: after
    ∧ (DidHide ∉ before)
    ∧ deliver o input before = (input', Pending)
    ∧ validate_or_default (InputBoxOptions.validate o) (InputBox.value input')
      = Normal m
    ∧ Js.truthy_opt m = false
    ∧ format_or_default (InputBoxOptions.format o) (InputBox.value input')
      = Normal r.
Proof.
  revert input. induction events as [|ev events IH]; intros input; simpl; [done|].
  assert (Hcons : ∀ ev before, ev ≠ DidHide → DidHide ∉ before →
                                DidHide ∉ ev :: before).
  { intros ev' before Hev Hb Hin. apply elem_of_cons in Hin as [Heq|Hin]; [|done].
    by apply Hev. }
  destruct ev as [v| |]; [| |done].
  - destruct (onDidChangeValue o (InputBox.with_value v input))
      as [input1 [r'|e|]] eqn:Hch; [| |].
    + unfold onDidChangeValue in Hch.
      by destruct (validate_or_default _ _).
    + done.
    + intros H. apply IH in H as (before & after & input' & m & -> & Hh & Hd & Hrest).
      exists (DidChangeValue v :: before), after, input', m.
      split; [done|]. split; [by apply Hcons|]. split; [|done].
      simpl. by rewrite Hch.
  - destruct (onDidAccept o input) as [input1 [r'|e|]] eqn:Hacc; [|done|].
    + simpl. intros [= ->]. unfold onDidAccept in Hacc.
      destruct (validate_or_default _ (InputBox.value input)) as [m|e] eqn:Hv; [|done].
      simpl in Hacc. destruct (Js.truthy_opt m) eqn:Ht; [done|].
      destruct (format_or_default _ (InputBox.value input)) as [r'|e] eqn:Hf; [|done].
      injection Hacc as _ ->.
      exists [], events, input, m. split; [done|]. split; [|done].
      intros Hin. by apply elem_of_nil in Hin.
    + intros H. apply IH in H as (before & after & input' & m & -> & Hh & Hd & Hrest).
      exists (DidAccept :: before), after, input', m.
      split; [done|]. split; [by apply Hcons|]. split; [|done].
      simpl. by rewrite Hacc.
Qed.

(** C6: a free-text input only resolves with [format v] for a value [v]
    that was in the box and for which validation returned no message; with
    the default formatter it never resolves with a value validation
    rejects.  A submit whose validation returns a message stores the
    message, leaves the promise unsettled and the box open; a submit whose
    validation passes disposes the box and resolves with the formatted
    value; every change of the value re-runs validation and stores its
    message.  For the step as a whole: every resolution comes from a
    submit of a value that passed validation; while the prompt is open, a
    submit of a passing value resolves the step with the formatted value,
    a submit of a value with a message leaves the step open (pending when
    nothing follows, the later events deciding otherwise) with the message
    on the box, and a typed value puts the message of its validation on
    the box. *)
Theorem createInputBox_validation o :
  let validate := validate_or_default (InputBoxOptions.validate o) in
  let format := format_or_default (InputBoxOptions.format o) in
  (∀ h r,
     outcome (createInputBox o h) = Resolved r →
     ∃ events rest v m,
       Host.boxes h = events :: rest
       ∧ (v = "" ∨ DidChangeValue v ∈ events)
       ∧ validate v = Normal m ∧ Js.truthy_opt m = false ∧ format v = Normal r)
  ∧ (∀ h v message,
       InputBoxOptions.format o = None →
       validate v = Normal (Some message) → message ≠ "" →
       outcome (createInputBox o h) ≠ Resolved v)
  ∧ (∀ input message events,
       validate (InputBox.value input) = Normal (Some message) → message ≠ "" →
       onDidAccept o input
       = (InputBox.with_validationMessage (Some message) input, Pending)
       ∧ deliver o input (DidAccept :: events)
         = deliver o (InputBox.with_validationMessage (Some message) input) events)
  ∧ (∀ input m r,
       validate (InputBox.value input) = Normal m → Js.truthy_opt m = false →
       format (InputBox.value input) = Normal r →
       onDidAccept o input
       = (InputBox.dispose (InputBox.with_validationMessage m input), Resolved r))
  ∧ (∀ input v m events,
       validate v = Normal m →
       onDidChangeValue o (InputBox.with_value v input)
       = (InputBox.with_validationMessage m (InputBox.with_value v input), Pending)
       ∧ deliver o input (DidChangeValue v :: events)
         = deliver o (InputBox.with_validationMessage m (InputBox.with_value v input))
             events)
  ∧ (∀ h r,
       outcome (createInputBox o h) = Resolved r →
       ∃ before after rest input m,
         Host.boxes h = (before ++ DidAccept :: after) :: rest
         ∧ (DidHide ∉ before)
         ∧ deliver o InputBox.initial before = (input, Pending)
         ∧ validate (InputBox.value input) = Normal m
         ∧ Js.truthy_opt m = false
         ∧ format (InputBox.value input) = Normal r)
  ∧ (∀ h before events rest input,
       Host.boxes h = (before ++ DidAccept :: events) :: rest →
       DidHide ∉ before →
       deliver o InputBox.initial before = (input, Pending) →
       (∀ m r,
          validate (InputBox.value input) = Normal m → Js.truthy_opt m = false →
          format (InputBox.value input) = Normal r →
          outcome (createInputBox o h) = Resolved r)
       ∧ (∀ message,
            validate (InputBox.value input) = Normal (Some message) →
            message ≠ "" →
            (events = [] → outcome (createInputBox o h) = Pending)
            ∧ fst (deliver o InputBox.initial (before ++ [DidAccept]))
              = InputBox.with_validationMessage (Some message) input
            ∧ outcome (createInputBox o h)
              = snd (deliver o
                       (InputBox.with_validationMessage (Some message) input)
                       events)))
  ∧ (∀ h before v rest input m,
       Host.boxes h = (before ++ [DidChangeValue v]) :: rest →
       DidHide ∉ before →
       deliver o InputBox.initial before = (input, Pending) →
       validate v = Normal m →
       outcome (createInputBox o h) = Pending
       ∧ fst (deliver o InputBox.initial (before ++ [DidChangeValue v]))
         = InputBox.with_validationMessage m (InputBox.with_value v input)).
Proof.
  intros validate format.
  assert (Hres : ∀ h r,
     outcome (createInputBox o h) = Resolved r →
     ∃ events rest v m,
       Host.boxes h = events :: rest
       ∧ (v = "" ∨ DidChangeValue v ∈ events)
       ∧ validate v = Normal m ∧ Js.truthy_opt m = false ∧ format v = Normal r).
  { intros h r. unfold createInputBox, outcome. simpl.
    destruct (Host.boxes h) as [|events rest]; [done|]. simpl.
    intros H. apply deliver_resolved in H as (v & m & Hin & Hm & Ht & Hf).
    by exists events, rest, v, m. }
  assert (Hblocked : ∀ input message,
       validate (InputBox.value input) = Normal (Some message) → message ≠ "" →
       onDidAccept o input
       = (InputBox.with_validationMessage (Some message) input, Pending)).
  { intros input message Hv Hne. unfold onDidAccept. fold validate. rewrite Hv. simpl.
    apply truthy_true in Hne. by rewrite Hne. }
  assert (Hpass : ∀ input m r,
       validate (InputBox.value input) = Normal m → Js.truthy_opt m = false →
       format (InputBox.value input) = Normal r →
       onDidAccept o input
       = (InputBox.dispose (InputBox.with_validationMessage m input), Resolved r)).
  { intros input m r Hv Ht Hf. unfold onDidAccept. fold validate format.
    rewrite Hv. simpl. rewrite Ht, Hf. done. }
  assert (Hlive : ∀ input v m,
       validate v = Normal m →
       onDidChangeValue o (InputBox.with_value v input)
       = (InputBox.with_validationMessage m (InputBox.with_value v input), Pending)).
  { intros input v m Hv. unfold onDidChangeValue. simpl. fold validate. by rewrite Hv. }
  split; [done|]. split; [|split; [|split; [|split; [|split; [|split]]]]].
  - intros h v message Hfmt Hv Hne Hout.
    apply Hres in Hout as (_ & _ & v' & m & _ & _ & Hm & Ht & Hf').
    unfold format, format_or_default in Hf'. rewrite Hfmt in Hf'. simpl in Hf'.
    injection Hf' as ->. rewrite Hv in Hm. injection Hm as <-.
    simpl in Ht. apply truthy_false in Ht. done.
  - intros input message events Hv Hne.
    split; [by apply Hblocked|]. simpl. by rewrite (Hblocked _ _ Hv Hne).
  - done.
  - intros input v m events Hv.
    split; [by apply Hlive|]. simpl. by rewrite (Hlive _ _ _ Hv).
  - intros h r. unfold createInputBox, outcome. simpl.
    destruct (Host.boxes h) as [|events rest]; [done|]. simpl.
    intros H.
    apply deliver_resolved_submit
      in H as (before & after & input & m & -> & Hh & Hd & Hm & Ht & Hf).
    by exists before, after, rest, input, m.
  - intros h before events rest input Hb Hh Hd.
    rewrite (createInputBox_run _ _ _ _ Hb). unfold outcome. simpl.
    rewrite (deliver_open _ _ _ _ (DidAccept :: events) Hh Hd).
    split.
    + intros m r Hv Ht Hf. simpl. by rewrite (Hpass _ _ _ Hv Ht Hf).
    + intros message Hv Hne. simpl. rewrite (Hblocked _ _ Hv Hne).
      split; [|split; [|done]].
      * by intros ->.
      * rewrite (deliver_open _ _ _ _ [DidAccept] Hh Hd). simpl.
        by rewrite (Hblocked _ _ Hv Hne).
  - intros h before v rest input m Hb Hh Hd Hv.
    rewrite (createInputBox_run _ _ _ _ Hb). unfold outcome. simpl.
    rewrite (deliver_open _ _ _ _ [DidChangeValue v] Hh Hd). simpl.
    by rewrite (Hlive _ _ _ Hv).
Qed.

(** Configurable quick pick *)

Section Configurable.
Variable nls : Localize.NLS.
Variable o : ConfigurableQuickPickOptions.t.

Let configurationKey := ConfigurableQuickPickOptions.configurationKey o.
Let newItem := ConfigurableQuickPickOptions.newItem o.
Let newItemWithoutSetting := ConfigurableQuickPickOptions.newItemWithoutSetting o.
Let format := format_or_default (ConfigurableQuickPickOptions.format o).

Lemma configurable_selected h first rest picks :
  Host.picks h = Selected (first :: rest) :: picks →
  createConfigurableQuickPick nls o h
  = (selectedValue ← createAndRemember o (currentValus o h)
                        (selectedValue (ConfigurableQuickPickOptions.noneItem o)
                           (Item.label first));
     selectedValue ← createWithoutSetting o selectedValue;
     complete (format selectedValue)) (picked nls o picks h).
Proof.
  intros Hp. unfold createConfigurableQuickPick.
  unfold mbind at 1, Async_bind at 1, configuration_get.
  fold (currentValus o h).
  by rewrite (bind_resolved _ _ _ _ _
               (createQuickPick_selected (quickPickOptions nls (currentValus o h) o)
                  h first rest picks Hp)).
Qed.

Lemma selectedValue_other noneItem (label : string) :
  (∀ n, noneItem = Some n → Item.label n ≠ label) →
  selectedValue noneItem label = label.
Proof.
  intros H. destruct noneItem as [n|]; simpl; [|done].
  destruct (String.eqb_spec label (Item.label n)) as [Heq|]; [|done].
  exfalso. by apply (H n).
Qed.

Lemma createWithoutSetting_settings v h :
  Host.settings (host (createWithoutSetting o v h)) = Host.settings h.
Proof.
  unfold createWithoutSetting. destruct (String.eqb _ _); [|done].
  apply createInputBox_settings.
Qed.

Lemma tail_settings v h :
  Host.settings
    (host ((selectedValue ← createWithoutSetting o v; complete (format selectedValue)) h))
  = Host.settings h.
Proof.
  unfold mbind, Async_bind.
  pose proof (createWithoutSetting_settings v h) as Hs.
  destruct (createWithoutSetting o v h) as [[r|e|] h'] eqn:E; simpl in *; try done.
  by rewrite complete_run.
Qed.

Lemma createAndRemember_other current v h :
  v ≠ Item.label newItem →
  createAndRemember o current v h = (Resolved v, h).
Proof.
  intros Hne. unfold createAndRemember.
  by destruct (String.eqb_spec v (Item.label (ConfigurableQuickPickOptions.newItem o))).
Qed.

Lemma createAndRemember_entered h events boxes v :
  Host.boxes h = events :: boxes →
  snd (deliver (nestedInputBox o newItem) InputBox.initial events) = Resolved v →
  createAndRemember o (currentValus o h) (Item.label newItem) h
  = (Resolved v, remembered o v boxes h).
Proof.
  intros Hb Hd. unfold createAndRemember. rewrite String.eqb_refl.
  rewrite (bind_resolved _ _ _ _ _
             (eq_trans (createInputBox_run _ _ _ _ Hb)
                (f_equal (λ x, (x, _)) Hd))).
  unfold remembered. by destruct (Js.truthy v).
Qed.

Lemma currentValus_picked picks h : currentValus o (picked nls o picks h) = currentValus o h.
Proof. done. Qed.

(** C4: when the user picks the "create and remember" item and enters a
    non-empty value, that value is appended to the persisted list and is
    read back by the next [configuration.get]; entering the empty value
    leaves the settings as they are; picking the "create without
    remembering" item leaves the settings as they are. *)
Theorem configurable_persistence h first rest picks :
  Host.picks h = Selected (first :: rest) :: picks →
  (∀ n, ConfigurableQuickPickOptions.noneItem o = Some n →
        Item.label n ≠ Item.label first) →
  let run := createConfigurableQuickPick nls o h in
  (Item.label first = Item.label newItem →
   ∀ events boxes v,
     Host.boxes h = events :: boxes →
     snd (deliver (nestedInputBox o newItem) InputBox.initial events) = Resolved v →
     (v ≠ "" →
      Host.settings (host run)
      = <[configurationKey := currentValus o h ++ [v]]> (Host.settings h)
      ∧ v ∈ currentValus o (host run))
     ∧ (v = "" → Host.settings (host run) = Host.settings h))
  ∧ (Item.label first = Item.label newItemWithoutSetting →
     Item.label newItemWithoutSetting ≠ Item.label newItem →
     Host.settings (host run) = Host.settings h).
Proof.
  intros Hp Hnone run. split.
  - intros Hl events boxes v Hb Hd.
    assert (Hrun : Host.settings (host run)
                   = Host.settings (remembered o v boxes (picked nls o picks h))).
    { subst run. rewrite (configurable_selected _ _ _ _ Hp).
      rewrite (selectedValue_other _ _ Hnone). rewrite Hl.
      assert (Hb' : Host.boxes (picked nls o picks h) = events :: boxes) by done.
      rewrite <- (currentValus_picked picks h) at 1.
      rewrite (bind_resolved _ _ _ _ _
                 (createAndRemember_entered _ _ _ _ Hb' Hd)).
      apply tail_settings. }
    split.
    + intros Hne. apply truthy_true in Hne.
      assert (Hset : Host.settings (host run)
                     = <[configurationKey := currentValus o h ++ [v]]> (Host.settings h)).
      { rewrite Hrun. unfold remembered. by rewrite Hne. }
      split; [done|]. unfold currentValus at 1. rewrite Hset.
      fold configurationKey. rewrite lookup_insert_eq. simpl.
      apply elem_of_app. right. by left.
    + intros ->. by rewrite Hrun.
  - intros Hl Hne. subst run. rewrite (configurable_selected _ _ _ _ Hp).
    rewrite (selectedValue_other _ _ Hnone). rewrite Hl.
    rewrite (bind_resolved _ _ _ _ _
               (createAndRemember_other (currentValus o h) _ (picked nls o picks h) Hne)).
    by rewrite tail_settings.
Qed.

Lemma createWithoutSetting_entered h events boxes :
  Host.boxes h = events :: boxes →
  createWithoutSetting o (Item.label newItemWithoutSetting) h
  = (snd (deliver (nestedInputBox o newItemWithoutSetting) InputBox.initial events),
     Host.with_boxes boxes
       (Host.show (inputBoxWidget (nestedInputBox o newItemWithoutSetting)) h)).
Proof.
  intros Hb. unfold createWithoutSetting. rewrite String.eqb_refl.
  by apply createInputBox_run.
Qed.

Lemma createInputBox_shown (o' : InputBoxOptions.t) h :
  Host.shown (host (createInputBox o' h)) = Host.shown h ++ [inputBoxWidget o'].
Proof. unfold createInputBox. simpl. by destruct (Host.boxes h). Qed.

Lemma tail_shown v h :
  Host.shown
    (host ((selectedValue ← createWithoutSetting o v; complete (format selectedValue)) h))
  = Host.shown h
    ++ (if String.eqb v (Item.label newItemWithoutSetting)
        then [inputBoxWidget (nestedInputBox o newItemWithoutSetting)] else []).
Proof.
  unfold mbind, Async_bind, createWithoutSetting.
  fold newItemWithoutSetting.
  destruct (String.eqb v (Item.label newItemWithoutSetting)).
  - pose proof (createInputBox_shown (nestedInputBox o newItemWithoutSetting) h) as Hs.
    destruct (createInputBox _ h) as [[r|e|] h'];
      rewrite ?complete_run; simpl in *; done.
  - simpl. rewrite complete_run. simpl. by rewrite app_nil_r.
Qed.

Lemma createAndRemember_created current h :
  createAndRemember o current (Item.label newItem) h
  = match createInputBox (nestedInputBox o newItem) h with
    | (Resolved v, h') =>
        (Resolved v,
         if Js.truthy v
         then Host.with_settings
                (<[configurationKey := current ++ [v]]> (Host.settings h')) h'
         else h')
    | (Rejected e, h') => (Rejected e, h')
    | (Pending, h') => (Pending, h')
    end.
Proof.
  unfold createAndRemember. fold newItem. rewrite String.eqb_refl.
  unfold mbind, Async_bind.
  destruct (createInputBox (nestedInputBox o newItem) h) as [[v|e|] h']; try done.
  by destruct (Js.truthy v).
Qed.

Lemma created_shown current h :
  ∃ more,
    Host.shown
      (host ((selectedValue ← createAndRemember o current (Item.label newItem);
              selectedValue ← createWithoutSetting o selectedValue;
              complete (format selectedValue)) h))
    = Host.shown h ++ [inputBoxWidget (nestedInputBox o newItem)] ++ more.
Proof.
  pose proof (createAndRemember_created current h) as Hc.
  pose proof (createInputBox_shown (nestedInputBox o newItem) h) as Hs.
  destruct (createInputBox (nestedInputBox o newItem) h) as [[v|e|] h'];
    simpl in Hs.
  - rewrite (bind_resolved _ _ _ _ _ Hc), tail_shown.
    match goal with
    | |- context [Host.shown ?x ++ _] =>
        assert (Hx : Host.shown x
                     = Host.shown h ++ [inputBoxWidget (nestedInputBox o newItem)])
          by (by destruct (Js.truthy v)); rewrite Hx
    end.
    eexists. by rewrite <- app_assoc.
  - rewrite (bind_rejected _ _ _ _ _ Hc). exists []. simpl. by rewrite Hs.
  - rewrite (bind_pending _ _ _ _ Hc). exists []. simpl. by rewrite Hs.
Qed.

(** C10: the dispatch is on string equality with the synthetic labels.
    When the value entered in the "create and remember" input (persisted
    when non-empty) equals the label of the "create without remembering"
    item, a second input is opened and the step settles with that input's
    value; a persisted value whose text equals a synthetic label opens the
    corresponding input instead of being returned, while any other
    persisted value is returned formatted. *)
Theorem configurable_label_dispatch h :
  (∀ first rest picks events1 events2 boxes v1,
     Host.picks h = Selected (first :: rest) :: picks →
     (∀ n, ConfigurableQuickPickOptions.noneItem o = Some n →
           Item.label n ≠ Item.label first) →
     Item.label first = Item.label newItem →
     Host.boxes h = events1 :: events2 :: boxes →
     snd (deliver (nestedInputBox o newItem) InputBox.initial events1) = Resolved v1 →
     v1 = Item.label newItemWithoutSetting →
     let run := createConfigurableQuickPick nls o h in
     outcome run
     = match snd (deliver (nestedInputBox o newItemWithoutSetting)
                    InputBox.initial events2) with
       | Resolved v2 => settle (format v2)
       | Rejected e => Rejected e
       | Pending => Pending
       end
     ∧ Host.shown (host run)
       = Host.shown h
         ++ [QuickPickShown
               (simpleQuickPickOptions (quickPickOptions nls (currentValus o h) o));
             inputBoxWidget (nestedInputBox o newItem);
             inputBoxWidget (nestedInputBox o newItemWithoutSetting)]
     ∧ (v1 ≠ "" →
        Host.settings (host run)
        = <[configurationKey := currentValus o h ++ [v1]]> (Host.settings h)))
  ∧ (∀ value rest picks,
       value ∈ currentValus o h →
       Host.picks h = Selected (configurationItem nls value :: rest) :: picks →
       (∀ n, ConfigurableQuickPickOptions.noneItem o = Some n →
             Item.label n ≠ value) →
       let run := createConfigurableQuickPick nls o h in
       (value = Item.label newItem →
        ∃ more,
          Host.shown (host run)
          = Host.shown h
            ++ [QuickPickShown
                  (simpleQuickPickOptions (quickPickOptions nls (currentValus o h) o));
                inputBoxWidget (nestedInputBox o newItem)] ++ more)
       ∧ (value = Item.label newItemWithoutSetting →
          value ≠ Item.label newItem →
          Host.shown (host run)
          = Host.shown h
            ++ [QuickPickShown
                  (simpleQuickPickOptions (quickPickOptions nls (currentValus o h) o));
                inputBoxWidget (nestedInputBox o newItemWithoutSetting)])
       ∧ (value ≠ Item.label newItem →
          value ≠ Item.label newItemWithoutSetting →
          outcome run = settle (format value))).
Proof.
  split.
  - intros first rest picks events1 events2 boxes v1 Hp Hnone Hl Hb Hd Hv1 run.
    set (h1 := remembered o v1 (events2 :: boxes) (picked nls o picks h)).
    assert (Hb1 : Host.boxes h1 = events2 :: boxes).
    { subst h1. unfold remembered. simpl. by destruct (Js.truthy v1). }
    assert (Hs1 : Host.shown h1
                  = Host.shown h
                    ++ [QuickPickShown
                          (simpleQuickPickOptions (quickPickOptions nls (currentValus o h) o));
                        inputBoxWidget (nestedInputBox o newItem)]).
    { subst h1. unfold remembered. simpl.
      destruct (Js.truthy v1); simpl; by rewrite <- app_assoc. }
    assert (Hset1 : v1 ≠ "" →
                    Host.settings h1
                    = <[configurationKey := currentValus o h ++ [v1]]> (Host.settings h)).
    { intros Hne. apply truthy_true in Hne. subst h1. unfold remembered.
      simpl. by rewrite Hne. }
    assert (Hrun : run
                   = (match snd (deliver (nestedInputBox o newItemWithoutSetting)
                                   InputBox.initial events2) with
                      | Resolved v2 => settle (format v2)
                      | Rejected e => Rejected e
                      | Pending => Pending
                      end,
                      Host.with_boxes boxes
                        (Host.show
                           (inputBoxWidget (nestedInputBox o newItemWithoutSetting))
                           h1))).
    { subst run. rewrite (configurable_selected _ _ _ _ Hp).
      rewrite (selectedValue_other _ _ Hnone). rewrite Hl.
      assert (Hb' : Host.boxes (picked nls o picks h) = events1 :: events2 :: boxes) by done.
      rewrite <- (currentValus_picked picks h) at 1.
      rewrite (bind_resolved _ _ _ _ _
                 (createAndRemember_entered _ _ _ _ Hb' Hd)).
      fold h1. clearbody h1. rewrite Hv1.
      unfold mbind, Async_bind.
      rewrite (createWithoutSetting_entered h1 _ _ Hb1).
      destruct (snd (deliver (nestedInputBox o newItemWithoutSetting) _ events2))
        as [v2|e|]; [|done|done].
      by rewrite complete_run. }
    clearbody h1 run. subst run. simpl.
    split; [done | split; [by rewrite Hs1, <- app_assoc | done]].
  - intros value rest picks Hin Hp Hnone run. subst run.
    rewrite (configurable_selected _ _ _ _ Hp). simpl Item.label.
    rewrite (selectedValue_other _ _ Hnone).
    split; [|split].
    + intros ->. destruct (created_shown (currentValus o h) (picked nls o picks h)) as [more Hm].
      exists more. rewrite Hm. simpl. by rewrite <- app_assoc.
    + intros Hv Hne.
      rewrite (bind_resolved _ _ _ _ _
                 (createAndRemember_other (currentValus o h) _ (picked nls o picks h) Hne)).
      rewrite tail_shown. rewrite Hv, String.eqb_refl. simpl.
      by rewrite <- app_assoc.
    + intros Hne1 Hne2.
      rewrite (bind_resolved _ _ _ _ _
                 (createAndRemember_other (currentValus o h) _ (picked nls o picks h) Hne1)).
      unfold mbind, Async_bind, createWithoutSetting.
      destruct (String.eqb_spec value
                  (Item.label (ConfigurableQuickPickOptions.newItemWithoutSetting o)));
        [done|].
      simpl. by rewrite complete_run.
Qed.

End Configurable.

(** Dismissal *)

Lemma deliver_dismissed o input before after :
  snd (deliver o input before) = Pending →
  snd (deliver o input (before ++ DidHide :: after)) = Pending.
Proof.
  revert input. induction before as [|ev before IH]; intros input; simpl; [done|].
  destruct ev as [v| |]; [| |done].
  - destruct (onDidChangeValue o (InputBox.with_value v input)) as [input' [r|e|]];
      [done|done|]. apply IH.
  - destruct (onDidAccept o input) as [input' [r|e|]]; [done|done|]. apply IH.
Qed.

Lemma createInputBox_dismissed o h before after boxes :
  Host.boxes h = (before ++ DidHide :: after) :: boxes →
  snd (deliver o InputBox.initial before) = Pending →
  createInputBox o h = (Pending, Host.with_boxes boxes (Host.show (inputBoxWidget o) h)).
Proof.
  intros Hb Hd. rewrite (createInputBox_run _ _ _ _ Hb).
  by rewrite (deliver_dismissed _ _ _ after Hd).
Qed.

Import Prompts.

Lemma promptSequence_app nls earlier later answers h :
  promptSequence nls (earlier ++ later) answers h
  = (promptSequence nls earlier answers ≫= promptSequence nls later) h.
Proof.
  revert answers h. induction earlier as [|p earlier IH]; intros answers h; simpl.
  - done.
  - unfold mbind, Async_bind.
    destruct (promptTypes nls p h) as [[answer|e|] h']; [|done|done].
    apply IH.
Qed.

Lemma promptSequence_pending {B : Type} nls (k : gmap string string → Async B)
  earlier p later answers h answers1 h1 h2 :
  promptSequence nls earlier answers h = (Resolved answers1, h1) →
  promptTypes nls p h1 = (Pending, h2) →
  (promptSequence nls (earlier ++ p :: later) answers ≫= k) h = (Pending, h2).
Proof.
  intros He Hp. apply bind_pending. rewrite promptSequence_app.
  rewrite (bind_resolved _ _ _ _ _ He). simpl.
  by apply bind_pending.
Qed.

Lemma promptSequence_rejected {B : Type} nls (k : gmap string string → Async B)
  earlier p later answers h answers1 h1 e h2 :
  promptSequence nls earlier answers h = (Resolved answers1, h1) →
  promptTypes nls p h1 = (Rejected e, h2) →
  (promptSequence nls (earlier ++ p :: later) answers ≫= k) h = (Rejected e, h2).
Proof.
  intros He Hp. apply bind_rejected. rewrite promptSequence_app.
  rewrite (bind_resolved _ _ _ _ _ He). simpl.
  by apply bind_rejected.
Qed.

(** What a choice list that is not answered with a selection leaves of
    [createQuickPick]. *)
Lemma createQuickPick_unanswered o h :
  let shown := Host.show (QuickPickShown (simpleQuickPickOptions o)) h in
  (Host.picks h = [] → createQuickPick o h = (Pending, shown))
  ∧ (∀ picks, Host.picks h = Unsettled :: picks →
              createQuickPick o h = (Pending, Host.with_picks picks shown))
  ∧ (∀ what picks, Host.picks h = Failed what :: picks →
                   createQuickPick o h
                   = (Rejected (Thrown what), Host.with_picks picks shown)).
Proof.
  unfold createQuickPick, mbind, Async_bind, createSimpleQuickPick. simpl.
  split; [|split].
  - by intros ->.
  - by intros picks ->.
  - by intros what picks ->.
Qed.

Lemma configurable_unanswered nls o h :
  let shown :=
    Host.show
      (QuickPickShown
         (simpleQuickPickOptions (quickPickOptions nls (currentValus o h) o))) h in
  (Host.picks h = [] → createConfigurableQuickPick nls o h = (Pending, shown))
  ∧ (∀ picks, Host.picks h = Unsettled :: picks →
              createConfigurableQuickPick nls o h
              = (Pending, Host.with_picks picks shown))
  ∧ (∀ what picks, Host.picks h = Failed what :: picks →
                   createConfigurableQuickPick nls o h
                   = (Rejected (Thrown what), Host.with_picks picks shown)).
Proof.
  intros shown. unfold createConfigurableQuickPick.
  rewrite (bind_resolved (configuration_get _) _ h (currentValus o h) h eq_refl).
  destruct (createQuickPick_unanswered (quickPickOptions nls (currentValus o h) o) h)
    as (Hnone & Hunsettled & Hfailed).
  split; [|split].
  - intros Hp. apply bind_pending. by apply Hnone.
  - intros picks Hp. apply bind_pending. by apply Hunsettled.
  - intros what picks Hp. apply bind_rejected. by apply Hfailed.
Qed.

(** C3 (amended): a step that is dismissed never completes, and the
    sequence ends with it: no answer record is returned, and nothing that
    was to follow (the later steps, the serialization, the hand-off) runs.
    A dismissed free-text input (a step of its own, or the nested input of
    a growable-choice step) leaves its promise unsettled, so the sequence
    stays pending and no outcome reaches the caller.  A choice list (of a
    single-choice or of a growable-choice step) that is not answered with
    a selection either leaves the sequence pending or, when its promise
    rejects, makes that one rejection the outcome of the sequence.  The
    dismissal writes nothing to the settings: they are as the earlier
    steps left them.  In general, a step whose promise stays pending or
    rejects ends the sequence in that state, with the host as the step
    left it. *)
Theorem dismissed_step_never_completes {B : Type} nls
  (k : gmap string string → Async B) earlier later answers h answers1 h1 :
  promptSequence nls earlier answers h = (Resolved answers1, h1) →
  let run p := (promptSequence nls (earlier ++ p :: later) answers ≫= k) h in
  (∀ name o before after boxes,
     Host.boxes h1 = (before ++ DidHide :: after) :: boxes →
     snd (deliver o InputBox.initial before) = Pending →
     run (INPUT_BOX name o)
     = (Pending, Host.with_boxes boxes (Host.show (inputBoxWidget o) h1))
     ∧ outcome (run (INPUT_BOX name o)) = Pending
     ∧ Host.settings (host (run (INPUT_BOX name o))) = Host.settings h1)
  ∧ (∀ name o before after boxes first rest picks item,
       Host.boxes h1 = (before ++ DidHide :: after) :: boxes →
       Host.picks h1 = Selected (first :: rest) :: picks →
       (∀ n, ConfigurableQuickPickOptions.noneItem o = Some n →
             Item.label n ≠ Item.label first) →
       Item.label first = Item.label item →
       (item = ConfigurableQuickPickOptions.newItem o
        ∨ item = ConfigurableQuickPickOptions.newItemWithoutSetting o
          ∧ Item.label item ≠ Item.label (ConfigurableQuickPickOptions.newItem o)) →
       snd (deliver (nestedInputBox o item) InputBox.initial before) = Pending →
       run (CONFIGURABLE_QUICK_PICK name o)
       = (Pending,
          Host.with_boxes boxes
            (Host.show (inputBoxWidget (nestedInputBox o item))
               (picked nls o picks h1)))
       ∧ outcome (run (CONFIGURABLE_QUICK_PICK name o)) = Pending
       ∧ Host.settings (host (run (CONFIGURABLE_QUICK_PICK name o)))
         = Host.settings h1)
  ∧ (∀ p list,
       (∃ name o, p = QUICK_PICK name o ∧ list = simpleQuickPickOptions o)
       ∨ (∃ name o,
            p = CONFIGURABLE_QUICK_PICK name o
            ∧ list = simpleQuickPickOptions
                       (quickPickOptions nls (currentValus o h1) o)) →
       let shown := Host.show (QuickPickShown list) h1 in
       (Host.picks h1 = [] → run p = (Pending, shown))
       ∧ (∀ picks, Host.picks h1 = Unsettled :: picks →
                   run p = (Pending, Host.with_picks picks shown))
       ∧ (∀ what picks,
            Host.picks h1 = Failed what :: picks →
            run p = (Rejected (Thrown what), Host.with_picks picks shown))
       ∧ ((∀ items picks, Host.picks h1 ≠ Selected items :: picks) →
          (∀ b, outcome (run p) ≠ Resolved b)
          ∧ Host.settings (host (run p)) = Host.settings h1
          ∧ Host.boxes (host (run p)) = Host.boxes h1))
  ∧ (∀ p h2,
       (promptTypes nls p h1 = (Pending, h2) → run p = (Pending, h2))
       ∧ (∀ e, promptTypes nls p h1 = (Rejected e, h2) →
               run p = (Rejected e, h2))).
Proof.
  intros He run. split; [|split; [|split]].
  - intros name o before after boxes Hb Hd.
    assert (Hrun : run (INPUT_BOX name o)
                   = (Pending,
                      Host.with_boxes boxes (Host.show (inputBoxWidget o) h1))).
    { apply (promptSequence_pending nls k earlier (INPUT_BOX name o) later
               answers h answers1 h1 _ He).
      simpl. by apply (createInputBox_dismissed o h1 before after boxes). }
    by rewrite Hrun.
  - intros name o before after boxes first rest picks item Hb Hp Hnone Hl Hitem Hd.
    assert (Hrun : run (CONFIGURABLE_QUICK_PICK name o)
                   = (Pending,
                      Host.with_boxes boxes
                        (Host.show (inputBoxWidget (nestedInputBox o item))
                           (picked nls o picks h1)))).
    { apply (promptSequence_pending nls k earlier (CONFIGURABLE_QUICK_PICK name o)
               later answers h answers1 h1 _ He).
      simpl. rewrite (configurable_selected _ _ _ _ _ _ Hp).
      rewrite (selectedValue_other _ _ Hnone), Hl.
      assert (Hb' : Host.boxes (picked nls o picks h1)
                    = (before ++ DidHide :: after) :: boxes) by done.
      destruct Hitem as [-> | [-> Hne]].
      - apply bind_pending. rewrite createAndRemember_created.
        by rewrite (createInputBox_dismissed _ _ _ _ _ Hb' Hd).
      - rewrite (bind_resolved _ _ _ _ _
                   (createAndRemember_other o (currentValus o h1) _
                      (picked nls o picks h1) Hne)).
        apply bind_pending. unfold createWithoutSetting.
        rewrite String.eqb_refl.
        by apply (createInputBox_dismissed _ _ _ _ _ Hb' Hd). }
    by rewrite Hrun.
  - intros p list Hp shown.
    assert (Hstep :
      (Host.picks h1 = [] → promptTypes nls p h1 = (Pending, shown))
      ∧ (∀ picks, Host.picks h1 = Unsettled :: picks →
                  promptTypes nls p h1 = (Pending, Host.with_picks picks shown))
      ∧ (∀ what picks, Host.picks h1 = Failed what :: picks →
                       promptTypes nls p h1
                       = (Rejected (Thrown what), Host.with_picks picks shown))).
    { destruct Hp as [(name & o & -> & ->) | (name & o & -> & ->)]; simpl.
      - apply createQuickPick_unanswered.
      - apply configurable_unanswered. }
    destruct Hstep as (Hnone & Hunsettled & Hfailed).
    assert (Hrun1 : Host.picks h1 = [] → run p = (Pending, shown)).
    { intros Hk.
      by apply (promptSequence_pending nls k earlier p later answers h answers1 h1 _
                  He), Hnone. }
    assert (Hrun2 : ∀ picks, Host.picks h1 = Unsettled :: picks →
                             run p = (Pending, Host.with_picks picks shown)).
    { intros picks Hk.
      by apply (promptSequence_pending nls k earlier p later answers h answers1 h1 _
                  He), Hunsettled. }
    assert (Hrun3 : ∀ what picks, Host.picks h1 = Failed what :: picks →
                      run p = (Rejected (Thrown what), Host.with_picks picks shown)).
    { intros what picks Hk.
      by apply (promptSequence_rejected nls k earlier p later answers h answers1 h1 _ _
                  He), Hfailed. }
    split; [done|]. split; [done|]. split; [done|].
    intros Hsel. destruct (Host.picks h1) as [|[items|what|] picks] eqn:Hk.
    + by rewrite (Hrun1 eq_refl).
    + by destruct (Hsel items picks).
    + by rewrite (Hrun3 what picks eq_refl).
    + by rewrite (Hrun2 picks eq_refl).
  - intros p h2. split.
    + by apply (promptSequence_pending nls k earlier p later answers h answers1 h1 h2).
    + intros e.
      by apply (promptSequence_rejected nls k earlier p later answers h answers1 h1 e h2).
Qed.

End Handlers.

(** ** Serialization *)

Module Serialization.
Import CommitMessage.

Lemma append_cons (c : ascii) (s t : string) :
  String c s +:+ t = String c (s +:+ t).
Proof. done. Qed.

Lemma append_assoc (s t u : string) : (s +:+ t) +:+ u = s +:+ (t +:+ u).
Proof.
  induction s as [|c s IH]; [done|].
  rewrite !append_cons. by rewrite IH.
Qed.

Lemma append_eq_empty (s t : string) : s +:+ t = "" → t = "".
Proof. destruct s; [done|]. rewrite append_cons. done. Qed.

Lemma trimStart_length (s : string) :
  (String.length (trimStart s) <= String.length s)%nat.
Proof.
  induction s as [|c s IH]; simpl; [lia|].
  destruct (is_whitespace c); simpl; lia.
Qed.

Lemma trimStart_fixed (s t : string) (c : ascii) :
  trimStart s = s → is_whitespace c = false →
  trimStart (s +:+ String c t) = s +:+ String c t.
Proof.
  intros Hs Hc. destruct s as [|d s].
  - change (trimStart (String c t) = String c t). simpl. by rewrite Hc.
  - rewrite append_cons. simpl in *.
    destruct (is_whitespace d); [|done].
    exfalso. pose proof (trimStart_length s) as Hl. rewrite Hs in Hl.
    simpl in Hl. lia.
Qed.

Lemma trimEnd_cons (c : ascii) (s : string) :
  is_whitespace c = false → trimEnd (String c s) = String c (trimEnd s).
Proof. intros Hc. simpl. destruct (trimEnd s); [by rewrite Hc | done]. Qed.

Lemma trimEnd_append (s t : string) :
  trimEnd t ≠ "" → trimEnd (s +:+ t) = s +:+ trimEnd t.
Proof.
  intros Ht. induction s as [|c s IH]; [done|].
  rewrite !append_cons. simpl. rewrite IH.
  destruct (s +:+ trimEnd t) eqn:E; [|done].
  by apply append_eq_empty in E.
Qed.

Lemma trimEnd_segment (s t : string) (c : ascii) :
  is_whitespace c = false →
  trimEnd (s +:+ String c t) = s +:+ String c (trimEnd t).
Proof.
  intros Hc. rewrite trimEnd_append; by rewrite (trimEnd_cons c t Hc).
Qed.

Lemma trimEnd_fixed (s : string) :
  trimEnd s = s → s ≠ "" → ∀ t, trimEnd (t +:+ s) = t +:+ s.
Proof. intros Hs Hne t. rewrite trimEnd_append; by rewrite Hs. Qed.

Lemma has_parenthesis_append (s t : string) :
  has_parenthesis (s +:+ t) = has_parenthesis s || has_parenthesis t.
Proof.
  induction s as [|c s IH]; [done|].
  rewrite append_cons. simpl. rewrite IH. by rewrite orb_assoc.
Qed.

Lemma has_parenthesis_block (text : string) :
  has_parenthesis (block text) = has_parenthesis text.
Proof. unfold block. destruct (Js.truthy text) eqn:E; [done|]. apply truthy_false in E. by subst. Qed.

Lemma serializeHeader_unscoped answers :
  field answers "scope" = "" →
  serializeHeader answers = field answers "type" +:+ ": " +:+ field answers "subject".
Proof. intros H. unfold serializeHeader. by rewrite H. Qed.

Lemma serializeHeader_scoped answers :
  field answers "scope" ≠ "" →
  serializeHeader answers
  = field answers "type" +:+ "(" +:+ field answers "scope" +:+ "): "
    +:+ field answers "subject".
Proof.
  intros H. unfold serializeHeader. apply truthy_true in H. rewrite H.
  by rewrite !append_assoc.
Qed.

Lemma length_append (s t : string) :
  String.length (s +:+ t) = (String.length s + String.length t)%nat.
Proof. induction s as [|c s IH]; [done|]. rewrite append_cons. simpl. by rewrite IH. Qed.

Lemma append_cancel (s t u : string) : s +:+ t = s +:+ u → t = u.
Proof.
  induction s as [|c s IH]; [done|]. rewrite !append_cons. intros [= H]. by apply IH.
Qed.

Lemma trimStart_head (c : ascii) (s : string) :
  trimStart (String c s) = String c s → is_whitespace c = false.
Proof.
  simpl. destruct (is_whitespace c); [|done]. intros H.
  pose proof (trimStart_length s) as Hl. rewrite H in Hl. simpl in Hl. lia.
Qed.

Lemma trimStart_idempotent (s : string) : trimStart (trimStart s) = trimStart s.
Proof.
  induction s as [|c s IH]; [done|]. simpl.
  destruct (is_whitespace c) eqn:Hc; [done|]. simpl. by rewrite Hc.
Qed.

Lemma trimEnd_idempotent (s : string) : trimEnd (trimEnd s) = trimEnd s.
Proof.
  induction s as [|c s IH]; [done|]. simpl.
  destruct (trimEnd s) as [|d r] eqn:E.
  - destruct (is_whitespace c) eqn:Hc; [done|]. simpl. by rewrite Hc.
  - change (trimEnd (String c (String d r))) with
      (match trimEnd (String d r) with
       | "" => if is_whitespace c then "" else String c ""
       | rest => String c rest
       end).
    by rewrite IH.
Qed.

Lemma trimEnd_length (s : string) :
  (String.length (trimEnd s) <= String.length s)%nat.
Proof.
  induction s as [|c s IH]; simpl; [lia|].
  destruct (trimEnd s); [destruct (is_whitespace c)|]; simpl in *; lia.
Qed.

Lemma trimEnd_extends (s more : string) :
  trimEnd s = s +:+ more → more = "" ∧ trimEnd s = s.
Proof.
  intros H. pose proof (trimEnd_length s) as Hl.
  rewrite H, length_append in Hl.
  destruct more; [|simpl in Hl; lia]. by rewrite append_empty_r in H.
Qed.

Lemma trimEnd_blank (s t : string) : trimEnd t = "" → trimEnd (s +:+ t) = trimEnd s.
Proof.
  intros Ht. induction s as [|c s IH]; [done|].
  rewrite append_cons. simpl. by rewrite IH.
Qed.

Lemma trimEnd_append_blank (s t : string) :
  trimEnd (s +:+ t) = "" ↔ trimEnd s = "" ∧ trimEnd t = "".
Proof.
  split.
  - intros H. destruct (String.eqb_spec (trimEnd t) "") as [Ht|Ht].
    + split; [|done]. by rewrite (trimEnd_blank s t Ht) in H.
    + rewrite (trimEnd_append s t Ht) in H. by apply append_eq_empty in H.
  - intros [Hs Ht]. by rewrite (trimEnd_blank s t Ht).
Qed.

Lemma trimEnd_whitespace (c : ascii) (s : string) :
  is_whitespace c = true → (trimEnd (String c s) = "" ↔ trimEnd s = "").
Proof. intros Hc. simpl. rewrite Hc. by destruct (trimEnd s). Qed.

Lemma trimEnd_block (text : string) : trimEnd (block text) = "" ↔ trimEnd text = "".
Proof.
  unfold block. destruct (Js.truthy text) eqn:E.
  - change (LF +:+ LF +:+ text)
      with (String (ascii_of_nat 10) (String (ascii_of_nat 10) text)).
    by rewrite !trimEnd_whitespace.
  - apply truthy_false in E. by subst.
Qed.

Lemma trimEnd_blocks (body footer : string) :
  trimEnd (block body +:+ block footer) = ""
  ↔ trimEnd body = "" ∧ trimEnd footer = "".
Proof. by rewrite trimEnd_append_blank, !trimEnd_block. Qed.

Lemma trimEnd_space (s : string) :
  trimEnd (String " " s) = String " " s ↔ s ≠ "" ∧ trimEnd s = s.
Proof.
  simpl. destruct (trimEnd s) as [|d r] eqn:E.
  - split; [done|]. intros [Hne Heq]. by subst.
  - split.
    + intros [= <-]. done.
    + by intros [_ <-].
Qed.

Lemma trim_trimStart (s : string) : trimStart (trim s) = trim s.
Proof.
  unfold trim. pose proof (trimStart_idempotent s) as Hi.
  destruct (trimStart s) as [|c u]; [done|].
  apply trimStart_head in Hi as Hc.
  rewrite (trimEnd_cons c u Hc). simpl. by rewrite Hc.
Qed.

Lemma trim_trimEnd (s : string) : trimEnd (trim s) = trim s.
Proof. apply trimEnd_idempotent. Qed.

Lemma whitespace_no_parenthesis (c : ascii) :
  is_whitespace c = true → Ascii.eqb c "(" || Ascii.eqb c ")" = false.
Proof.
  intros Hc.
  destruct (Ascii.eqb_spec c "(") as [->|]; [done|].
  by destruct (Ascii.eqb_spec c ")") as [->|].
Qed.

Lemma has_parenthesis_trimStart (s : string) :
  has_parenthesis (trimStart s) = has_parenthesis s.
Proof.
  induction s as [|c s IH]; [done|]. simpl.
  destruct (is_whitespace c) eqn:Hc; [|done].
  by rewrite (whitespace_no_parenthesis c Hc).
Qed.

Lemma has_parenthesis_trimEnd (s : string) :
  has_parenthesis (trimEnd s) = has_parenthesis s.
Proof.
  induction s as [|c s IH]; [done|]. simpl. rewrite <- IH.
  destruct (trimEnd s) as [|d r].
  - destruct (is_whitespace c) eqn:Hc; [|done].
    simpl. by rewrite (whitespace_no_parenthesis c Hc).
  - done.
Qed.

Lemma has_parenthesis_trim (s : string) : has_parenthesis (trim s) = has_parenthesis s.
Proof. unfold trim. by rewrite has_parenthesis_trimEnd, has_parenthesis_trimStart. Qed.

Section Scoped.
Variable answers : gmap string string.
Local Abbreviation type := (field answers "type").
Local Abbreviation scope := (field answers "scope").
Local Abbreviation subject := (field answers "subject").
Local Abbreviation body := (field answers "body").
Local Abbreviation footer := (field answers "footer").
Local Abbreviation blocks := (block body +:+ block footer).
Local Abbreviation header := (type +:+ "(" +:+ scope +:+ "): " +:+ subject).

Local Abbreviation kept :=
  (subject ≠ "" ∧ trimEnd subject = subject
   ∨ trimEnd body ≠ "" ∨ trimEnd footer ≠ "").

Lemma serialize_scoped_from_type :
  scope ≠ "" → trimStart type = type →
  serialize answers
  = type +:+ "(" +:+ scope +:+ ")" +:+ trimEnd (": " +:+ subject +:+ blocks).
Proof.
  intros Hs Ht. unfold serialize. rewrite (serializeHeader_scoped _ Hs).
  unfold trim. rewrite !append_assoc.
  change (type +:+ "(" +:+ scope +:+ "): " +:+ subject +:+ block body +:+ block footer)
    with (type +:+ String "(" (scope +:+ String ")"
            (": " +:+ subject +:+ block body +:+ block footer))).
  rewrite (trimStart_fixed type _ "("%char Ht eq_refl).
  rewrite (trimEnd_segment type _ "("%char eq_refl).
  by rewrite (trimEnd_segment scope _ ")"%char eq_refl).
Qed.

Lemma tail_kept :
  kept → trimEnd (": " +:+ subject +:+ blocks) = ": " +:+ subject +:+ trimEnd blocks.
Proof.
  intros Hk.
  destruct (String.eqb_spec (trimEnd blocks) "") as [Hb|Hb].
  - rewrite Hb. destruct Hk as [[Hne Hsu] | Hk].
    + rewrite <- (append_assoc ": " subject blocks). rewrite (trimEnd_blank _ _ Hb).
      rewrite append_empty_r. apply trimEnd_fixed; done.
    + apply trimEnd_blocks in Hb as [Hbody Hfooter]. by destruct Hk.
  - rewrite <- (append_assoc ": " subject blocks).
    rewrite <- (append_assoc ": " subject (trimEnd blocks)).
    by rewrite (trimEnd_append _ _ Hb).
Qed.

Lemma tail_extends more :
  trimEnd (": " +:+ subject +:+ blocks) = ": " +:+ subject +:+ more → kept.
Proof.
  change (": " +:+ subject +:+ blocks) with (String ":" (String " " (subject +:+ blocks))).
  change (": " +:+ subject +:+ more) with (String ":" (String " " (subject +:+ more))).
  rewrite (trimEnd_cons ":" _ eq_refl). intros [= H].
  destruct (String.eqb_spec (trimEnd blocks) "") as [Hb|Hb].
  - left. simpl in H. rewrite (trimEnd_blank _ _ Hb) in H.
    assert (Hsu : trimEnd subject = subject +:+ more).
    { destruct (trimEnd subject); [discriminate H | by injection H]. }
    apply trimEnd_extends in Hsu as [_ Hsu]. split; [|done].
    intros Hs. rewrite Hs in H. discriminate H.
  - right. destruct (String.eqb_spec (trimEnd body) "") as [Hbody|]; [|by left].
    right. intros Hfooter. apply Hb. by apply trimEnd_blocks.
Qed.

End Scoped.

(** C2 (amended): with an empty scope the message is the trimmed text
    [type: subject] followed by the non-empty blocks, and it holds a
    parenthesis exactly when one of its fields does.  With a non-empty
    scope it is the trimmed text [type(scope): subject] followed by the
    non-empty blocks.  It begins with exactly [type(scope): subject] if
    and only if the final trim leaves the header alone: the type has no
    leading whitespace, and the subject is non-empty without trailing
    whitespace or the body or the footer has a visible character; what
    follows the header is then the blocks without their trailing
    whitespace.  It is exactly [type(scope): subject] if and only if the
    type has no leading whitespace, the subject is non-empty without
    trailing whitespace, and body and footer are blank.  With empty body
    and footer the message is the trimmed header alone, and no message
    begins or ends with whitespace.  The record of the specification's
    example serializes to ["feat(api): add auth"]. *)
Theorem serialize_scope_segment :
  (∀ answers,
     let type := field answers "type" in
     let scope := field answers "scope" in
     let subject := field answers "subject" in
     let body := field answers "body" in
     let footer := field answers "footer" in
     let blocks := block body +:+ block footer in
     let header := type +:+ "(" +:+ scope +:+ "): " +:+ subject in
     (scope = "" →
        serialize answers = trim (type +:+ ": " +:+ subject +:+ blocks)
        ∧ has_parenthesis (serialize answers)
          = has_parenthesis type || has_parenthesis subject
            || has_parenthesis body || has_parenthesis footer)
     ∧ (scope ≠ "" →
          serialize answers = trim (header +:+ blocks)
          ∧ (trimStart type = type →
             subject ≠ "" ∧ trimEnd subject = subject
             ∨ trimEnd body ≠ "" ∨ trimEnd footer ≠ "" →
             serialize answers = header +:+ trimEnd blocks)
          ∧ ((∃ more, serialize answers = header +:+ more) →
             trimStart type = type
             ∧ (subject ≠ "" ∧ trimEnd subject = subject
                ∨ trimEnd body ≠ "" ∨ trimEnd footer ≠ ""))
          ∧ (serialize answers = header
             ↔ trimStart type = type ∧ subject ≠ "" ∧ trimEnd subject = subject
               ∧ trimEnd body = "" ∧ trimEnd footer = ""))
     ∧ (body = "" → footer = "" → serialize answers = trim (serializeHeader answers))
     ∧ trimStart (serialize answers) = serialize answers
     ∧ trimEnd (serialize answers) = serialize answers)
  ∧ serialize feat_api = "feat(api): add auth".
Proof.
  split; [|by vm_compute].
  intros answers type scope subject body footer blocks header.
  assert (Hexact : scope ≠ "" → trimStart type = type →
                   subject ≠ "" ∧ trimEnd subject = subject
                   ∨ trimEnd body ≠ "" ∨ trimEnd footer ≠ "" →
                   serialize answers = header +:+ trimEnd blocks).
  { intros Hs Ht Hk. rewrite (serialize_scoped_from_type answers Hs Ht).
    rewrite (tail_kept answers Hk). unfold header. by rewrite !append_assoc. }
  assert (Hprefix : scope ≠ "" → (∃ more, serialize answers = header +:+ more) →
                    trimStart type = type
                    ∧ (subject ≠ "" ∧ trimEnd subject = subject
                       ∨ trimEnd body ≠ "" ∨ trimEnd footer ≠ "")).
  { intros Hs [more Hm].
    assert (Ht : trimStart type = type).
    { pose proof (trim_trimStart
                    (serializeHeader answers +:+ block body +:+ block footer)) as Hfix.
      change (trimStart (serialize answers) = serialize answers) in Hfix.
      rewrite Hm in Hfix. unfold header in Hfix.
      destruct type as [|c t'] eqn:Et; [done|].
      rewrite !append_cons in Hfix. apply trimStart_head in Hfix.
      simpl. by rewrite Hfix. }
    split; [done|].
    rewrite (serialize_scoped_from_type answers Hs Ht) in Hm.
    unfold header in Hm. rewrite !append_assoc in Hm.
    do 3 apply append_cancel in Hm.
    change ("): " +:+ subject +:+ more) with (")" +:+ ": " +:+ subject +:+ more) in Hm.
    apply append_cancel in Hm.
    by apply (tail_extends answers more). }
  split; [|split; [|split; [|split]]].
  - intros Hs. split.
    + unfold serialize. rewrite (serializeHeader_unscoped _ Hs).
      by rewrite !append_assoc.
    + unfold serialize. rewrite has_parenthesis_trim.
      rewrite (serializeHeader_unscoped _ Hs).
      rewrite !has_parenthesis_append, !has_parenthesis_block.
      fold type subject body footer. simpl. apply Bool.orb_assoc.
  - intros Hs. split; [|split; [|split]].
    + unfold serialize. by rewrite (serializeHeader_scoped _ Hs).
    + by apply Hexact.
    + by apply Hprefix.
    + split.
      * intros Heq.
        destruct (Hprefix Hs) as [Ht Hk].
        { exists "". by rewrite append_empty_r. }
        pose proof (Hexact Hs Ht Hk) as Hx. rewrite Heq in Hx.
        rewrite <- (append_empty_r header) in Hx at 1.
        apply append_cancel in Hx. symmetry in Hx.
        apply trimEnd_blocks in Hx as [Hbody Hfooter].
        destruct Hk as [[Hne Hsu] | [Hk | Hk]]; done.
      * intros (Ht & Hne & Hsu & Hbody & Hfooter).
        rewrite (Hexact Hs Ht); [|by left].
        assert (Hb : trimEnd blocks = "") by (by apply trimEnd_blocks).
        rewrite Hb. apply append_empty_r.
  - intros Hb Hf. unfold serialize. fold body footer. rewrite Hb, Hf.
    change (block "") with "". by rewrite !append_empty_r.
  - apply trim_trimStart.
  - apply trim_trimEnd.
Qed.

End Serialization.

(** * Worked examples *)

Import PromptTypes ConventionalCommits.

(** C1 (as stated): with an explicit target and no candidate the failure is
    [RepositoryNotFoundError], not [NoRepositoryError]. *)
Lemma getRepository_target_without_candidates :
  outcome (getRepository Sample.nls Sample.basename ([] : list (Repository ()))
             (Sample.target "/work/app") None Sample.idle)
  = Rejected (RepositoryNotFoundError "/work/app")
  ∧ outcome (getRepository Sample.nls Sample.basename ([] : list (Repository ()))
               (Sample.target "/work/app") None Sample.idle)
    ≠ Rejected NoRepositoryError.
Proof. split; [by vm_compute | vm_compute; discriminate]. Qed.

(** C1 (amended) on the sample repositories. *)
Lemma getRepository_policy_witness :
  outcome (getRepository Sample.nls Sample.basename ([] : list (Repository ()))
             None None Sample.idle)
  = Rejected NoRepositoryError
  ∧ outcome (getRepository Sample.nls Sample.basename [Sample.app; Sample.lib]
               (Sample.target "/work/lib") None Sample.idle)
    = Resolved (Some Sample.lib)
  ∧ outcome (getRepository Sample.nls Sample.basename [Sample.app; Sample.lib]
               (Sample.target "/work/doc") None Sample.idle)
    = Rejected (RepositoryNotFoundError "/work/doc")
  ∧ outcome (getRepository Sample.nls Sample.basename [Sample.app]
               None None Sample.idle)
    = Resolved (Some Sample.app).
Proof.
  split; [|split; [|split]].
  - destruct (Resolution.getRepository_policy Sample.nls Sample.basename
                ([] : list (Repository ())) None None Sample.idle)
      as (H & _).
    apply H; reflexivity.
  - destruct (Resolution.getRepository_policy Sample.nls Sample.basename
                [Sample.app; Sample.lib] (Sample.target "/work/lib") None
                Sample.idle) as (_ & H & _).
    destruct (H "/work/lib" Sample.lib) as (found & Hfind & _ & _ & Hout);
      [reflexivity | repeat constructor | reflexivity |].
    vm_compute in Hfind. injection Hfind as <-. exact Hout.
  - destruct (Resolution.getRepository_policy Sample.nls Sample.basename
                [Sample.app; Sample.lib] (Sample.target "/work/doc") None
                Sample.idle) as (_ & _ & H & _).
    apply H; [reflexivity|].
    intros repo Hin. apply list_elem_of_In in Hin. simpl in Hin.
    destruct Hin as [<- | [<- | []]]; vm_compute; discriminate.
  - destruct (Resolution.getRepository_policy Sample.nls Sample.basename
                [Sample.app] None None Sample.idle) as (_ & _ & _ & H).
    apply (H Sample.app); reflexivity.
Defined.

(** C9 on the sample repositories. *)
Lemma explicit_target_precedes_count_witness :
  outcome (getRepository Sample.nls Sample.basename ([] : list (Repository ()))
             (Sample.target "/work/app") None Sample.idle)
  = Rejected (RepositoryNotFoundError "/work/app")
  ∧ outcome (getRepository Sample.nls Sample.basename [Sample.app; Sample.lib]
               (Sample.target "/work/doc") None Sample.idle)
    = Rejected (RepositoryNotFoundError "/work/doc")
  ∧ (explicitTarget None = None ∧ ([] : list (Repository ())) = []).
Proof.
  split; [|split].
  - destruct (Resolution.explicit_target_precedes_count Sample.nls Sample.basename
                [Sample.app] (Sample.target "/work/app") None Sample.idle)
      as (_ & H & _).
    apply H. reflexivity.
  - destruct (Resolution.explicit_target_precedes_count Sample.nls Sample.basename
                [Sample.app; Sample.lib] (Sample.target "/work/doc") None
                Sample.idle) as (H & _).
    apply H; [reflexivity|].
    intros repo Hin. apply list_elem_of_In in Hin. simpl in Hin.
    destruct Hin as [<- | [<- | []]]; vm_compute; discriminate.
  - destruct (Resolution.explicit_target_precedes_count Sample.nls Sample.basename
                ([] : list (Repository ())) None None Sample.idle)
      as (_ & _ & H).
    apply H. reflexivity.
Defined.

(** C7 on the sample repositories: the two items of the choice list. *)
Lemma repository_prompt_items_witness :
  Host.shown
    (host (getRepository Sample.nls Sample.basename [Sample.app; Sample.lib]
             None (Some Sample.folders) Sample.idle))
  = [QuickPickShown Sample.prompt]
  ∧ length (SimpleQuickPickOptions.items Sample.prompt) = 2
  ∧ (∃ item, SimpleQuickPickOptions.items Sample.prompt !! 0 = Some item
             ∧ Item.label item = "application"
             ∧ Item.description item = Some "main*")
  ∧ (∃ item, SimpleQuickPickOptions.items Sample.prompt !! 1 = Some item
             ∧ Item.label item = "lib"
             ∧ Item.description item = Some "01234567").
Proof.
  destruct (Resolution.repository_prompt_items Sample.nls Sample.basename
              [Sample.app; Sample.lib] None (Some Sample.folders)
              Sample.idle) as (Hshown & Hlen & Hitems);
    [reflexivity | simpl; lia |].
  split; [exact Hshown|]. split; [exact Hlen|]. split.
  - destruct (Hitems 0 Sample.app eq_refl)
      as (item & Hi & _ & Hfolder & _ & _ & head & Hpending & _ & Hname & _).
    exists item. split; [exact Hi|]. split.
    + apply (Hfolder {| WorkspaceFolder.uri := "/work/app";
                        WorkspaceFolder.name := "application";
                        WorkspaceFolder.index := 0 |});
        [reflexivity | discriminate].
    + rewrite Hpending; [|left; discriminate].
      rewrite (Hname _ "main" eq_refl eq_refl); [reflexivity | discriminate].
  - destruct (Hitems 1 Sample.lib eq_refl)
      as (item & Hi & _ & _ & Hbase & _ & head & _ & Hclean & _ & Hcommit).
    exists item. split; [exact Hi|]. split.
    + rewrite Hbase; reflexivity.
    + rewrite Hclean; [|intros [H|[H|H]]; apply H; reflexivity].
      rewrite (Hcommit _ "0123456789abcdef" eq_refl (or_introl eq_refl) eq_refl).
      reflexivity.
Defined.

(** C5 on the sample type step: the none item and an ordinary item. *)
Lemma createQuickPick_none_coercion_witness :
  outcome (createQuickPick Sample.type
             (Sample.user [Selected [Sample.none]] [] ∅)) = Resolved ""
  ∧ outcome (createQuickPick Sample.type
               (Sample.user [Selected [Sample.item "fix" None]] [] ∅))
    = Resolved "fix".
Proof.
  split.
  - destruct (Handlers.createQuickPick_none_coercion Sample.type
                (Sample.user [Selected [Sample.none]] [] ∅) Sample.none [] []
                eq_refl) as (H & _).
    apply (H Sample.none); reflexivity.
  - destruct (Handlers.createQuickPick_none_coercion Sample.type
                (Sample.user [Selected [Sample.item "fix" None]] [] ∅)
                (Sample.item "fix" None) [] [] eq_refl) as (_ & H & _).
    apply (H Sample.none); [reflexivity | discriminate].
Defined.

(** C6 on the sample subject input. *)
Lemma createInputBox_validation_witness :
  outcome (createInputBox Sample.subject
             (Sample.user [] [[DidAccept; DidChangeValue "fix typo"; DidAccept]] ∅))
  = Resolved "fix typo"
  ∧ outcome (createInputBox Sample.subject (Sample.user [] [[DidAccept]] ∅))
    = Pending
  ∧ outcome (createInputBox Sample.subject
               (Sample.user [] [[DidAccept; DidChangeValue "fix typo"; DidAccept]] ∅))
    ≠ Resolved ""
  ∧ onDidAccept Sample.subject InputBox.initial
    = (InputBox.with_validationMessage (Some "A subject is required.")
         InputBox.initial, Pending)
  ∧ onDidAccept Sample.subject (InputBox.with_value "fix typo" InputBox.initial)
    = (InputBox.dispose
         (InputBox.with_validationMessage None
            (InputBox.with_value "fix typo" InputBox.initial)),
       Resolved "fix typo")
  ∧ onDidChangeValue Sample.subject (InputBox.with_value "" InputBox.initial)
    = (InputBox.with_validationMessage (Some "A subject is required.")
         (InputBox.with_value "" InputBox.initial), Pending)
  ∧ fst (deliver Sample.subject InputBox.initial [DidChangeValue ""])
    = InputBox.with_validationMessage (Some "A subject is required.")
        (InputBox.with_value "" InputBox.initial).
Proof.
  destruct (Handlers.createInputBox_validation Sample.subject)
    as (_ & Hnever & Hblocked & Hpass & Hlive & _ & Hsubmit & Htyped).
  split; [|split; [|split; [|split; [|split; [|split]]]]].
  - destruct (Hsubmit
                (Sample.user [] [[DidAccept; DidChangeValue "fix typo"; DidAccept]] ∅)
                [DidAccept; DidChangeValue "fix typo"] [] []
                (InputBox.with_validationMessage None
                   (InputBox.with_value "fix typo"
                      (InputBox.with_validationMessage
                         (Some "A subject is required.") InputBox.initial))))
      as (Hresolves & _).
    + reflexivity.
    + intros Hin. apply list_elem_of_In in Hin. simpl in Hin.
      destruct Hin as [H|[H|[]]]; discriminate.
    + reflexivity.
    + apply (Hresolves None); reflexivity.
  - destruct (Hsubmit (Sample.user [] [[DidAccept]] ∅) [] [] [] InputBox.initial)
      as (_ & Hstays).
    + reflexivity.
    + intros Hin. apply list_elem_of_In in Hin. destruct Hin.
    + reflexivity.
    + destruct (Hstays "A subject is required.") as (Hopen & _);
        [reflexivity | discriminate |].
      apply Hopen. reflexivity.
  - apply (Hnever _ "" "A subject is required."); [reflexivity | reflexivity | discriminate].
  - apply (Hblocked InputBox.initial "A subject is required." []);
      [reflexivity | discriminate].
  - apply (Hpass (InputBox.with_value "fix typo" InputBox.initial) None "fix typo");
      reflexivity.
  - apply (Hlive InputBox.initial "" (Some "A subject is required.") []).
    reflexivity.
  - destruct (Htyped (Sample.user [] [[DidChangeValue ""]] ∅) [] "" []
                InputBox.initial (Some "A subject is required.")) as (_ & Hbox).
    + reflexivity.
    + intros Hin. apply list_elem_of_In in Hin. destruct Hin.
    + reflexivity.
    + reflexivity.
    + exact Hbox.
Defined.

(** C4 on the sample scope step. *)
Lemma configurable_persistence_witness :
  Host.settings (host (Sample.remember [DidChangeValue "api"; DidAccept]))
  = <["scopes" := ["core"; "api"]]> {["scopes" := ["core"]]}
  ∧ "api" ∈ currentValus Sample.scope
              (host (Sample.remember [DidChangeValue "api"; DidAccept]))
  ∧ Host.settings (host (Sample.remember [DidAccept])) = {["scopes" := ["core"]]}
  ∧ Host.settings (host Sample.once) = {["scopes" := ["core"]]}.
Proof.
  assert (Hnone : ∀ first, first = Sample.newScope ∨ first = Sample.newScopeOnce →
            ∀ n, ConfigurableQuickPickOptions.noneItem Sample.scope = Some n →
                 Item.label n ≠ Item.label first).
  { intros first [-> | ->] n [= <-]; discriminate. }
  destruct (Handlers.configurable_persistence Sample.nls Sample.scope
              (Sample.user [Selected [Sample.newScope]]
                 [[DidChangeValue "api"; DidAccept]] {["scopes" := ["core"]]})
              Sample.newScope [] [] eq_refl (Hnone _ (or_introl eq_refl)))
    as (Hremember & _).
  destruct (Hremember eq_refl [DidChangeValue "api"; DidAccept] [] "api" eq_refl eq_refl)
    as (Hentered & _).
  destruct Hentered as (Hsettings & Hnext); [discriminate|].
  destruct (Handlers.configurable_persistence Sample.nls Sample.scope
              (Sample.user [Selected [Sample.newScope]]
                 [[DidAccept]] {["scopes" := ["core"]]})
              Sample.newScope [] [] eq_refl (Hnone _ (or_introl eq_refl)))
    as (Hempty & _).
  destruct (Hempty eq_refl [DidAccept] [] "" eq_refl eq_refl) as (_ & Hempty').
  destruct (Handlers.configurable_persistence Sample.nls Sample.scope
              (Sample.user [Selected [Sample.newScopeOnce]]
                 [[DidChangeValue "api"; DidAccept]] {["scopes" := ["core"]]})
              Sample.newScopeOnce [] [] eq_refl (Hnone _ (or_intror eq_refl)))
    as (_ & Honce).
  split; [exact Hsettings|]. split; [exact Hnext|]. split.
  - apply Hempty'. reflexivity.
  - apply Honce; [reflexivity | discriminate].
Defined.

(** C10 on the sample scope step. *)
Lemma configurable_label_dispatch_witness :
  (outcome (createConfigurableQuickPick Sample.nls Sample.scope Sample.twice)
   = Resolved "api"
   ∧ Host.shown
       (host (createConfigurableQuickPick Sample.nls Sample.scope Sample.twice))
     = [QuickPickShown
          (simpleQuickPickOptions (quickPickOptions Sample.nls [] Sample.scope));
        inputBoxWidget (nestedInputBox Sample.scope Sample.newScope);
        inputBoxWidget (nestedInputBox Sample.scope Sample.newScopeOnce)]
   ∧ Host.settings
       (host (createConfigurableQuickPick Sample.nls Sample.scope Sample.twice))
     = {["scopes" := ["New scope (only use once)"]]})
  ∧ ∃ more,
      Host.shown
        (host (createConfigurableQuickPick Sample.nls Sample.scope Sample.listed))
      = [QuickPickShown
           (simpleQuickPickOptions
              (quickPickOptions Sample.nls ["New scope"] Sample.scope));
         inputBoxWidget (nestedInputBox Sample.scope Sample.newScope)] ++ more.
Proof.
  split.
  - destruct (Handlers.configurable_label_dispatch Sample.nls Sample.scope Sample.twice)
      as (Htwice & _).
    destruct (Htwice Sample.newScope [] []
                [DidChangeValue "New scope (only use once)"; DidAccept]
                [DidChangeValue "api"; DidAccept] [] "New scope (only use once)"
                eq_refl) as (Hout & Hshown & Hset);
      [intros n [= <-]; discriminate | reflexivity | reflexivity | reflexivity
      | reflexivity |].
    split; [exact Hout|]. split; [exact Hshown|].
    apply Hset. discriminate.
  - destruct (Handlers.configurable_label_dispatch Sample.nls Sample.scope
                Sample.listed)
      as (_ & Hlisted).
    destruct (Hlisted "New scope" [] []) as (Hcreate & _);
      [repeat constructor | reflexivity | intros n [= <-]; discriminate |].
    destruct (Hcreate eq_refl) as [more Hmore]. exists more. exact Hmore.
Defined.

(** C3 (as stated): a dismissed input is no cancellation outcome, and a
    sequence abandoned at the subject has already remembered the new
    scope. *)
Lemma dismissed_input_is_no_cancellation :
  outcome Sample.dismissedBox = Pending
  ∧ (∀ e, outcome Sample.dismissedBox ≠ Rejected e)
  ∧ outcome Sample.dismissedSequence = Pending
  ∧ Host.settings (host Sample.dismissedSequence) !! "scopes" = Some ["api"]
  ∧ Host.settings (host Sample.dismissedSequence) ≠ ∅.
Proof.
  split; [by vm_compute|]. split; [intros e; vm_compute; discriminate|].
  split; [by vm_compute|].
  assert (H : Host.settings (host Sample.dismissedSequence) !! "scopes" = Some ["api"])
    by (by vm_compute).
  split; [exact H|]. intros Heq. rewrite Heq in H. discriminate.
Qed.

(** C3 (amended) on the sample sequences: a dismissed input, a dismissed
    nested input, a choice list that rejects and one left unsettled. *)
Lemma dismissed_step_never_completes_witness :
  (outcome Sample.abandoned = Pending
   ∧ Host.settings (host Sample.abandoned) = {["scopes" := ["core"]]})
  ∧ (outcome Sample.abandonedNested = Pending
     ∧ Host.settings (host Sample.abandonedNested) = {["scopes" := ["core"]]})
  ∧ (outcome
       ((Prompts.promptSequence Sample.nls
           [QUICK_PICK "type" Sample.type; CONFIGURABLE_QUICK_PICK "scope" Sample.scope;
            INPUT_BOX "subject" Sample.subject] ∅
         ≫= Sample.handOff)
          (Sample.user [Selected [Sample.type_fix]; Failed "dismissed"] []
             {["scopes" := ["core"]]}))
     = Rejected (Thrown "dismissed"))
  ∧ (outcome
       ((Prompts.promptSequence Sample.nls
           [QUICK_PICK "type" Sample.type; INPUT_BOX "subject" Sample.subject] ∅
         ≫= Sample.handOff)
          (Sample.user [Unsettled] [] {["scopes" := ["core"]]}))
     = Pending).
Proof.
  destruct (Handlers.dismissed_step_never_completes Sample.nls Sample.handOff
              [QUICK_PICK "type" Sample.type] [] ∅ Sample.dismissing
              (<["type" := "fix"]> ∅)
              (host (Prompts.promptSequence Sample.nls
                       [QUICK_PICK "type" Sample.type] ∅ Sample.dismissing))
              eq_refl)
    as (Hinput & _).
  destruct (Hinput "subject" Sample.subject [DidChangeValue "fix typo"] [] []
              eq_refl eq_refl) as (_ & Hout & Hset).
  destruct (Handlers.dismissed_step_never_completes Sample.nls Sample.handOff
              [QUICK_PICK "type" Sample.type] [INPUT_BOX "subject" Sample.subject]
              ∅ Sample.dismissing (<["type" := "fix"]> ∅)
              (host (Prompts.promptSequence Sample.nls
                       [QUICK_PICK "type" Sample.type] ∅ Sample.dismissing))
              eq_refl)
    as (_ & Hnested & _).
  destruct (Hnested "scope" Sample.scope [DidChangeValue "fix typo"] [] []
              Sample.newScopeOnce [] [] Sample.newScopeOnce eq_refl eq_refl)
    as (_ & Hout' & Hset');
    [intros n [= <-]; discriminate | reflexivity
    | right; split; [reflexivity | discriminate] | reflexivity |].
  destruct (Handlers.dismissed_step_never_completes Sample.nls Sample.handOff
              [QUICK_PICK "type" Sample.type] [INPUT_BOX "subject" Sample.subject]
              ∅
              (Sample.user [Selected [Sample.type_fix]; Failed "dismissed"] []
                 {["scopes" := ["core"]]})
              (<["type" := "fix"]> ∅)
              (host (Prompts.promptSequence Sample.nls
                       [QUICK_PICK "type" Sample.type] ∅
                       (Sample.user [Selected [Sample.type_fix]; Failed "dismissed"]
                          [] {["scopes" := ["core"]]})))
              eq_refl)
    as (_ & _ & Hlist & _).
  destruct (Hlist (CONFIGURABLE_QUICK_PICK "scope" Sample.scope) _
              (or_intror (ex_intro _ "scope" (ex_intro _ Sample.scope
                                                (conj eq_refl eq_refl)))))
    as (_ & _ & Hfailed & _).
  destruct (Handlers.dismissed_step_never_completes Sample.nls Sample.handOff
              [] [INPUT_BOX "subject" Sample.subject] ∅
              (Sample.user [Unsettled] [] {["scopes" := ["core"]]})
              ∅ (Sample.user [Unsettled] [] {["scopes" := ["core"]]}) eq_refl)
    as (_ & _ & Hlist' & _).
  destruct (Hlist' (QUICK_PICK "type" Sample.type) _
              (or_introl (ex_intro _ "type" (ex_intro _ Sample.type
                                               (conj eq_refl eq_refl)))))
    as (_ & Hunsettled & _).
  split; [by split|]. split; [by split|]. split.
  - unfold outcome.
    exact (f_equal fst (Hfailed "dismissed" [] eq_refl)).
  - unfold outcome.
    exact (f_equal fst (Hunsettled [] eq_refl)).
Defined.

(** C2 (as stated): a type with a leading space loses it, and the header
    of a record without subject loses its final space, so neither message
    begins with [type(scope): subject]. *)
Lemma serialize_header_not_exact :
  (CommitMessage.field Sample.padded_type "scope" ≠ ""
   ∧ CommitMessage.serialize Sample.padded_type = "feat(api): add auth"
   ∧ CommitMessage.serialize Sample.padded_type
     ≠ CommitMessage.field Sample.padded_type "type"
       +:+ "(" +:+ CommitMessage.field Sample.padded_type "scope" +:+ "): "
       +:+ CommitMessage.field Sample.padded_type "subject"
   ∧ ¬ ∃ more,
         CommitMessage.serialize Sample.padded_type
         = CommitMessage.field Sample.padded_type "type"
           +:+ "(" +:+ CommitMessage.field Sample.padded_type "scope" +:+ "): "
           +:+ CommitMessage.field Sample.padded_type "subject" +:+ more)
  ∧ (CommitMessage.field Sample.no_subject "scope" ≠ ""
     ∧ CommitMessage.serialize Sample.no_subject = "feat(api):"
     ∧ CommitMessage.serialize Sample.no_subject
       ≠ CommitMessage.field Sample.no_subject "type"
         +:+ "(" +:+ CommitMessage.field Sample.no_subject "scope" +:+ "): "
         +:+ CommitMessage.field Sample.no_subject "subject").
Proof.
  split; [split; [|split; [|split]] | split; [|split]].
  - vm_compute. discriminate.
  - vm_compute. reflexivity.
  - vm_compute. discriminate.
  - intros [more Hmore]. vm_compute in Hmore. discriminate Hmore.
  - vm_compute. discriminate.
  - vm_compute. reflexivity.
  - vm_compute. discriminate.
Qed.

(** C2 (amended) on the example records of the specification. *)
Lemma serialize_scope_segment_witness :
  (CommitMessage.serialize CommitMessage.feat_api
   = "feat" +:+ "(" +:+ "api" +:+ "): " +:+ "add auth"
   ∧ CommitMessage.serialize CommitMessage.feat_api = "feat(api): add auth")
  ∧ CommitMessage.has_parenthesis (CommitMessage.serialize Sample.fix_typo) = false
  ∧ CommitMessage.serialize (<["footer" := ""]> Sample.fix_typo) = "fix: typo"
  ∧ CommitMessage.serialize (<["body" := "Closes the gap."]> CommitMessage.feat_api)
    = "feat" +:+ "(" +:+ "api" +:+ "): " +:+ "add auth"
      +:+ CommitMessage.trimEnd
            (CommitMessage.block "Closes the gap." +:+ CommitMessage.block "").
Proof.
  destruct Serialization.serialize_scope_segment as (Hall & Hexample).
  split; [split; [|exact Hexample]|split; [|split]].
  - destruct (Hall CommitMessage.feat_api) as (_ & Hscoped & _).
    destruct Hscoped as (_ & _ & _ & Hexact); [discriminate|].
    apply Hexact.
    split; [reflexivity|]. split; [discriminate|].
    split; [reflexivity|]. split; reflexivity.
  - destruct (Hall Sample.fix_typo) as (Hunscoped & _).
    destruct Hunscoped as (_ & Hplain); [reflexivity|].
    rewrite Hplain. reflexivity.
  - destruct (Hall (<["footer" := ""]> Sample.fix_typo)) as (_ & _ & Halone & _).
    rewrite Halone; reflexivity.
  - destruct (Hall (<["body" := "Closes the gap."]> CommitMessage.feat_api))
      as (_ & Hscoped & _).
    destruct Hscoped as (_ & Hkept & _); [discriminate|].
    apply Hkept; [reflexivity|]. left. split; [discriminate | reflexivity].
Defined.

(** * Further properties *)

(** ** The input box *)

Module InputBoxFacts.
Import PromptTypes Observations.

Lemma deliver_settled o input events more :
  snd (deliver o input events) ≠ Pending →
  deliver o input (events ++ more) = deliver o input events.
Proof.
  revert input. induction events as [|ev events IH]; intros input; simpl; [done|].
  destruct ev as [v| |]; [| |done].
  - destruct (onDidChangeValue o (InputBox.with_value v input)) as [input' [r|e|]];
      [done|done|]. apply IH.
  - destruct (onDidAccept o input) as [input' [r|e|]]; [done|done|]. apply IH.
Qed.

Lemma deliver_typed o input values events :
  (∀ v, v ∈ values →
        ∃ m, validate_or_default (InputBoxOptions.validate o) v = Normal m) →
  ∃ input',
    InputBox.value input' = typed input values
    ∧ InputBox.disposed input' = InputBox.disposed input
    ∧ deliver o input (map DidChangeValue values ++ events) = deliver o input' events.
Proof.
  revert input. induction values as [|v values IH]; intros input Hv.
  - exists input. done.
  - destruct (Hv v) as [m Hm]; [by left|].
    destruct (IH (InputBox.with_validationMessage m (InputBox.with_value v input)))
      as (input' & Hval & Hdis & Hdel).
    { intros x Hx. apply Hv. by right. }
    exists input'. split; [|split; [done|]].
    + rewrite Hval. unfold typed. destruct values as [|w values]; [done|].
      change (last (v :: w :: values)) with (last (w :: values)).
      destruct (last (w :: values)) eqn:E; [done|].
      by apply last_None in E.
    + simpl. unfold onDidChangeValue. simpl. rewrite Hm. apply Hdel.
Qed.

Lemma with_boxes_boxes boxes h : Host.boxes (Host.with_boxes boxes h) = boxes.
Proof. done. Qed.

(** X1: once the promise of a free-text input is settled (resolved or
    rejected), whatever the user does afterwards changes nothing: the
    outcome is that of the events up to the settlement. *)
Theorem createInputBox_first_settlement_wins o h events more rest :
  Host.boxes h = events :: rest →
  outcome (createInputBox o h) ≠ Pending →
  outcome (createInputBox o (Host.with_boxes ((events ++ more) :: rest) h))
  = outcome (createInputBox o h).
Proof.
  intros Hb. rewrite (Handlers.createInputBox_run _ _ _ _ Hb).
  rewrite (Handlers.createInputBox_run o _ (events ++ more) rest
             (with_boxes_boxes _ h)).
  unfold outcome. simpl. intros Hs. by rewrite (deliver_settled _ _ _ more Hs).
Qed.

(** X2: when the user types values (none of which makes the validation
    throw) and then submits, the outcome is decided by the last value typed
    (the empty string when nothing was typed): it resolves with the
    formatted value when validation passes, rejects with the exception of a
    throwing formatter or validation, and stays open with the message
    stored when validation returns a message, the later events deciding. *)
Theorem createInputBox_typed_then_accepted o h values events rest :
  let validate := validate_or_default (InputBoxOptions.validate o) in
  let format := format_or_default (InputBoxOptions.format o) in
  let v := default "" (last values) in
  Host.boxes h = (map DidChangeValue values ++ DidAccept :: events) :: rest →
  (∀ x, x ∈ values → ∃ m, validate x = Normal m) →
  (∀ m r,
     validate v = Normal m → Js.truthy_opt m = false → format v = Normal r →
     outcome (createInputBox o h) = Resolved r)
  ∧ (∀ m e,
       validate v = Normal m → Js.truthy_opt m = false → format v = Throw e →
       outcome (createInputBox o h) = Rejected e)
  ∧ (∀ e, validate v = Throw e → outcome (createInputBox o h) = Rejected e)
  ∧ (∀ message,
       validate v = Normal (Some message) → message ≠ "" →
       outcome (createInputBox o h)
       = snd (deliver o
                {| InputBox.value := v;
                   InputBox.validationMessage := Some message;
                   InputBox.disposed := false |} events)).
Proof.
  intros validate format v Hb Hv.
  rewrite (Handlers.createInputBox_run _ _ _ _ Hb). unfold outcome. simpl.
  destruct (deliver_typed o InputBox.initial values (DidAccept :: events) Hv)
    as (input & Hval & Hdis & ->).
  change (typed InputBox.initial values) with v in Hval.
  simpl. unfold onDidAccept. simpl. rewrite !Hval. fold validate format.
  split; [|split; [|split]].
  - intros m r Hm Ht Hf. rewrite Hm. simpl. by rewrite Ht, Hf.
  - intros m e Hm Ht Hf. rewrite Hm. simpl. by rewrite Ht, Hf.
  - intros e He. by rewrite He.
  - intros message Hm Hne. rewrite Hm. simpl.
    apply truthy_true in Hne. rewrite Hne. simpl.
    destruct input as [value message' disposed]. simpl in *. by subst.
Qed.

(** X3: a validation that throws while the user types rejects the
    step with that exception at once, whatever the user does afterwards. *)
Theorem createInputBox_validation_exception o h values v e events rest :
  let validate := validate_or_default (InputBoxOptions.validate o) in
  Host.boxes h
  = (map DidChangeValue values ++ DidChangeValue v :: events) :: rest →
  (∀ x, x ∈ values → ∃ m, validate x = Normal m) →
  validate v = Throw e →
  outcome (createInputBox o h) = Rejected e
  ∧ ∀ more,
      outcome (createInputBox o
                 (Host.with_boxes
                    ((map DidChangeValue values ++ DidChangeValue v :: more) :: rest)
                    h))
      = Rejected e.
Proof.
  intros validate Hb Hv He.
  assert (Hany : ∀ more,
            snd (deliver o InputBox.initial
                   (map DidChangeValue values ++ DidChangeValue v :: more))
            = Rejected e).
  { intros more.
    destruct (deliver_typed o InputBox.initial values (DidChangeValue v :: more) Hv)
      as (input & _ & _ & ->).
    simpl. unfold onDidChangeValue. simpl. fold validate. by rewrite He. }
  split.
  - rewrite (Handlers.createInputBox_run _ _ _ _ Hb). apply Hany.
  - intros more.
    rewrite (Handlers.createInputBox_run o _ _ rest (with_boxes_boxes _ h)).
    apply Hany.
Qed.

End InputBoxFacts.

(** ** The growable choice *)

Module GrowableChoice.
Import PromptTypes.

Section GrowableChoice.
Variable nls : Localize.NLS.
Variable o : ConfigurableQuickPickOptions.t.

Local Abbreviation configurationKey := (ConfigurableQuickPickOptions.configurationKey o).
Local Abbreviation newItem := (ConfigurableQuickPickOptions.newItem o).
Local Abbreviation newItemWithoutSetting :=
  (ConfigurableQuickPickOptions.newItemWithoutSetting o).
Local Abbreviation format := (format_or_default (ConfigurableQuickPickOptions.format o)).
Local Abbreviation choiceList h :=
  (QuickPickShown (simpleQuickPickOptions (quickPickOptions nls (currentValus o h) o))).

(** What follows the choice list, lines 149-168. *)
Local Abbreviation continue selected current :=
  (createAndRemember o current selected
   ≫= λ selectedValue,
        createWithoutSetting o selectedValue
        ≫= λ selectedValue, complete (format selectedValue)).

Lemma configurable_not_selected h :
  (∀ first rest picks, Host.picks h ≠ Selected (first :: rest) :: picks) →
  outcome (createConfigurableQuickPick nls o h)
  = match Host.picks h with
    | Selected [] :: _ => Rejected (TypeError "label")
    | Failed what :: _ => Rejected (Thrown what)
    | _ => Pending
    end
  ∧ Host.settings (host (createConfigurableQuickPick nls o h)) = Host.settings h
  ∧ Host.shown (host (createConfigurableQuickPick nls o h))
    = Host.shown h ++ [choiceList h].
Proof.
  intros Hp. unfold createConfigurableQuickPick, createQuickPick.
  unfold mbind, Async_bind, configuration_get, createSimpleQuickPick. simpl.
  fold (currentValus o h).
  destruct (Host.picks h) as [|[[|first rest]|what|] picks]; simpl; try done.
  exfalso. by eapply Hp.
Qed.

Lemma continue_other selected current h :
  selected ≠ Item.label newItem →
  selected ≠ Item.label newItemWithoutSetting →
  continue selected current h = (settle (format selected), h).
Proof.
  intros H1 H2.
  rewrite (bind_resolved _ _ _ _ _
             (Handlers.createAndRemember_other o current _ h H1)).
  unfold mbind, Async_bind, createWithoutSetting.
  destruct (String.eqb_spec selected
              (Item.label (ConfigurableQuickPickOptions.newItemWithoutSetting o)));
    [done|].
  simpl. by rewrite complete_run.
Qed.

Lemma continue_settings selected h :
  Host.settings (host (continue selected (currentValus o h) h)) = Host.settings h
  ∨ ∃ v, v ≠ ""
         ∧ Host.settings (host (continue selected (currentValus o h) h))
           = <[configurationKey := currentValus o h ++ [v]]> (Host.settings h).
Proof.
  destruct (String.eqb_spec selected (Item.label newItem)) as [->|Hne].
  - pose proof (Handlers.createAndRemember_created o (currentValus o h) h) as Hc.
    pose proof (Handlers.createInputBox_settings (nestedInputBox o newItem) h) as Hs.
    destruct (createInputBox (nestedInputBox o newItem) h) as [[v|e|] h'];
      simpl in Hs.
    + rewrite (bind_resolved _ _ _ _ _ Hc), Handlers.tail_settings.
      destruct (Js.truthy v) eqn:Ht.
      * right. exists v. split; [by apply truthy_true|]. simpl. by rewrite Hs.
      * by left.
    + rewrite (bind_rejected _ _ _ _ _ Hc). by left.
    + rewrite (bind_pending _ _ _ _ Hc). by left.
  - rewrite (bind_resolved _ _ _ _ _
               (Handlers.createAndRemember_other o (currentValus o h) _ h Hne)).
    left. apply Handlers.tail_settings.
Qed.

Lemma continue_shown selected current h :
  ∃ more, Host.shown (host (continue selected current h)) = Host.shown h ++ more.
Proof.
  destruct (String.eqb_spec selected (Item.label newItem)) as [->|Hne].
  - destruct (Handlers.created_shown o current h) as [more Hm]. by eexists.
  - rewrite (bind_resolved _ _ _ _ _
               (Handlers.createAndRemember_other o current _ h Hne)).
    rewrite Handlers.tail_shown. by eexists.
Qed.

(** X4: whatever the user does in a growable-choice step, the step
    leaves every other setting alone, and the persisted list of its key is
    either as it was or the old list with one non-empty value appended. *)
Theorem configurable_settings_append_only h :
  let run := createConfigurableQuickPick nls o h in
  (∀ key, key ≠ configurationKey →
          Host.settings (host run) !! key = Host.settings h !! key)
  ∧ (Host.settings (host run) = Host.settings h
     ∨ ∃ v, v ≠ ""
            ∧ Host.settings (host run)
              = <[configurationKey := currentValus o h ++ [v]]> (Host.settings h)).
Proof.
  intros run.
  assert (H : Host.settings (host run) = Host.settings h
     ∨ ∃ v, v ≠ ""
            ∧ Host.settings (host run)
              = <[configurationKey := currentValus o h ++ [v]]> (Host.settings h)).
  { subst run.
    destruct (Host.picks h) as [|[[|first rest]|what|] picks] eqn:Hp;
      try (left; apply configurable_not_selected; intros ? ? ?; by rewrite Hp).
    rewrite (Handlers.configurable_selected _ _ _ _ _ _ Hp).
    apply (continue_settings _ (picked nls o picks h)). }
  split; [|done].
  intros key Hne. destruct H as [->|(v & _ & ->)]; [done|].
  by rewrite lookup_insert_ne.
Qed.

(** X5: the first widget of a growable-choice step is a choice list
    whose items are the none item (if any), then the persisted values in
    their stored order, then the two synthetic items. *)
Theorem configurable_choice_list h :
  ∃ more,
    Host.shown (host (createConfigurableQuickPick nls o h))
    = Host.shown h ++ [choiceList h] ++ more
    ∧ SimpleQuickPickOptions.items
        (simpleQuickPickOptions (quickPickOptions nls (currentValus o h) o))
      = option_list (ConfigurableQuickPickOptions.noneItem o)
        ++ map (configurationItem nls) (currentValus o h)
        ++ [newItem; newItemWithoutSetting].
Proof.
  assert (Hitems : SimpleQuickPickOptions.items
        (simpleQuickPickOptions (quickPickOptions nls (currentValus o h) o))
      = option_list (ConfigurableQuickPickOptions.noneItem o)
        ++ map (configurationItem nls) (currentValus o h)
        ++ [newItem; newItemWithoutSetting]).
  { simpl. unfold pickerItems. simpl.
    by destruct (ConfigurableQuickPickOptions.noneItem o). }
  destruct (Host.picks h) as [|[[|first rest]|what|] picks] eqn:Hp;
    try (exists []; split; [|done]; rewrite app_nil_r;
         apply configurable_not_selected; intros ? ? ?; by rewrite Hp).
  rewrite (Handlers.configurable_selected _ _ _ _ _ _ Hp).
  destruct (continue_shown
              (selectedValue (ConfigurableQuickPickOptions.noneItem o)
                 (Item.label first))
              (currentValus o h) (picked nls o picks h)) as [more Hm].
  exists more. split; [|done]. rewrite Hm. simpl.
  by rewrite <- app_assoc.
Qed.

(** X6: choosing the none item of a growable-choice step (the
    synthetic labels being non-empty) settles with the formatter applied to
    the empty string, opens no input and leaves settings and event scripts
    as they are. *)
Theorem configurable_none_item h none rest picks :
  Host.picks h = Selected (none :: rest) :: picks →
  (∃ n, ConfigurableQuickPickOptions.noneItem o = Some n
        ∧ Item.label none = Item.label n) →
  Item.label newItem ≠ "" →
  Item.label newItemWithoutSetting ≠ "" →
  let run := createConfigurableQuickPick nls o h in
  outcome run = settle (format "")
  ∧ Host.settings (host run) = Host.settings h
  ∧ Host.shown (host run) = Host.shown h ++ [choiceList h]
  ∧ Host.boxes (host run) = Host.boxes h.
Proof.
  intros Hp (n & Hn & Hl) H1 H2 run. subst run.
  rewrite (Handlers.configurable_selected _ _ _ _ _ _ Hp).
  rewrite Hn. simpl selectedValue. rewrite Hl, String.eqb_refl.
  rewrite continue_other; [done | by intros ? | by intros ?].
Qed.

(** X7: a value entered through the "create and remember" item (other
    than the label of the other synthetic item) is persisted as typed while
    the step settles with the formatted value; through the "create without
    remembering" item the step settles with the formatted value of the
    nested input, or as that input settles. *)
Theorem configurable_created_value h first rest picks events boxes :
  Host.picks h = Selected (first :: rest) :: picks →
  (∀ n, ConfigurableQuickPickOptions.noneItem o = Some n →
        Item.label n ≠ Item.label first) →
  Host.boxes h = events :: boxes →
  let run := createConfigurableQuickPick nls o h in
  (Item.label first = Item.label newItem →
   ∀ v,
     snd (deliver (nestedInputBox o newItem) InputBox.initial events) = Resolved v →
     v ≠ Item.label newItemWithoutSetting →
     outcome run = settle (format v)
     ∧ (v ≠ "" → currentValus o (host run) = currentValus o h ++ [v])
     ∧ Host.boxes (host run) = boxes)
  ∧ (Item.label first = Item.label newItemWithoutSetting →
     Item.label newItemWithoutSetting ≠ Item.label newItem →
     outcome run
     = match snd (deliver (nestedInputBox o newItemWithoutSetting)
                    InputBox.initial events) with
       | Resolved v => settle (format v)
       | Rejected e => Rejected e
       | Pending => Pending
       end
     ∧ Host.boxes (host run) = boxes).
Proof.
  intros Hp Hnone Hb run. subst run.
  rewrite (Handlers.configurable_selected _ _ _ _ _ _ Hp).
  rewrite (Handlers.selectedValue_other _ _ Hnone).
  assert (Hb' : Host.boxes (picked nls o picks h) = events :: boxes) by done.
  split.
  - intros Hl v Hd Hv. rewrite Hl.
    assert (Hc : createAndRemember o (currentValus o h) (Item.label newItem)
                   (picked nls o picks h)
                 = (Resolved v, remembered o v boxes (picked nls o picks h))).
    { apply (Handlers.createAndRemember_entered o _ _ _ _ Hb' Hd). }
    rewrite (bind_resolved _ _ _ _ _ Hc).
    unfold mbind, Async_bind, createWithoutSetting.
    destruct (String.eqb_spec v
                (Item.label (ConfigurableQuickPickOptions.newItemWithoutSetting o)));
      [done|].
    simpl. rewrite complete_run. unfold remembered. simpl.
    split; [done|]. split.
    + intros Hne. apply truthy_true in Hne. rewrite Hne. unfold currentValus at 1.
      simpl. by rewrite lookup_insert_eq.
    + by destruct (Js.truthy v).
  - intros Hl Hne. rewrite Hl.
    rewrite (bind_resolved _ _ _ _ _
               (Handlers.createAndRemember_other o (currentValus o h) _
                  (picked nls o picks h) Hne)).
    unfold mbind, Async_bind.
    rewrite (Handlers.createWithoutSetting_entered o _ _ _ Hb').
    destruct (snd (deliver _ InputBox.initial events)) as [v|e|];
      rewrite ?complete_run; done.
Qed.

End GrowableChoice.
End GrowableChoice.

(** ** Choosing a repository *)

Module Choosing.
Import PromptTypes ConventionalCommits Observations.

Section Choosing.
Context {Change : Type}.
Variable nls : Localize.NLS.
Variable basename : string → string.
Implicit Types (repositories : list (Repository Change))
  (arg : option Arg.t) (workspaceFolders : option (list WorkspaceFolder.t)) (h : Host.t).

Lemma getRepository_prompted repositories arg workspaceFolders h :
  explicitTarget arg = None →
  1 < length repositories →
  getRepository nls basename repositories arg workspaceFolders h
  = let h' := Host.show
                (QuickPickShown (repositoryPrompt nls basename repositories workspaceFolders))
                (logged repositories arg workspaceFolders h) in
    match Host.picks h with
    | [] => (Pending, h')
    | Selected [] :: picks => (Rejected (TypeError "index"), Host.with_picks picks h')
    | Selected (item :: _) :: picks =>
        (Resolved (Item.index item ≫= λ index, repositories !! index),
         Host.with_picks picks h')
    | Failed what :: picks => (Rejected (Thrown what), Host.with_picks picks h')
    | Unsettled :: picks => (Pending, Host.with_picks picks h')
    end.
Proof.
  intros Harg Hlen. rewrite (Resolution.getRepository_implicit _ _ _ _ _ _ Harg).
  destruct repositories as [|r [|r' rs]]; simpl in Hlen; [lia|lia|].
  unfold mbind, Async_bind, createSimpleQuickPick. simpl.
  by destruct (Host.picks h) as [|[[|item items]|what|] picks].
Qed.

Lemma getRepository_resolved_candidate repositories arg workspaceFolders h repo :
  outcome (getRepository nls basename repositories arg workspaceFolders h)
  = Resolved (Some repo) →
  repo ∈ repositories.
Proof.
  destruct (explicitTarget arg) as [fsPath|] eqn:Harg.
  - rewrite (Resolution.getRepository_explicit _ _ _ _ _ _ fsPath Harg).
    destruct (find _ repositories) as [found|] eqn:Hfind; [|done].
    intros [= <-]. by destruct (Resolution.find_some_first _ _ _ Hfind).
  - destruct (decide (1 < length repositories)) as [Hlen|Hlen].
    + rewrite (getRepository_prompted _ _ _ _ Harg Hlen). simpl.
      destruct (Host.picks h) as [|[[|item items]|what|] picks]; simpl; try done.
      intros [= H]. destruct (Item.index item) as [i|]; [|done]. simpl in H.
      by eapply list_elem_of_lookup_2.
    + rewrite (Resolution.getRepository_implicit _ _ _ _ _ _ Harg).
      destruct repositories as [|r [|r' rs]]; simpl in Hlen; [done| |lia].
      intros [= <-]. by left.
Qed.

(** X8: a repository that [getRepository] resolves with is one of
    the candidates, and with an explicit target its root is the target. *)
Theorem getRepository_returns_candidate repositories arg workspaceFolders h repo :
  outcome (getRepository nls basename repositories arg workspaceFolders h)
  = Resolved (Some repo) →
  repo ∈ repositories
  ∧ ∀ fsPath, explicitTarget arg = Some fsPath → rootUri repo = fsPath.
Proof.
  intros Hr. split; [by eapply getRepository_resolved_candidate|].
  intros fsPath Harg. revert Hr.
  rewrite (Resolution.getRepository_explicit _ _ _ _ _ _ fsPath Harg).
  destruct (find _ repositories) as [found|] eqn:Hfind; [|done].
  intros [= <-]. by destruct (Resolution.find_some_first _ _ _ Hfind).
Qed.

(** X9: when the user answers the choice of repositories with the
    item shown at position [i], the call resolves with the candidate at
    position [i]; an item without index, or with an index beyond the
    candidates, resolves with [undefined]; one answer is consumed. *)
Theorem getRepository_selection repositories arg workspaceFolders h item rest picks :
  explicitTarget arg = None →
  1 < length repositories →
  Host.picks h = Selected (item :: rest) :: picks →
  let run := getRepository nls basename repositories arg workspaceFolders h in
  (∀ i,
     SimpleQuickPickOptions.items
       (repositoryPrompt nls basename repositories workspaceFolders) !! i = Some item →
     ∃ repo, repositories !! i = Some repo ∧ outcome run = Resolved (Some repo))
  ∧ (Item.index item = None → outcome run = Resolved None)
  ∧ (∀ i, Item.index item = Some i → (length repositories <= i)%nat →
          outcome run = Resolved None)
  ∧ Host.picks (host run) = picks.
Proof.
  intros Harg Hlen Hp run. subst run.
  rewrite (getRepository_prompted _ _ _ _ Harg Hlen). simpl. rewrite Hp. simpl.
  split; [|split; [|split]].
  - intros i Hi. unfold repositoryItems in Hi. rewrite list_lookup_imap in Hi.
    destruct (repositories !! i) as [repo|] eqn:Hr; [|done].
    simpl in Hi. injection Hi as <-. simpl. exists repo. by rewrite Hr.
  - by intros ->.
  - intros i -> Hge. simpl. by rewrite (lookup_ge_None_2 _ _ Hge).
  - done.
Qed.

(** X10: a choice list accepted with nothing selected rejects with a
    TypeError in the single choice, in the growable choice (settings and
    input scripts untouched) and in the choice of repositories. *)
Theorem empty_selection_rejects h picks :
  Host.picks h = Selected [] :: picks →
  (∀ o, outcome (createQuickPick o h) = Rejected (TypeError "label"))
  ∧ (∀ o,
       outcome (createConfigurableQuickPick nls o h) = Rejected (TypeError "label")
       ∧ Host.settings (host (createConfigurableQuickPick nls o h)) = Host.settings h
       ∧ Host.boxes (host (createConfigurableQuickPick nls o h)) = Host.boxes h)
  ∧ (∀ repositories arg workspaceFolders,
       explicitTarget arg = None →
       1 < length repositories →
       outcome (getRepository nls basename repositories arg workspaceFolders h)
       = Rejected (TypeError "index")).
Proof.
  intros Hp. split; [|split].
  - intros o. unfold createQuickPick, mbind, Async_bind, createSimpleQuickPick.
    simpl. by rewrite Hp.
  - intros o. unfold createConfigurableQuickPick, createQuickPick.
    unfold mbind, Async_bind, configuration_get, createSimpleQuickPick.
    simpl. by rewrite Hp.
  - intros repositories arg workspaceFolders Harg Hlen.
    rewrite (getRepository_prompted _ _ _ _ Harg Hlen). simpl. by rewrite Hp.
Qed.

(** X11: [getRepository] always writes its three diagnostic lines,
    also when it fails, never touches the settings or the input scripts,
    and shows no widget and consumes no answer when there is an explicit
    target or at most one candidate. *)
Theorem getRepository_frame repositories arg workspaceFolders h :
  let run := getRepository nls basename repositories arg workspaceFolders h in
  Host.output (host run)
  = Host.output h ++ diagnostics repositories arg workspaceFolders
  ∧ Host.settings (host run) = Host.settings h
  ∧ Host.boxes (host run) = Host.boxes h
  ∧ (is_Some (explicitTarget arg) ∨ (length repositories <= 1)%nat →
     Host.shown (host run) = Host.shown h ∧ Host.picks (host run) = Host.picks h).
Proof.
  intros run.
  assert (Hout : Host.output (logged repositories arg workspaceFolders h)
                 = Host.output h ++ diagnostics repositories arg workspaceFolders).
  { unfold logged, diagnostics. simpl. by rewrite <- !app_assoc. }
  subst run. destruct (explicitTarget arg) as [fsPath|] eqn:Harg.
  - rewrite (Resolution.getRepository_explicit _ _ _ _ _ _ fsPath Harg).
    by destruct (find _ repositories).
  - destruct (decide (1 < length repositories)) as [Hlen|Hlen].
    + rewrite (getRepository_prompted _ _ _ _ Harg Hlen). simpl.
      destruct (Host.picks h) as [|[[|item items]|what|] picks]; simpl;
        (split; [done|]; split; [done|]; split; [done|]);
        intros [[? [=]]|?]; lia.
    + rewrite (Resolution.getRepository_implicit _ _ _ _ _ _ Harg).
      destruct repositories as [|r [|r' rs]]; simpl in Hlen; [done|done|lia].
Qed.

(** X12: an argument whose path is the empty string is treated as no
    explicit target: the outcome, the widgets shown and the answers
    consumed are those of a call without argument. *)
Theorem getRepository_empty_path repositories workspaceFolders h :
  let run := getRepository nls basename repositories
               (Some {| Arg._rootUri := "" |}) workspaceFolders h in
  let run' := getRepository nls basename repositories None workspaceFolders h in
  outcome run = outcome run'
  ∧ Host.shown (host run) = Host.shown (host run')
  ∧ Host.picks (host run) = Host.picks (host run').
Proof.
  intros run run'. subst run run'.
  rewrite !Resolution.getRepository_implicit by done.
  destruct repositories as [|r [|r' rs]]; [done|done|].
  unfold mbind, Async_bind, createSimpleQuickPick. simpl.
  by destruct (Host.picks h) as [|[[|item items]|what|] picks].
Qed.

End Choosing.
End Choosing.

(** ** Localization *)

Module Localization.
Import LocalizeModule.

Lemma get_own table key :
  key ∉ Object_prototype → get table key = of_text (table !! key).
Proof.
  intros Hk. unfold get. destruct (table !! key); [done|].
  by rewrite bool_decide_eq_false_2.
Qed.

Lemma truthy_of_text text : truthy (of_text text) = Js.truthy_opt text.
Proof. by destruct text. Qed.

Lemma localize_own tables key :
  key ∉ Object_prototype →
  localize tables key = of_text (Localize.localize tables key).
Proof.
  intros Hk. unfold localize, Localize.localize, Js.or.
  rewrite !(get_own _ _ Hk), truthy_of_text.
  by destruct (Js.truthy_opt _).
Qed.

Lemma extension_key suffix : "extension." +:+ suffix ∉ Object_prototype.
Proof.
  intros Hin. apply list_elem_of_In in Hin. simpl in Hin.
  repeat (destruct Hin as [Hin|Hin]; [discriminate Hin|]). done.
Qed.

Lemma initialize_run package language h :
  initialize package language h
  = (Resolved
       {| locale := if Js.truthy language then language else DEFAULT_LOCALE;
          tables :=
            {| Localize.localeNLS :=
                 getNLS package (if Js.truthy language then language else DEFAULT_LOCALE);
               Localize.defaultNLS := package_nls package |} |},
     Host.print ("vscode.env.language: " +:+ language) h).
Proof. done. Qed.

(** X13: after [initialize] with any language other than exactly
    "zh-cn" (the empty one included), every key is looked up in the default
    table alone: a key that is no member of [Object.prototype] gives the
    table's text or [undefined], a member of the prototype without a text
    gives the inherited member; the locale is never empty and is "en" for
    the empty language. *)
Theorem localize_other_language package language h state :
  language ≠ "zh-cn" →
  outcome (initialize package language h) = Resolved state →
  (∀ key, localize (tables state) key = get (package_nls package) key)
  ∧ (∀ key, (key ∉ Object_prototype) →
            localize (tables state) key = of_text (package_nls package !! key))
  ∧ (∀ key, key ∈ Object_prototype → package_nls package !! key = None →
            localize (tables state) key = Inherited key)
  ∧ locale state ≠ ""
  ∧ (language = "" → locale state = "en").
Proof.
  intros Hne. rewrite initialize_run. intros [= <-]. simpl.
  assert (Hnls : getNLS package (if Js.truthy language then language else DEFAULT_LOCALE)
                 = package_nls package).
  { unfold getNLS. destruct (Js.truthy language); [|done].
    by destruct (String.eqb_spec language "zh-cn"). }
  assert (Hall : ∀ key,
            localize
              {| Localize.localeNLS :=
                   getNLS package
                     (if Js.truthy language then language else DEFAULT_LOCALE);
                 Localize.defaultNLS := package_nls package |} key
            = get (package_nls package) key).
  { intros key. unfold localize. simpl. rewrite Hnls.
    by destruct (truthy (get (package_nls package) key)). }
  split; [done|]. split; [|split; [|split]].
  - intros key Hk. rewrite Hall. by apply get_own.
  - intros key Hk Hnone. rewrite Hall. unfold get. rewrite Hnone.
    by rewrite bool_decide_eq_true_2.
  - destruct (Js.truthy language) eqn:Ht; [by apply truthy_true | done].
  - by intros ->.
Qed.

(** X14: after [initialize] with "zh-cn", a key with a non-empty
    zh-cn text gives that text; a key whose zh-cn text is empty is looked up
    in the default table; a key the zh-cn table lacks is looked up in the
    default table unless it is a member of [Object.prototype], which is
    returned as it is inherited, whatever the default table holds; the result
    is [undefined] exactly for a key outside the prototype with no text in
    the default table and no non-empty text in the zh-cn table. *)
Theorem localize_zh_cn_fallback package h state key :
  outcome (initialize package "zh-cn" h) = Resolved state →
  (∀ text, package_nls_zh_cn package !! key = Some text → text ≠ "" →
           localize (tables state) key = Text text)
  ∧ (package_nls_zh_cn package !! key = Some "" →
     localize (tables state) key = get (package_nls package) key)
  ∧ (package_nls_zh_cn package !! key = None → key ∉ Object_prototype →
     localize (tables state) key = of_text (package_nls package !! key))
  ∧ (package_nls_zh_cn package !! key = None → key ∈ Object_prototype →
     localize (tables state) key = Inherited key)
  ∧ (localize (tables state) key = Undefined
     ↔ (key ∉ Object_prototype)
       ∧ package_nls package !! key = None
       ∧ (package_nls_zh_cn package !! key = None
          ∨ package_nls_zh_cn package !! key = Some "")).
Proof.
  rewrite initialize_run. intros [= <-]. unfold localize. simpl.
  change (getNLS package "zh-cn") with (package_nls_zh_cn package).
  unfold get.
  destruct (package_nls_zh_cn package !! key) as [text|] eqn:Hzh.
  - destruct (String.eqb_spec text "") as [->|Hne].
    + simpl. split; [by intros text [= <-]|]. split; [done|].
      split; [done|]. split; [done|].
      destruct (package_nls package !! key) as [text|] eqn:Hd.
      * split; [done|]. by intros (_ & ? & _).
      * destruct (decide (key ∈ Object_prototype)) as [Hin|Hin].
        -- rewrite (bool_decide_eq_true_2 _ Hin). split; [done|]. by intros (? & _).
        -- rewrite (bool_decide_eq_false_2 _ Hin). split; [|done].
           intros _. split; [done|]. split; [done|]. by right.
    + simpl. apply truthy_true in Hne as Ht. rewrite Ht.
      split; [by intros ? [= <-]|]. split; [by intros [= ->]|].
      split; [done|]. split; [done|].
      split; [done|]. intros (_ & _ & [?|[= ?]]); done.
  - split; [done|]. split; [done|].
    destruct (decide (key ∈ Object_prototype)) as [Hin|Hin].
    + rewrite (bool_decide_eq_true_2 _ Hin). simpl.
      split; [done|]. split; [done|]. split; [done|]. by intros (? & _).
    + rewrite (bool_decide_eq_false_2 _ Hin). simpl.
      split; [intros _ _; by destruct (package_nls package !! key)|].
      split; [done|].
      destruct (package_nls package !! key) as [text|] eqn:Hd.
      * split; [done|]. by intros (_ & ? & _).
      * split; [|done]. intros _. split; [done|]. split; [done|]. by left.
Qed.

(** X22: for the keys the code passes, which all start with
    ["extension."], [localize] gives a text or [undefined], never an
    inherited member, and agrees with the lookup in the two tables alone
    that the prompt handlers and the repository resolution are stated
    over. *)
Theorem localize_extension_keys tables suffix :
  let key := "extension." +:+ suffix in
  localize tables key = of_text (Localize.localize tables key)
  ∧ (∀ inherited, localize tables key ≠ Inherited inherited).
Proof.
  intros key. pose proof (localize_own tables key (extension_key suffix)) as H.
  split; [done|]. intros inherited. rewrite H. by destruct (Localize.localize _ _).
Qed.

End Localization.

(** ** The earlier prompt types *)

Module Earlier.
Import PromptTypes.

Lemma inputBoxEvents_never_rejects p value events e :
  Legacy.inputBoxEvents p value events ≠ Rejected e.
Proof.
  revert value. induction events as [|ev events IH]; intros value; simpl; [done|].
  destruct ev as [v| |]; [apply IH| |done].
  destruct (Legacy.format_or_default p value); [done | apply IH].
Qed.

(** X15: the earlier prompt handlers never reject, whatever the user
    does. *)
Theorem legacy_never_rejects p e :
  (∀ events, Legacy.createQuickPick p events ≠ Rejected e)
  ∧ (∀ events, Legacy.createInputBox p events ≠ Rejected e).
Proof.
  split.
  - induction events as [|ev events IH]; simpl; [done|].
    destruct ev as [selectedItems|]; [|done].
    by destruct (Legacy.pickerDidAccept p selectedItems).
  - intros events. apply inputBoxEvents_never_rejects.
Qed.

Lemma deliver_unvalidated o p input events :
  InputBoxOptions.validate o = None →
  (∀ v, format_or_default (InputBoxOptions.format o) v = Legacy.format_or_default p v) →
  (∀ v, ∃ r, Legacy.format_or_default p v = Normal r) →
  snd (deliver o input events) = Legacy.inputBoxEvents p (InputBox.value input) events.
Proof.
  intros Hv Hf Ht. revert input.
  induction events as [|ev events IH]; intros input; simpl; [done|].
  destruct ev as [v| |]; [| |done].
  - unfold onDidChangeValue, validate_or_default. rewrite Hv. simpl. apply IH.
  - unfold onDidAccept, validate_or_default. rewrite Hv. simpl. rewrite Hf.
    by destruct (Ht (InputBox.value input)) as [r ->].
Qed.

(** X16: without validation and with the same formatter, one that
    does not throw, the current free-text input settles exactly as the
    earlier one on every sequence of events. *)
Theorem createInputBox_refines_legacy o p :
  InputBoxOptions.validate o = None →
  (∀ v, format_or_default (InputBoxOptions.format o) v = Legacy.format_or_default p v) →
  (∀ v, ∃ r, Legacy.format_or_default p v = Normal r) →
  ∀ h events rest,
    Host.boxes h = events :: rest →
    outcome (createInputBox o h) = Legacy.createInputBox p events.
Proof.
  intros Hv Hf Ht h events rest Hb.
  rewrite (Handlers.createInputBox_run _ _ _ _ Hb).
  apply (deliver_unvalidated o p InputBox.initial events Hv Hf Ht).
Qed.

(** X17: when the formatter throws on the submitted value, the
    current free-text input rejects with the exception where the earlier
    one is left unsettled. *)
Theorem throwing_formatter_rejects_now o p values e h rest :
  InputBoxOptions.validate o = None →
  (∀ v, format_or_default (InputBoxOptions.format o) v = Legacy.format_or_default p v) →
  Legacy.format_or_default p (default "" (last values)) = Throw e →
  Host.boxes h = (map DidChangeValue values ++ [DidAccept]) :: rest →
  outcome (createInputBox o h) = Rejected e
  ∧ Legacy.createInputBox p (map DidChangeValue values ++ [DidAccept]) = Pending.
Proof.
  intros Hv Hf He Hb. split.
  - rewrite (Handlers.createInputBox_run _ _ _ _ Hb). unfold outcome. simpl.
    assert (Hval : ∀ x, x ∈ values →
              ∃ m, validate_or_default (InputBoxOptions.validate o) x = Normal m).
    { intros x _. exists None. unfold validate_or_default. by rewrite Hv. }
    destruct (InputBoxFacts.deliver_typed o InputBox.initial values [DidAccept] Hval)
      as (input & Hi & _ & ->).
    simpl. unfold onDidAccept, validate_or_default. rewrite Hv. simpl.
    rewrite Hf, Hi. unfold Observations.typed. simpl. by rewrite He.
  - unfold Legacy.createInputBox.
    assert (Hl : ∀ value,
              Legacy.inputBoxEvents p value (map DidChangeValue values ++ [DidAccept])
              = match Legacy.format_or_default p (default value (last values)) with
                | Normal r => Resolved r
                | Throw _ => Pending
                end).
    { clear He Hb. induction values as [|v values IH]; intros value; simpl.
      { by destruct (Legacy.format_or_default p value). }
      rewrite IH. destruct values as [|w values]; [done|].
      change (last (v :: w :: values)) with (last (w :: values)).
      destruct (last (w :: values)) eqn:E; [done|]. by apply last_None in E. }
    by rewrite Hl, He.
Qed.

End Earlier.

(** ** The command *)

Module CommandFacts.
Import ConventionalCommits Command.

Section CommandFacts.
Context {Change Rules CommitMessage : Type}.
Variable nls : Localize.NLS.
Variable basename : string → string.
Variable loadRuleConfigs : string → Async Rules.
Variable prompts : PromptsOptions.t → Async CommitMessage.
Variable serialize : CommitMessage → string.
Variable stringifyRules : Rules → string.
Variable stringifyMessage : CommitMessage → string.
Variable stack : Error → string.
Variable typeErrorText : string → string.
Variable env : @Environment Change.

Local Abbreviation conventionalCommits :=
  (conventionalCommits nls basename loadRuleConfigs prompts serialize
     stringifyRules stringifyMessage stack typeErrorText env).
Local Abbreviation body :=
  (body nls basename loadRuleConfigs prompts serialize
     stringifyRules stringifyMessage env).
Local Abbreviation commitTo :=
  (commitTo loadRuleConfigs prompts serialize stringifyRules stringifyMessage env).
Local Abbreviation finish := (finish serialize stringifyMessage env).
Local Abbreviation report := (report nls stack typeErrorText).
Local Abbreviation messageOf := (messageOf nls typeErrorText).
Local Abbreviation resolve arg w :=
  (getRepository nls basename (repositories env) arg (workspaceFolders env)
     (informed env w)).
Local Abbreviation options :=
  {| PromptsOptions.gitmoji := gitmoji env;
     PromptsOptions.showEditor := showEditor env;
     PromptsOptions.emojiFormat := emojiFormat env;
     PromptsOptions.lineBreak := lineBreak env;
     PromptsOptions.promptScopes := promptScopes env |}.
Local Abbreviation handedOff := (handedOff serialize env).
Local Abbreviation titled text :=
  (Js.to_string (Localize.localize nls "extension.name") +:+ ": " +:+ text).

Lemma outputBasicInformation_run w :
  outputBasicInformation env w = (Resolved (), Window.with_ui (informed env w) w).
Proof. done. Qed.

Lemma informed_prompts w :
  Host.picks (informed env w) = Host.picks (Window.ui w)
  ∧ Host.boxes (informed env w) = Host.boxes (Window.ui w)
  ∧ Host.settings (informed env w) = Host.settings (Window.ui w)
  ∧ Host.shown (informed env w) = Host.shown (Window.ui w).
Proof. done. Qed.

Lemma report_run e w :
  report e w
  = (Resolved (),
     Window.showErrorMessage (titled (messageOf e))
       (Window.with_ui
          (Host.print ("Finished with an error: " +:+ stack e) (Window.ui w)) w)).
Proof. done. Qed.

Lemma finish_run repo commitMessage w :
  let run := finish repo commitMessage w in
  fst run
  = (if autoCommit env && negb (showEditor env)
     then match commit env with
          | Done => Resolved ()
          | CommandFailed what => Rejected (Thrown what)
          | NotDone => Pending
          end
     else Resolved ())
  ∧ Window.inputBox (snd run)
    = <[rootUri repo := serialize commitMessage]> (Window.inputBox w)
  ∧ Window.tabs (snd run)
    = Window.tabs w ++ (if showEditor env then [rootUri repo] else [])
  ∧ Window.commands (snd run)
    = Window.commands w
      ++ (if showEditor env then []
          else ("workbench.view.scm", None)
               :: (if autoCommit env then [("git.commit", Some (rootUri repo))] else []))
  ∧ Window.errorMessages (snd run) = Window.errorMessages w
  ∧ Host.shown (Window.ui (snd run)) = Host.shown (Window.ui w)
  ∧ Host.settings (Window.ui (snd run)) = Host.settings (Window.ui w).
Proof.
  unfold Command.finish, handOff, autoCommitStep.
  destruct (showEditor env), (autoCommit env); simpl;
    try destruct (commit env); simpl; rewrite ?app_nil_r, <- ?app_assoc; done.
Qed.

Lemma body_without_git arg w :
  extensions env !! "vscode.git" = None →
  body arg w = (Rejected (vscodeGitNotFound nls), Window.with_ui (informed env w) w).
Proof.
  intros Hg. unfold Command.body, mbind, Run_bind.
  rewrite outputBasicInformation_run. unfold getGitAPI. by rewrite Hg.
Qed.

Lemma body_with_git arg w version :
  extensions env !! "vscode.git" = Some version →
  body arg w
  = match resolve arg w with
    | (Resolved repository, h) => commitTo repository (Window.with_ui h w)
    | (Rejected e, h) => (Rejected e, Window.with_ui h w)
    | (Pending, h) => (Pending, Window.with_ui h w)
    end.
Proof.
  intros Hg. unfold Command.body. unfold mbind at 1, Run_bind at 1.
  rewrite outputBasicInformation_run. unfold getGitAPI. rewrite Hg.
  unfold mbind, Run_bind, lift. simpl.
  by destruct (resolve arg w) as [[repository|e|] h].
Qed.

Lemma commitTo_run repo w :
  commitTo (Some repo) w
  = match loadRuleConfigs (rootUri repo) (Window.ui w) with
    | (Resolved rules, h) =>
        match prompts options
                (Host.print ("commitlintRuleConfigs: " +:+ stringifyRules rules) h) with
        | (Resolved commitMessage, h) => finish repo commitMessage (Window.with_ui h w)
        | (Rejected e, h) => (Rejected e, Window.with_ui h w)
        | (Pending, h) => (Pending, Window.with_ui h w)
        end
    | (Rejected e, h) => (Rejected e, Window.with_ui h w)
    | (Pending, h) => (Pending, Window.with_ui h w)
    end.
Proof.
  unfold Command.commitTo, mbind, Run_bind, lift. simpl.
  destruct (loadRuleConfigs (rootUri repo) (Window.ui w)) as [[rules|e|] h];
    [|done|done].
  simpl. by destruct (prompts _ _) as [[commitMessage|e|] h'].
Qed.

Lemma body_effects arg w :
  untouched w (snd (body arg w))
  ∨ ∃ repo commitMessage,
      repo ∈ repositories env ∧ handedOff repo commitMessage w (snd (body arg w)).
Proof.
  destruct (extensions env !! "vscode.git") as [version|] eqn:Hg;
    [|left; by rewrite (body_without_git _ _ Hg)].
  rewrite (body_with_git _ _ _ Hg).
  pose proof (Choosing.getRepository_resolved_candidate nls basename
                (repositories env) arg (workspaceFolders env) (informed env w)) as Hc.
  destruct (resolve arg w) as [[[repo|]|e|] h]; [|by left|by left|by left].
  pose proof (Hc repo eq_refl) as Hin. rewrite commitTo_run. simpl.
  destruct (loadRuleConfigs (rootUri repo) h) as [[rules|e|] h1];
    [|by left|by left].
  destruct (prompts _ _) as [[commitMessage|e|] h2]; [|by left|by left].
  right. exists repo, commitMessage. split; [done|].
  destruct (finish_run repo commitMessage (Window.with_ui h2 w))
    as (_ & H1 & H2 & H3 & H4 & _).
  done.
Qed.

(** X18: the command never rejects, whatever the editor, the
    collaborators and the user do. *)
Theorem conventionalCommits_never_rejects arg w e :
  fst (conventionalCommits arg w) ≠ Rejected e.
Proof.
  unfold Command.conventionalCommits, tryCatch.
  destruct (Command.body _ _ _ _ _ _ _ _ arg w) as [[[]|e'|] w']; try done.
Qed.

(** X19: whatever happens, the command either leaves every
    input box, tab and command as it was, or it has written the
    serialization of an answer record into the input box of one of the
    git extension's repositories, opened a tab exactly when showEditor is
    set, and executed workbench.view.scm exactly when it is not, followed
    by git.commit exactly when moreover autoCommit is set. *)
Theorem conventionalCommits_hands_off_serialization arg w :
  let final := snd (conventionalCommits arg w) in
  (Window.inputBox final = Window.inputBox w
   ∧ Window.tabs final = Window.tabs w
   ∧ Window.commands final = Window.commands w)
  ∨ ∃ repo commitMessage,
      repo ∈ repositories env
      ∧ Window.inputBox final
        = <[rootUri repo := serialize commitMessage]> (Window.inputBox w)
      ∧ Window.tabs final
        = Window.tabs w ++ (if showEditor env then [rootUri repo] else [])
      ∧ Window.commands final
        = Window.commands w
          ++ (if showEditor env then []
              else ("workbench.view.scm", None)
                   :: (if autoCommit env
                       then [("git.commit", Some (rootUri repo))] else [])).
Proof.
  intros final. subst final. unfold Command.conventionalCommits, tryCatch.
  pose proof (body_effects arg w) as H.
  destruct (Command.body _ _ _ _ _ _ _ _ arg w) as [[[]|e'|] w']; simpl in *;
    (destruct H as [(H1 & H2 & H3 & _)|(repo & commitMessage & Hin & H1 & H2 & H3 & _)];
     [by left | right; by exists repo, commitMessage]).
Qed.

Lemma reported e w w' :
  Command.body nls basename loadRuleConfigs prompts serialize
    stringifyRules stringifyMessage env e w = (Rejected w'.1, w'.2) →
  conventionalCommits e w
  = (Resolved (),
     Window.showErrorMessage (titled (messageOf w'.1))
       (Window.with_ui
          (Host.print ("Finished with an error: " +:+ stack w'.1) (Window.ui w'.2))
          w'.2)).
Proof. intros H. unfold Command.conventionalCommits, tryCatch. by rewrite H. Qed.

(** X20: a missing git extension, a rejected repository resolution
    (no repository in particular) and an undefined repository each end the
    command normally with exactly one error message, the extension's name
    followed by the error's message, and hand nothing off; without git and
    without repositories no widget is shown. *)
Theorem conventionalCommits_reports_failures arg w :
  let run := conventionalCommits arg w in
  (extensions env !! "vscode.git" = None →
   fst run = Resolved ()
   ∧ Window.errorMessages (snd run)
     = Window.errorMessages w
       ++ [titled (default ""
                     (Localize.localize nls "extension.sources.vscodeGitNotFound"))]
   ∧ Host.shown (Window.ui (snd run)) = Host.shown (Window.ui w)
   ∧ Window.inputBox (snd run) = Window.inputBox w
   ∧ Window.commands (snd run) = Window.commands w)
  ∧ (∀ version e,
       extensions env !! "vscode.git" = Some version →
       outcome (resolve arg w) = Rejected e →
       fst run = Resolved ()
       ∧ Window.errorMessages (snd run)
         = Window.errorMessages w ++ [titled (messageOf e)]
       ∧ Window.inputBox (snd run) = Window.inputBox w
       ∧ Window.commands (snd run) = Window.commands w)
  ∧ (∀ version,
       extensions env !! "vscode.git" = Some version →
       repositories env = [] →
       explicitTarget arg = None →
       fst run = Resolved ()
       ∧ Window.errorMessages (snd run)
         = Window.errorMessages w
           ++ [titled (default ""
                         (Localize.localize nls "extension.sources.repositoriesEmpty"))]
       ∧ Host.shown (Window.ui (snd run)) = Host.shown (Window.ui w))
  ∧ (∀ version,
       extensions env !! "vscode.git" = Some version →
       outcome (resolve arg w) = Resolved None →
       fst run = Resolved ()
       ∧ Window.errorMessages (snd run)
         = Window.errorMessages w ++ [titled (typeErrorText "rootUri")]
       ∧ Window.inputBox (snd run) = Window.inputBox w
       ∧ Window.commands (snd run) = Window.commands w).
Proof.
  intros run. subst run. split; [|split; [|split]].
  - intros Hg.
    by rewrite (reported arg w (_, _) (body_without_git arg w Hg)).
  - intros version e Hg Hr.
    assert (Hb : Command.body nls basename loadRuleConfigs prompts serialize
                   stringifyRules stringifyMessage env arg w
                 = (Rejected e, Window.with_ui (snd (resolve arg w)) w)).
    { rewrite (body_with_git _ _ _ Hg). unfold outcome in Hr.
      destruct (resolve arg w) as [r h]. simpl in Hr. by subst. }
    by rewrite (reported arg w (_, _) Hb).
  - intros version Hg Hnil Harg.
    assert (Hb : Command.body nls basename loadRuleConfigs prompts serialize
                   stringifyRules stringifyMessage env arg w
                 = (Rejected NoRepositoryError,
                    Window.with_ui
                      (logged (repositories env) arg (workspaceFolders env)
                         (informed env w)) w)).
    { rewrite (body_with_git _ _ _ Hg).
      rewrite (Resolution.getRepository_implicit _ _ _ _ _ _ Harg).
      by rewrite Hnil. }
    by rewrite (reported arg w (_, _) Hb).
  - intros version Hg Hr.
    assert (Hb : Command.body nls basename loadRuleConfigs prompts serialize
                   stringifyRules stringifyMessage env arg w
                 = (Rejected (TypeError "rootUri"),
                    Window.with_ui (snd (resolve arg w)) w)).
    { rewrite (body_with_git _ _ _ Hg). unfold outcome in Hr.
      destruct (resolve arg w) as [r h]. simpl in Hr. by subst. }
    by rewrite (reported arg w (_, _) Hb).
Qed.

(** X21: when the repository, the lint rules and the answers are
    obtained, the serialized message is in the repository's input box; a
    tab is opened under showEditor, otherwise the source-control view is
    shown and, under autoCommit, git.commit is executed: its failure is
    reported as an error message, and the command is pending only while
    git.commit is. *)
Theorem conventionalCommits_completes arg w version repo h1 rules h2 commitMessage h3 :
  extensions env !! "vscode.git" = Some version →
  resolve arg w = (Resolved (Some repo), h1) →
  loadRuleConfigs (rootUri repo) h1 = (Resolved rules, h2) →
  prompts options
    (Host.print ("commitlintRuleConfigs: " +:+ stringifyRules rules) h2)
  = (Resolved commitMessage, h3) →
  let run := conventionalCommits arg w in
  let committing := autoCommit env && negb (showEditor env) in
  Window.inputBox (snd run)
  = <[rootUri repo := serialize commitMessage]> (Window.inputBox w)
  ∧ Window.tabs (snd run)
    = Window.tabs w ++ (if showEditor env then [rootUri repo] else [])
  ∧ Window.commands (snd run)
    = Window.commands w
      ++ (if showEditor env then []
          else ("workbench.view.scm", None)
               :: (if autoCommit env then [("git.commit", Some (rootUri repo))] else []))
  ∧ Window.errorMessages (snd run)
    = Window.errorMessages w
      ++ (if committing
          then match commit env with
               | CommandFailed what => [titled what]
               | _ => []
               end
          else [])
  ∧ fst run
    = (if committing
       then match commit env with
            | NotDone => Pending
            | _ => Resolved ()
            end
       else Resolved ()).
Proof.
  intros Hg Hr Hl Hp run committing. subst run committing.
  unfold Command.conventionalCommits, tryCatch.
  rewrite (body_with_git _ _ _ Hg), Hr, commitTo_run. simpl. rewrite Hl, Hp.
  destruct (finish_run repo commitMessage (Window.with_ui h3 (Window.with_ui h1 w)))
    as (Hout & H1 & H2 & H3 & H4 & _).
  destruct (finish repo commitMessage (Window.with_ui h3 (Window.with_ui h1 w)))
    as [result w'].
  simpl in *. subst result.
  destruct (autoCommit env && negb (showEditor env));
    [destruct (commit env)|]; simpl; rewrite ?app_nil_r, ?H4;
    (split; [exact H1 | split; [exact H2 | split; [exact H3 | done]]]).
Qed.

End CommandFacts.
End CommandFacts.

(** * Further worked examples *)

Import PromptTypes ConventionalCommits Command.

(** X1: what the user does after a successful submit does not matter. *)
Lemma createInputBox_first_settlement_wins_witness :
  outcome (createInputBox Sample.subject
             (Host.with_boxes
                [[DidChangeValue "fix typo"; DidAccept]
                 ++ [DidChangeValue ""; DidAccept]]
                (Sample.user [] [[DidChangeValue "fix typo"; DidAccept]] ∅)))
  = Resolved "fix typo".
Proof.
  rewrite (InputBoxFacts.createInputBox_first_settlement_wins Sample.subject
             (Sample.user [] [[DidChangeValue "fix typo"; DidAccept]] ∅)
             [DidChangeValue "fix typo"; DidAccept] [DidChangeValue ""; DidAccept] []
             eq_refl);
    [reflexivity | vm_compute; discriminate].
Defined.

(** X2: two values typed, the second one submitted; an empty box submitted. *)
Lemma createInputBox_typed_then_accepted_witness :
  outcome (createInputBox Sample.subject
             (Sample.user []
                [map DidChangeValue ["fix"; "fix typo"] ++ DidAccept :: []] ∅))
  = Resolved "fix typo"
  ∧ outcome (createInputBox Sample.subject
               (Sample.user [] [map DidChangeValue [] ++ DidAccept :: []] ∅))
    = Pending.
Proof.
  split.
  - destruct (InputBoxFacts.createInputBox_typed_then_accepted Sample.subject
                (Sample.user []
                   [map DidChangeValue ["fix"; "fix typo"] ++ DidAccept :: []] ∅)
                ["fix"; "fix typo"] [] [] eq_refl) as (H & _).
    + intros x Hx. exists None. apply list_elem_of_In in Hx. simpl in Hx.
      destruct Hx as [<- | [<- | []]]; reflexivity.
    + apply (H None); reflexivity.
  - destruct (InputBoxFacts.createInputBox_typed_then_accepted Sample.subject
                (Sample.user [] [map DidChangeValue [] ++ DidAccept :: []] ∅)
                [] [] [] eq_refl) as (_ & _ & _ & H).
    + intros x Hx. inversion Hx.
    + rewrite (H "A subject is required."); [reflexivity | reflexivity | discriminate].
Defined.

(** X3: the validation throws on the second value typed. *)
Lemma createInputBox_validation_exception_witness :
  outcome (createInputBox (Demo.input None (Some Demo.fragile))
             (Sample.user []
                [map DidChangeValue ["bo"] ++ DidChangeValue "boom" :: [DidAccept]] ∅))
  = Rejected (Thrown "validation failed").
Proof.
  destruct (InputBoxFacts.createInputBox_validation_exception
              (Demo.input None (Some Demo.fragile))
              (Sample.user []
                 [map DidChangeValue ["bo"] ++ DidChangeValue "boom" :: [DidAccept]] ∅)
              ["bo"] "boom" (Thrown "validation failed") [DidAccept] [] eq_refl)
    as (H & _); [|reflexivity|exact H].
  intros x Hx. exists None. apply list_elem_of_In in Hx. simpl in Hx.
  destruct Hx as [<- | []]. reflexivity.
Defined.

(** X6: the none item of the sample scope step. *)
Lemma configurable_none_item_witness :
  outcome (createConfigurableQuickPick Sample.nls Demo.scope
             (Sample.user [Selected [Sample.none]] [] {["scopes" := ["core"]]}))
  = Resolved "[]"
  ∧ Host.settings
      (host (createConfigurableQuickPick Sample.nls Demo.scope
               (Sample.user [Selected [Sample.none]] [] {["scopes" := ["core"]]})))
    = {["scopes" := ["core"]]}.
Proof.
  destruct (GrowableChoice.configurable_none_item Sample.nls Demo.scope
              (Sample.user [Selected [Sample.none]] [] {["scopes" := ["core"]]})
              Sample.none [] [] eq_refl) as (Hout & Hset & _);
    [by exists Sample.none | discriminate | discriminate |].
  split; [exact Hout | exact Hset].
Defined.

(** X7: the entered scope is remembered as typed and returned formatted. *)
Lemma configurable_created_value_witness :
  outcome (createConfigurableQuickPick Sample.nls Demo.scope
             (Sample.user [Selected [Sample.newScope]]
                [[DidChangeValue "api"; DidAccept]] {["scopes" := ["core"]]}))
  = Resolved "[api]"
  ∧ currentValus Demo.scope
      (host (createConfigurableQuickPick Sample.nls Demo.scope
               (Sample.user [Selected [Sample.newScope]]
                  [[DidChangeValue "api"; DidAccept]] {["scopes" := ["core"]]})))
    = ["core"; "api"]
  ∧ outcome (createConfigurableQuickPick Sample.nls Demo.scope
               (Sample.user [Selected [Sample.newScopeOnce]]
                  [[DidChangeValue "api"; DidAccept]] {["scopes" := ["core"]]}))
    = Resolved "[api]".
Proof.
  destruct (GrowableChoice.configurable_created_value Sample.nls Demo.scope
              (Sample.user [Selected [Sample.newScope]]
                 [[DidChangeValue "api"; DidAccept]] {["scopes" := ["core"]]})
              Sample.newScope [] [] [DidChangeValue "api"; DidAccept] [] eq_refl)
    as (Hremember & _); [intros n [= <-]; discriminate | reflexivity |].
  destruct (Hremember eq_refl "api" eq_refl) as (Hout & Hset & _); [discriminate|].
  destruct (GrowableChoice.configurable_created_value Sample.nls Demo.scope
              (Sample.user [Selected [Sample.newScopeOnce]]
                 [[DidChangeValue "api"; DidAccept]] {["scopes" := ["core"]]})
              Sample.newScopeOnce [] [] [DidChangeValue "api"; DidAccept] [] eq_refl)
    as (_ & Honce); [intros n [= <-]; discriminate | reflexivity |].
  destruct (Honce eq_refl) as (Hout' & _); [discriminate|].
  split; [exact Hout|]. split; [|exact Hout'].
  apply Hset. discriminate.
Defined.

(** X9: the second item of the list stands for the second repository. *)
Lemma getRepository_selection_witness :
  ∃ repo,
    [Sample.app; Sample.lib] !! 1 = Some repo
    ∧ outcome (getRepository Sample.nls Sample.basename [Sample.app; Sample.lib]
                 None (Some Sample.folders)
                 (Sample.user [Selected [Demo.libItem]] [] ∅))
      = Resolved (Some repo).
Proof.
  destruct (Choosing.getRepository_selection Sample.nls Sample.basename
              [Sample.app; Sample.lib] None (Some Sample.folders)
              (Sample.user [Selected [Demo.libItem]] [] ∅) Demo.libItem [] []
              eq_refl) as (H & _); [simpl; lia | reflexivity |].
  apply (H 1). reflexivity.
Defined.

(** X10: an accepted list with nothing selected. *)
Lemma empty_selection_rejects_witness :
  outcome (createQuickPick Sample.type (Sample.user [Selected []] [] ∅))
  = Rejected (TypeError "label")
  ∧ outcome (getRepository Sample.nls Sample.basename [Sample.app; Sample.lib]
               None None (Sample.user [Selected []] [] ∅))
    = Rejected (TypeError "index").
Proof.
  destruct (@Choosing.empty_selection_rejects () Sample.nls Sample.basename
              (Sample.user [Selected []] [] ∅) [] eq_refl) as (Hpick & _ & Hrepo).
  split; [apply Hpick|].
  apply Hrepo; [reflexivity | simpl; lia].
Defined.

(** X8: the repository at the explicit target. *)
Lemma getRepository_returns_candidate_witness :
  Sample.lib ∈ [Sample.app; Sample.lib]
  ∧ rootUri Sample.lib = "/work/lib".
Proof.
  destruct (Choosing.getRepository_returns_candidate Sample.nls Sample.basename
              [Sample.app; Sample.lib] (Sample.target "/work/lib") None Sample.idle
              Sample.lib eq_refl) as (Hin & Hroot).
  split; [exact Hin|]. apply Hroot. reflexivity.
Defined.

(** X13: a language without a table of its own. *)
Lemma localize_other_language_witness :
  LocalizeModule.localize (LocalizeModule.tables (Demo.tablesOf "fr")) "extension.name"
  = LocalizeModule.Text "Conventional Commits"
  ∧ LocalizeModule.localize (LocalizeModule.tables (Demo.tablesOf "fr")) "toString"
    = LocalizeModule.Inherited "toString"
  ∧ LocalizeModule.locale (Demo.tablesOf "fr") ≠ "".
Proof.
  destruct (Localization.localize_other_language Demo.package "fr" Sample.idle
              (Demo.tablesOf "fr")) as (Hkey & _ & Hinherited & Hlocale & _);
    [discriminate | reflexivity |].
  split; [|split; [|exact Hlocale]].
  - rewrite Hkey. reflexivity.
  - apply Hinherited; [|reflexivity].
    apply list_elem_of_In. simpl. tauto.
Defined.

(** X14: a translated text, a text the zh-cn table leaves empty, and an
    inherited member. *)
Lemma localize_zh_cn_fallback_witness :
  LocalizeModule.localize (LocalizeModule.tables (Demo.tablesOf "zh-cn"))
    "extension.name"
  = LocalizeModule.Text "Conventional Commits (zh-cn)"
  ∧ LocalizeModule.localize (LocalizeModule.tables (Demo.tablesOf "zh-cn"))
      "extension.sources.repositoriesEmpty"
    = LocalizeModule.Text "Please open a repository."
  ∧ LocalizeModule.localize (LocalizeModule.tables (Demo.tablesOf "zh-cn"))
      "constructor"
    = LocalizeModule.Inherited "constructor".
Proof.
  split; [|split].
  - destruct (Localization.localize_zh_cn_fallback Demo.package Sample.idle
                (Demo.tablesOf "zh-cn") "extension.name" eq_refl) as (H & _).
    apply H; [reflexivity | discriminate].
  - destruct (Localization.localize_zh_cn_fallback Demo.package Sample.idle
                (Demo.tablesOf "zh-cn") "extension.sources.repositoriesEmpty" eq_refl)
      as (_ & H & _).
    rewrite H; reflexivity.
  - destruct (Localization.localize_zh_cn_fallback Demo.package Sample.idle
                (Demo.tablesOf "zh-cn") "constructor" eq_refl)
      as (_ & _ & _ & H & _).
    apply H; [reflexivity|].
    apply list_elem_of_In. simpl. tauto.
Defined.

(** X16: without validation and with the default formatter the two
    versions agree. *)
Lemma createInputBox_refines_legacy_witness :
  outcome (createInputBox (Demo.input None None)
             (Sample.user [] [[DidChangeValue "typo"; DidAccept]] ∅))
  = Legacy.createInputBox (Demo.legacy None) [DidChangeValue "typo"; DidAccept].
Proof.
  apply (Earlier.createInputBox_refines_legacy (Demo.input None None)
           (Demo.legacy None) eq_refl (λ v, eq_refl) (λ v, ex_intro _ v eq_refl)
           (Sample.user [] [[DidChangeValue "typo"; DidAccept]] ∅)
           [DidChangeValue "typo"; DidAccept] [] eq_refl).
Defined.

(** X17: a formatter that throws. *)
Lemma throwing_formatter_rejects_now_witness :
  outcome (createInputBox (Demo.input (Some Demo.refuse) None)
             (Sample.user [] [map DidChangeValue ["typo"] ++ [DidAccept]] ∅))
  = Rejected (Thrown "format failed")
  ∧ Legacy.createInputBox (Demo.legacy (Some Demo.refuse))
      (map DidChangeValue ["typo"] ++ [DidAccept])
    = Pending.
Proof.
  apply (Earlier.throwing_formatter_rejects_now (Demo.input (Some Demo.refuse) None)
           (Demo.legacy (Some Demo.refuse)) ["typo"] (Thrown "format failed")
           (Sample.user [] [map DidChangeValue ["typo"] ++ [DidAccept]] ∅) []
           eq_refl (λ v, eq_refl) eq_refl eq_refl).
Defined.

(** X20: no git extension; no repository. *)
Lemma conventionalCommits_reports_failures_witness :
  Window.errorMessages
    (snd (Demo.run (Demo.editor false [Sample.app] true false Done) None Demo.window))
  = ["Conventional Commits: vscode.git is not enabled."]
  ∧ Window.errorMessages
      (snd (Demo.run (Demo.editor true [] true false Done) None Demo.window))
    = ["Conventional Commits: Please open a repository."].
Proof.
  split.
  - destruct (CommandFacts.conventionalCommits_reports_failures Demo.nls
                Sample.basename Demo.loadRuleConfigs Demo.prompts
                CommitMessage.serialize (λ _, "{}") (λ _, "{}") (λ _, "Error")
                (λ property, "Cannot read property '" +:+ property +:+ "' of undefined")
                (Demo.editor false [Sample.app] true false Done) None Demo.window)
      as (H & _).
    destruct (H eq_refl) as (_ & Hmessages & _). exact Hmessages.
  - destruct (CommandFacts.conventionalCommits_reports_failures Demo.nls
                Sample.basename Demo.loadRuleConfigs Demo.prompts
                CommitMessage.serialize (λ _, "{}") (λ _, "{}") (λ _, "Error")
                (λ property, "Cannot read property '" +:+ property +:+ "' of undefined")
                (Demo.editor true [] true false Done) None Demo.window)
      as (_ & _ & H & _).
    destruct (H (Some "1.0.0") eq_refl eq_refl eq_refl) as (_ & Hmessages & _).
    exact Hmessages.
Defined.

(** X21: a type and a subject given, the message committed. *)
Lemma conventionalCommits_completes_witness :
  Window.inputBox
    (snd (Demo.run (Demo.editor true [Sample.app] true false Done) None Demo.window))
  = {["/work/app" := "fix: typo"]}
  ∧ Window.commands
      (snd (Demo.run (Demo.editor true [Sample.app] true false Done) None Demo.window))
    = [("workbench.view.scm", None); ("git.commit", Some "/work/app")].
Proof.
  assert (Hr : getRepository Demo.nls Sample.basename
                 (repositories (Demo.editor true [Sample.app] true false Done)) None
                 (workspaceFolders (Demo.editor true [Sample.app] true false Done))
                 (informed (Demo.editor true [Sample.app] true false Done) Demo.window)
               = (Resolved (Some Sample.app), Demo.resolved))
    by (vm_compute; reflexivity).
  assert (Hl : Demo.loadRuleConfigs (rootUri Sample.app) Demo.resolved
               = (Resolved (), Demo.resolved))
    by reflexivity.
  assert (Hp : Demo.prompts
                 {| PromptsOptions.gitmoji :=
                      gitmoji (Demo.editor true [Sample.app] true false Done);
                    PromptsOptions.showEditor :=
                      showEditor (Demo.editor true [Sample.app] true false Done);
                    PromptsOptions.emojiFormat :=
                      emojiFormat (Demo.editor true [Sample.app] true false Done);
                    PromptsOptions.lineBreak :=
                      lineBreak (Demo.editor true [Sample.app] true false Done);
                    PromptsOptions.promptScopes :=
                      promptScopes (Demo.editor true [Sample.app] true false Done) |}
                 (Host.print ("commitlintRuleConfigs: " +:+ "{}") Demo.resolved)
               = (Resolved Demo.answers, Demo.prompted))
    by (vm_compute; reflexivity).
  destruct (CommandFacts.conventionalCommits_completes Demo.nls
              Sample.basename Demo.loadRuleConfigs Demo.prompts
              CommitMessage.serialize (λ _, "{}") (λ _, "{}") (λ _, "Error")
              (λ property, "Cannot read property '" +:+ property +:+ "' of undefined")
              (Demo.editor true [Sample.app] true false Done) None Demo.window
              (Some "1.0.0") Sample.app Demo.resolved () Demo.resolved
              Demo.answers Demo.prompted eq_refl Hr Hl Hp)
    as (Hinput & _ & Hcommands & _).
  unfold Demo.run. split.
  - rewrite Hinput. vm_compute. reflexivity.
  - rewrite Hcommands. reflexivity.
Defined.
